(** * A shallow embedding of the Stratum mining pool core

    The development follows [src/core/pool.py] and
    [src/core/stratum_server.py].  Python values are modelled as they
    occur in the code: integers as [Z], floats as IEEE-754 binary64
    ([spec_float] with [prec = 53], [emax = 1024]), [bytes] as lists of
    octets, [str] as [string], dictionaries used as maps as [gmap],
    exceptions through a small error monad. *)

From Stdlib Require Import ZArith Lia Bool Ascii String.
From Stdlib Require Import SpecFloat.
From stdpp Require Import gmap strings list fin_maps.

Local Open Scope Z_scope.

(* ===================================================================== *)
(** * Python primitives *)
(* ===================================================================== *)

Module Py.

(** Exceptions raised by the library calls the pool uses. *)
Inductive exn : Type :=
  | ValueError
  | TypeError
  | OverflowError
  | ZeroDivisionError
  | KeyError
  | IndexError
  | StructError.

(** A computation either returns or raises. *)
Inductive result (A : Type) : Type :=
  | Ok (a : A)
  | Raise (e : exn).
Arguments Ok {A} a.
Arguments Raise {A} e.

Definition bind {A B : Type} (m : result A) (k : A -> result B) : result B :=
  match m with
  | Ok a => k a
  | Raise e => Raise e
  end.

#[global] Instance result_ret : MRet result := fun _ a => Ok a.
#[global] Instance result_bind : MBind result := fun _ _ k m => bind m k.

(** [bytes]: a list of octets, each in [0, 256). *)
Definition bytes : Type := list Z.

(** Values that travel through JSON and through the untyped dictionaries
    of the server. *)
#[warnings="-register-all"]
Inductive pyval : Type :=
  | PNone
  | PBool (b : bool)
  | PInt (z : Z)
  | PFloat (f : spec_float)
  | PStr (s : string)
  | PList (l : list pyval)
  | PDict (d : list (string * pyval)).

(** Truth value of an object ([if x:]). *)
Definition truthy (v : pyval) : bool :=
  match v with
  | PNone => false
  | PBool b => b
  | PInt z => negb (z =? 0)
  | PFloat (S754_zero _) => false
  | PFloat _ => true
  | PStr s => negb (String.eqb s "")
  | PList l => match l with [] => false | _ => true end
  | PDict d => match d with [] => false | _ => true end
  end.

(** ** Characters *)

Definition code (c : ascii) : Z := Z.of_N (Ascii.N_of_ascii c).

(** [Py_ISSPACE]: space, TAB, LF, VT, FF, CR. *)
Definition is_space (c : ascii) : bool :=
  let n := code c in (n =? 32) || ((9 <=? n) && (n <=? 13)).

(** Value of a hexadecimal digit, either case. *)
Definition hexval (c : ascii) : option Z :=
  let n := code c in
  if (48 <=? n) && (n <=? 57) then Some (n - 48)
  else if (97 <=? n) && (n <=? 102) then Some (n - 87)
  else if (65 <=? n) && (n <=? 70) then Some (n - 55)
  else None.

(** Lower-case hexadecimal digit of a value in [0, 16). *)
Definition hexdigit (d : Z) : ascii :=
  Ascii.ascii_of_N (Z.to_N (if d <? 10 then 48 + d else 87 + d)).

(** ** [bytes.fromhex] and [bytes.hex] *)

(** [bytes.fromhex(s)]: white space is skipped between octets, every
    octet is two hexadecimal digits, anything else is a [ValueError]. *)
Fixpoint fromhex (s : string) : result bytes :=
  match s with
  | EmptyString => Ok []
  | String c s' =>
      if is_space c then fromhex s'
      else
        match hexval c, s' with
        | Some hi, String c2 s'' =>
            match hexval c2 with
            | Some lo =>
                match fromhex s'' with
                | Ok rest => Ok (hi * 16 + lo :: rest)
                | Raise e => Raise e
                end
            | None => Raise ValueError
            end
        | _, _ => Raise ValueError
        end
  end.

Definition hex_byte (b : Z) : string :=
  String (hexdigit (b / 16)) (String (hexdigit (b mod 16)) EmptyString).

(** [b.hex()] *)
Fixpoint hex (b : bytes) : string :=
  match b with
  | [] => EmptyString
  | x :: r => hex_byte x +:+ hex r
  end.

(** ** [int(s, 16)] *)

Fixpoint lstrip (s : string) : string :=
  match s with
  | String c s' => if is_space c then lstrip s' else s
  | EmptyString => EmptyString
  end.

Fixpoint all_space (s : string) : bool :=
  match s with
  | String c s' => is_space c && all_space s'
  | EmptyString => true
  end.

Definition is_underscore (c : ascii) : bool := code c =? 95.

(** The digit loop of [long_from_binary_base]: hexadecimal digits with
    single underscores between them.  [prev] tells that the previous
    character was an underscore, [seen] that a digit was read.  The
    result is the value, whether a digit was read, and the unread rest;
    [None] on a doubled or trailing underscore. *)
Fixpoint scan_digits16 (s : string) (prev seen : bool) (acc : Z)
  : option (Z * bool * string) :=
  match s with
  | String c s' =>
      if is_underscore c then
        if prev then None else scan_digits16 s' true seen acc
      else
        match hexval c with
        | Some d => scan_digits16 s' false true (16 * acc + d)
        | None => if prev then None else Some (acc, seen, s)
        end
  | EmptyString => if prev then None else Some (acc, seen, s)
  end.

(** After the sign: an optional [0x]/[0X] prefix, which may be followed
    by one underscore. *)
Definition strip_prefix16 (s : string) : string :=
  match s with
  | String c0 (String c1 r) =>
      if (code c0 =? 48) && ((code c1 =? 120) || (code c1 =? 88)) then
        match r with
        | String c2 r' => if is_underscore c2 then r' else r
        | EmptyString => r
        end
      else s
  | _ => s
  end.

Definition starts_with_underscore (s : string) : bool :=
  match s with
  | String c _ => is_underscore c
  | EmptyString => false
  end.

(** [int(s, 16)] on a [str]: surrounding white space, an optional sign,
    an optional prefix, digits; [ValueError] otherwise. *)
Definition int16 (s : string) : result Z :=
  let s1 := lstrip s in
  let '(neg, s2) :=
    match s1 with
    | String c r =>
        if code c =? 43 then (false, r)
        else if code c =? 45 then (true, r)
        else (false, s1)
    | EmptyString => (false, s1)
    end in
  let s3 := strip_prefix16 s2 in
  if starts_with_underscore s3 then Raise ValueError
  else
    match scan_digits16 s3 false false 0 with
    | Some (v, true, rest) =>
        if all_space rest then Ok (if neg then - v else v)
        else Raise ValueError
    | _ => Raise ValueError
    end.

(** ** [format(n, '0Wx')] *)

(** Hexadecimal digits of a non-negative integer, most significant
    first; [fuel] bounds the number of digits. *)
Fixpoint hex_digits (fuel : nat) (n : Z) (acc : string) : string :=
  match fuel with
  | O => acc
  | S k =>
      let acc' := String (hexdigit (n mod 16)) acc in
      if n <? 16 then acc' else hex_digits k (n / 16) acc'
  end.

Definition hex_of_nonneg (n : Z) : string :=
  hex_digits (S (Z.to_nat (Z.log2 n))) n EmptyString.

Fixpoint zeros (k : nat) : string :=
  match k with
  | O => EmptyString
  | S k' => String "0"%char (zeros k')
  end.

(** [format(n, '0Wx')]: lower-case hexadecimal, padded with zeros after
    the sign up to [width] characters. *)
Definition format_0x (width : nat) (n : Z) : string :=
  if n <? 0 then
    let d := hex_of_nonneg (- n) in
    String "-"%char (zeros (width - 1 - String.length d) +:+ d)
  else
    let d := hex_of_nonneg n in
    zeros (width - String.length d) +:+ d.

(** ** Integers and octets *)

(** [int.from_bytes(b, 'little')] *)
Fixpoint int_from_bytes_le (b : bytes) : Z :=
  match b with
  | [] => 0
  | x :: r => x + 256 * int_from_bytes_le r
  end.

(** [int.from_bytes(b, 'big')] *)
Definition int_from_bytes_be (b : bytes) : Z :=
  fold_left (fun acc x => acc * 256 + x) b 0.

(** The [n] low octets of [v], least significant first. *)
Fixpoint le_octets (n : nat) (v : Z) : bytes :=
  match n with
  | O => []
  | S k => v mod 256 :: le_octets k (v / 256)
  end.

(** [v.to_bytes(n, 'big')]: [OverflowError] when [v] is negative or does
    not fit. *)
Definition to_bytes_be (n : nat) (v : Z) : result bytes :=
  if (0 <=? v) && (v <? 2 ^ (8 * Z.of_nat n)) then Ok (rev (le_octets n v))
  else Raise OverflowError.

(** [struct.pack('<H' | '<I' | '<Q', v)] with [n] = 2, 4, 8 octets:
    [struct.error] out of range. *)
Definition struct_pack_le (n : nat) (v : Z) : result bytes :=
  if (0 <=? v) && (v <? 2 ^ (8 * Z.of_nat n)) then Ok (le_octets n v)
  else Raise StructError.

(** [bytes([v, ...])]: every element must lie in [range(256)]. *)
Definition bytes_of_ints (l : list Z) : result bytes :=
  if forallb (fun v => (0 <=? v) && (v <? 256)) l then Ok l
  else Raise ValueError.

(** [b.ljust(n, b'\x00')] *)
Definition ljust0 (n : nat) (b : bytes) : bytes :=
  b ++ repeat 0 (n - length b).

(** ** Floats: IEEE-754 binary64 *)

Definition prec : Z := 53.
Definition emax : Z := 1024.

(** [float(z)] ([PyLong_AsDouble]): round to nearest even,
    [OverflowError] beyond the largest finite float. *)
Definition float_of_int (z : Z) : result spec_float :=
  match binary_normalize prec emax z 0 false with
  | S754_infinity _ => Raise OverflowError
  | f => Ok f
  end.

Definition is_zero (f : spec_float) : bool :=
  match f with
  | S754_zero _ => true
  | _ => false
  end.

(** [a / b] on two [int]s: the correctly rounded quotient. *)
Definition int_truediv (a b : Z) : result spec_float :=
  match a, b with
  | _, Z0 => Raise ZeroDivisionError
  | Z0, _ => Ok (S754_zero (b <? 0))
  | _, _ =>
      match SFdiv prec emax
              (S754_finite (a <? 0) (Z.to_pos (Z.abs a)) 0)
              (S754_finite (b <? 0) (Z.to_pos (Z.abs b)) 0) with
      | S754_infinity _ => Raise OverflowError
      | f => Ok f
      end
  end.

(** [x / y] on two [float]s. *)
Definition float_truediv (x y : spec_float) : result spec_float :=
  if is_zero y then Raise ZeroDivisionError else Ok (SFdiv prec emax x y).

(** [a / d] for an [int] [a] and an arbitrary object [d]. *)
Definition truediv_int (a : Z) (d : pyval) : result spec_float :=
  match d with
  | PBool b => int_truediv a (if b then 1 else 0)
  | PInt z => int_truediv a z
  | PFloat f =>
      match float_of_int a with
      | Ok x => float_truediv x f
      | Raise e => Raise e
      end
  | _ => Raise TypeError
  end.

(** [d <= 0.0] *)
Definition le_zero (d : pyval) : result bool :=
  match d with
  | PBool b => Ok (negb b)
  | PInt z => Ok (z <=? 0)
  | PFloat f => Ok (SFleb f (S754_zero false))
  | _ => Raise TypeError
  end.

(** [int(f)]: truncation towards zero. *)
Definition int_of_float (f : spec_float) : result Z :=
  match f with
  | S754_nan => Raise ValueError
  | S754_infinity _ => Raise OverflowError
  | S754_zero _ => Ok 0
  | S754_finite s m e =>
      let a := if 0 <=? e then Zpos m * 2 ^ e else Zpos m / 2 ^ (- e) in
      Ok (if s then - a else a)
  end.

(** [z <= f] for an [int] and a [float]: Python compares the exact
    values. *)
Definition int_le_float (z : Z) (f : spec_float) : bool :=
  match f with
  | S754_nan => false
  | S754_infinity s => negb s
  | S754_zero _ => z <=? 0
  | S754_finite s m e =>
      let v := if s then Zneg m else Zpos m in
      if 0 <=? e then z <=? v * 2 ^ e else z * 2 ^ (- e) <=? v
  end.

(** [z <= v] for an [int] [z] and an arbitrary object [v]. *)
Definition int_le (z : Z) (v : pyval) : result bool :=
  match v with
  | PBool b => Ok (z <=? (if b then 1 else 0))
  | PInt t => Ok (z <=? t)
  | PFloat f => Ok (int_le_float z f)
  | _ => Raise TypeError
  end.

(** [m * (2 ** k)] for [int]s [m], [k]: an [int] when [k >= 0]; for
    [k < 0] the power is the float [2.0 ** k] and the product a float. *)
Definition mul_pow2 (m k : Z) : result pyval :=
  if 0 <=? k then Ok (PInt (m * 2 ^ k))
  else
    match float_of_int m with
    | Ok x => Ok (PFloat (SFmul prec emax x (binary_normalize prec emax 1 k false)))
    | Raise e => Raise e
    end.

End Py.

(* ===================================================================== *)
(** * SHA-256 ([hashlib.sha256], FIPS 180-4) *)
(* ===================================================================== *)

Module Sha256.

Definition w32 (x : Z) : Z := Z.land x 0xffffffff.
Definition add32 (x y : Z) : Z := w32 (x + y).
Definition rotr (n x : Z) : Z :=
  Z.lor (Z.shiftr x n) (w32 (Z.shiftl x (32 - n))).
Definition shr (n x : Z) : Z := Z.shiftr x n.

Definition Ch (x y z : Z) : Z :=
  Z.lxor (Z.land x y) (Z.land (Z.lxor x 0xffffffff) z).
Definition Maj (x y z : Z) : Z :=
  Z.lxor (Z.lxor (Z.land x y) (Z.land x z)) (Z.land y z).
Definition Sigma0 (x : Z) : Z := Z.lxor (Z.lxor (rotr 2 x) (rotr 13 x)) (rotr 22 x).
Definition Sigma1 (x : Z) : Z := Z.lxor (Z.lxor (rotr 6 x) (rotr 11 x)) (rotr 25 x).
Definition sigma0 (x : Z) : Z := Z.lxor (Z.lxor (rotr 7 x) (rotr 18 x)) (shr 3 x).
Definition sigma1 (x : Z) : Z := Z.lxor (Z.lxor (rotr 17 x) (rotr 19 x)) (shr 10 x).

(** The round constants and the initial state are, as the standard
    defines them, the first 32 bits of the fractional parts of the cube
    roots of the first 64 primes and of the square roots of the first 8
    (checked against the standard's vectors in [Vectors]). *)
Definition is_prime (p : Z) : bool :=
  (1 <? p) && forallb (fun d => negb (p mod d =? 0))
                      (map Z.of_nat (seq 2 (Z.to_nat p - 2))).

Definition primes64 : list Z :=
  firstn 64 (List.filter is_prime (map Z.of_nat (seq 2 310))).

(** Integer cube root, one bit at a time from bit [i - 1] down. *)
Fixpoint icbrt_bits (i : nat) (n r : Z) : Z :=
  match i with
  | O => r
  | S k =>
      let c := r + 2 ^ Z.of_nat k in
      icbrt_bits k n (if c * c * c <=? n then c else r)
  end.

Definition icbrt (n : Z) : Z := icbrt_bits 36 n 0.

Definition K : list Z :=
  Eval vm_compute in map (fun p => w32 (icbrt (p * 2 ^ 96))) primes64.

Definition H0 : list Z :=
  Eval vm_compute in map (fun p => w32 (Z.sqrt (p * 2 ^ 64))) (firstn 8 primes64).

(** Padding: the bit 1, zeros up to 56 mod 64, the bit length on 64
    bits, big-endian. *)
Definition pad (msg : Py.bytes) : Py.bytes :=
  let len := Z.of_nat (length msg) in
  let k := Z.to_nat ((55 - len) mod 64) in
  msg ++ [0x80] ++ repeat 0 k ++ rev (Py.le_octets 8 (8 * len)).

(** Big-endian 32-bit words of a padded message. *)
Fixpoint words (b : Py.bytes) : list Z :=
  match b with
  | b0 :: b1 :: b2 :: b3 :: r =>
      (((b0 * 256 + b1) * 256 + b2) * 256 + b3) :: words r
  | _ => []
  end.

(** The message schedule, kept most recent word first: [n] more words
    after the sixteen of the block. *)
Fixpoint schedule (n : nat) (w : list Z) : list Z :=
  match n with
  | O => w
  | S k =>
      let x :=
        add32 (add32 (sigma1 (nth 1 w 0)) (nth 6 w 0))
              (add32 (sigma0 (nth 14 w 0)) (nth 15 w 0)) in
      schedule k (x :: w)
  end.

Definition round (st : list Z) (kw : Z * Z) : list Z :=
  match st with
  | [a; b; c; d; e; f; g; h] =>
      let t1 :=
        add32 (add32 (add32 h (Sigma1 e)) (add32 (Ch e f g) (fst kw))) (snd kw) in
      let t2 := add32 (Sigma0 a) (Maj a b c) in
      [add32 t1 t2; a; b; c; add32 d t1; e; f; g]
  | _ => st
  end.

Fixpoint zip_add (x y : list Z) : list Z :=
  match x, y with
  | a :: x', b :: y' => add32 a b :: zip_add x' y'
  | _, _ => []
  end.

Definition compress (st : list Z) (block : list Z) : list Z :=
  let w := rev (schedule 48 (rev block)) in
  zip_add st (fold_left round (combine K w) st).

(** Process the words sixteen at a time. *)
Fixpoint blocks (fuel : nat) (st : list Z) (ws : list Z) : list Z :=
  match fuel with
  | O => st
  | S k =>
      match ws with
      | [] => st
      | _ => blocks k (compress st (firstn 16 ws)) (skipn 16 ws)
      end
  end.

Definition sha256 (msg : Py.bytes) : Py.bytes :=
  let ws := words (pad msg) in
  let st := blocks (length ws) H0 ws in
  concat (map (fun w => rev (Py.le_octets 4 w)) st).

End Sha256.


(* ===================================================================== *)
(** * [core/pool.py] *)
(* ===================================================================== *)

Module Pool.
Import Py.

(** [Pool.double_sha256] *)
Definition double_sha256 (data : bytes) : bytes :=
  Sha256.sha256 (Sha256.sha256 data).

(** [Pool.difficulty_to_target] *)
Definition difficulty_to_target (difficulty : pyval) : result Z :=
  match le_zero difficulty with
  | Raise e => Raise e
  | Ok true => Ok (2 ^ 256 - 1)
  | Ok false =>
      let bits_value := 0x1d00ffff in
      let mantissa := Z.land bits_value 0x00ffffff in
      let exponent := Z.land (Z.shiftr bits_value 24) 0xff in
      let max_target := mantissa * 2 ^ (8 * (exponent - 3)) in
      match bind (truediv_int max_target difficulty) int_of_float with
      | Ok target_value =>
          Ok (if target_value >? max_target then max_target else target_value)
      | Raise ZeroDivisionError => Ok max_target
      | Raise OverflowError => Ok max_target
      | Raise e => Raise e
      end
  end.

(** [Pool.bits_to_target] *)
Definition bits_to_target (bits_hex : string) : result pyval :=
  match int16 bits_hex with
  | Raise e => Raise e
  | Ok bits =>
      let exponent := Z.land (Z.shiftr bits 24) 0xff in
      let mantissa := Z.land bits 0x00ffffff in
      mul_pow2 mantissa (8 * (exponent - 3))
  end.

(** ** Data *)

(** A clock reading ([time.time()]).  The functions modelled store
    readings and never compute with them. *)
Definition timestamp : Type := Z.

(** An entry of [template['transactions']]. *)
Record Tx : Type := mkTx { txid : string; tx_data : string }.

(** The [getblocktemplate] result, with the fields the pool reads. *)
Record Template : Type := mkTemplate {
  height : Z;
  previousblockhash : string;
  tpl_version : Z;
  bits : string;
  curtime : Z;
  coinbasevalue : Z;
  transactions : list Tx
}.

(** [job['ntime']] is read through
    [int(job['ntime'], 16) if isinstance(job['ntime'], str) else job['ntime']]. *)
Inductive ntime_field : Type :=
  | NtInt (z : Z)
  | NtStr (s : string).

(** The job dictionary built by [create_stratum_job]. *)
Record Job : Type := mkJob {
  job_id : Z;
  prevhash : string;
  coinbase1 : string;
  coinbase2 : string;
  merkle_branches : list string;
  version : Z;
  nbits : string;
  ntime : ntime_field;
  clean_jobs : bool;
  template : Template;
  pool_difficulty : Z
}.

(** An entry of [worker_stats]. *)
Record WorkerStats : Type := mkWorkerStats {
  ws_shares : Z;
  ws_rejected : Z;
  ws_last_share : timestamp;
  ws_blocks_found : Z;
  ws_bitcoin_address : string
}.

(** An entry of [miners], as [register_worker] writes it. *)
Record Miner : Type := mkMiner {
  m_worker_name : pyval;
  m_bitcoin_address : pyval;
  m_shares : Z;
  m_last_active : timestamp
}.

(** The settings the pool reads: [POOL.address] and
    [config.getint('STRATUM', 'difficulty', fallback=1)]. *)
Record Config : Type := mkConfig {
  cfg_address : string;
  cfg_difficulty : Z
}.

(** The mutable attributes of a [Pool] object. *)
Record State : Type := mkState {
  jobs : list Job;
  current_block : option Template;
  current_job_id : Z;
  miners : gmap string Miner;
  worker_stats : gmap string WorkerStats;
  submitted_shares : gmap string timestamp;
  blocks_found : Z
}.

Definition set_jobs (st : State) (js : list Job) : State :=
  mkState js (current_block st) (current_job_id st) (miners st)
          (worker_stats st) (submitted_shares st) (blocks_found st).

Definition set_submitted_shares (st : State) (m : gmap string timestamp) : State :=
  mkState (jobs st) (current_block st) (current_job_id st) (miners st)
          (worker_stats st) m (blocks_found st).

Definition set_miners (st : State) (m : gmap string Miner) : State :=
  mkState (jobs st) (current_block st) (current_job_id st) m
          (worker_stats st) (submitted_shares st) (blocks_found st).

(** ** Coinbase construction *)

(** [encode_varint], local to [create_coinbase_tx] *)
Definition encode_varint (n : Z) : result bytes :=
  if n <? 0xfd then bytes_of_ints [n]
  else if n <=? 0xffff then
    match struct_pack_le 2 n with Ok b => Ok (0xfd :: b) | Raise e => Raise e end
  else if n <=? 0xffffffff then
    match struct_pack_le 4 n with Ok b => Ok (0xfe :: b) | Raise e => Raise e end
  else
    match struct_pack_le 8 n with Ok b => Ok (0xff :: b) | Raise e => Raise e end.

(** [ser_number], local to [create_coinbase_tx] *)
Definition ser_number (n : Z) : result bytes :=
  if n <? 0x01 then bytes_of_ints [n]
  else if n <=? 0xff then bytes_of_ints [0x01; n]
  else if n <=? 0xffff then
    match struct_pack_le 2 n with Ok b => Ok (0x02 :: b) | Raise e => Raise e end
  else if n <=? 0xffffffff then
    match struct_pack_le 4 n with Ok b => Ok (0x03 :: b) | Raise e => Raise e end
  else if n <=? 0xffffffffffffffff then
    match struct_pack_le 8 n with Ok b => Ok (0x04 :: b) | Raise e => Raise e end
  else
    match struct_pack_le 8 n with Ok b => Ok (0x05 :: b) | Raise e => Raise e end.

(** The octets of an ASCII string literal ([b"..."]). *)
Fixpoint ascii_bytes (s : string) : bytes :=
  match s with
  | EmptyString => []
  | String c r => code c :: ascii_bytes r
  end.

Definition scriptsig_header : bytes :=
  [0x01; 0; 0; 0] ++ [0x01] ++ repeat 0 32 ++ repeat 0xff 4 ++ [0x00].

Definition flags : bytes := ascii_bytes "Kazumyon Mining Pool".
Definition pool_sig : bytes := 0x0a :: ascii_bytes "Kazumyon".
Definition enonce1varlen : Z := 4.
Definition enonce2varlen : Z := 4.

(** [bytearray[pos] = v] *)
Definition bytearray_set (b : bytes) (pos : nat) (v : Z) : result bytes :=
  if (0 <=? v) && (v <? 256) then
    if (pos <? length b)%nat then Ok (<[pos := v]> b) else Raise IndexError
  else Raise ValueError.

(** [Pool.create_coinbase_tx].  [now] and [nsec] are the two values the
    function derives from the clock; [script_pubkey_hex] is what
    [address_to_script_pubkey] returns for the pool address.  The result
    is the pair [(coinbase1, coinbase2)]. *)
Definition create_coinbase_tx (now nsec : Z) (script_pubkey_hex : string)
    (height block_reward : Z) : result (string * string) :=
  height_bytes ← ser_number height;
  time_bytes ← ser_number now;
  nsec_bytes ← ser_number nsec;
  let script_len_pos := (length scriptsig_header - 1)%nat in
  let coinb1bin :=
    scriptsig_header ++ height_bytes ++ [Z.of_nat (length flags)] ++ flags
      ++ time_bytes ++ nsec_bytes ++ [enonce1varlen + enonce2varlen] in
  let coinb1len := Z.of_nat (length coinb1bin) in
  let script_len :=
    coinb1len - Z.of_nat script_len_pos - 1 + enonce1varlen + enonce2varlen - 1 in
  coinb1bin' ← bytearray_set coinb1bin script_len_pos script_len;
  reward_bytes ← struct_pack_le 8 block_reward;
  script_pubkey_bin ← fromhex script_pubkey_hex;
  script_len_bytes ← encode_varint (Z.of_nat (length script_pubkey_bin));
  let coinb2bin :=
    pool_sig ++ repeat 0xff 4 ++ [0x01] ++ reward_bytes ++ script_len_bytes
      ++ script_pubkey_bin ++ repeat 0 4 in
  mret (hex coinb1bin', hex coinb2bin).

(** ** Merkle branch *)

(** The [for i in range(0, len(level), 2)] loop: hash the level
    pairwise, an unpaired last element with itself. *)
Fixpoint next_level (level : list bytes) : list bytes :=
  match level with
  | h1 :: h2 :: r => double_sha256 (h1 ++ h2) :: next_level r
  | [h1] => [double_sha256 (h1 ++ h1)]
  | [] => []
  end.

(** The [while len(level) > 1] loop of [calculate_merkle_branches]; one
    unit of [fuel] per iteration. *)
Fixpoint merkle_loop (fuel : nat) (level : list bytes) (index : nat)
    (branches : list string) : list string :=
  match fuel with
  | O => branches
  | S k =>
      if (1 <? length level)%nat then
        let level :=
          if Nat.even (length level) then level
          else level ++ [List.last level []] in
        let branches :=
          if Nat.even index && (index + 1 <? length level)%nat then
            branches ++ [hex (rev (nth (index + 1) level []))]
          else if Nat.odd index then
            branches ++ [hex (rev (nth (index - 1) level []))]
          else branches in
        merkle_loop k (next_level level) (index / 2)%nat branches
      else branches
  end.

(** The list comprehension building [tx_hashes]. *)
Fixpoint tx_hashes (txs : list Tx) : result (list bytes) :=
  match txs with
  | [] => Ok []
  | tx :: r =>
      txid_bytes ← fromhex (txid tx);
      rest ← tx_hashes r;
      mret (rev txid_bytes :: rest)
  end.

(** [Pool.calculate_merkle_branches].  Every iteration at least halves
    a level longer than one, so [length level] iterations are enough. *)
Definition calculate_merkle_branches (txs : list Tx) : result (list string) :=
  match txs with
  | [] => Ok []
  | _ =>
      level ← tx_hashes txs;
      mret (merkle_loop (length level) level 0%nat [])
  end.

(** [Pool.create_stratum_job] *)
Definition create_stratum_job (cfg : Config) (now nsec : Z)
    (script_pubkey_hex : string) (tpl : Template) (id : Z) : result Job :=
  cb ← create_coinbase_tx now nsec script_pubkey_hex (height tpl) (coinbasevalue tpl);
  branches ← calculate_merkle_branches (transactions tpl);
  mret {| job_id := id;
          prevhash := previousblockhash tpl;
          coinbase1 := fst cb;
          coinbase2 := snd cb;
          merkle_branches := branches;
          version := tpl_version tpl;
          nbits := bits tpl;
          ntime := NtInt (curtime tpl);
          clean_jobs := true;
          template := tpl;
          pool_difficulty := cfg_difficulty cfg |}.

(** The last [n] elements ([l[-n:]]). *)
Definition last_n {A : Type} (n : nat) (l : list A) : list A :=
  skipn (length l - n) l.

(** [Pool.distribute_job]: append, keep the newest twenty.  The loop
    over [miners] sends nothing: no entry written by [register_worker]
    has a ['connection']. *)
Definition distribute_job (st : State) (job : Job) : State :=
  let js := jobs st ++ [job] in
  set_jobs st (if (20 <? length js)%nat then last_n 20 js else js).

(** [Pool.update_block_template], given the template the node returned:
    a job is built only when there is no current block or the height
    changed.  An exception in the body is logged and swallowed; the
    assignments made before it remain. *)
Definition update_block_template (cfg : Config) (now nsec : Z)
    (script_pubkey_hex : string) (st : State) (tpl : Template) : State :=
  let fresh :=
    match current_block st with
    | None => true
    | Some cur => negb (height tpl =? height cur)
    end in
  if fresh then
    let st1 :=
      mkState (jobs st) (Some tpl) (current_job_id st + 1) (miners st)
              (worker_stats st) (submitted_shares st) (blocks_found st) in
    match create_stratum_job cfg now nsec script_pubkey_hex tpl (current_job_id st1) with
    | Ok job => distribute_job st1 job
    | Raise _ => st1
    end
  else st.

(** The newest job ([self.jobs[-1]]), as [get_current_job] returns it
    when the list is not empty. *)
Definition latest_job (st : State) : option Job := last (jobs st).

(** [Pool.register_worker] *)
Definition register_worker (st : State) (now : timestamp)
    (client_id : string) (worker_name : pyval) : State :=
  match miners st !! client_id with
  | None =>
      set_miners st (<[client_id := mkMiner worker_name worker_name 0 now]> (miners st))
  | Some m =>
      set_miners st (<[client_id := mkMiner worker_name worker_name (m_shares m) now]> (miners st))
  end.

(** [Pool.record_share] *)
Definition record_share (st : State) (now : timestamp)
    (worker_name bitcoin_address : string) (block_found : bool) : State :=
  let w :=
    match worker_stats st !! worker_name with
    | Some w => w
    | None => mkWorkerStats 0 0 now 0 bitcoin_address
    end in
  let w1 := mkWorkerStats (ws_shares w + 1) (ws_rejected w) now
                          (ws_blocks_found w) (ws_bitcoin_address w) in
  if block_found then
    mkState (jobs st) (current_block st) (current_job_id st) (miners st)
      (<[worker_name :=
           mkWorkerStats (ws_shares w1) (ws_rejected w1) (ws_last_share w1)
                         (ws_blocks_found w1 + 1) (ws_bitcoin_address w1)]>
         (worker_stats st))
      (submitted_shares st) (blocks_found st + 1)
  else
    mkState (jobs st) (current_block st) (current_job_id st) (miners st)
      (<[worker_name := w1]> (worker_stats st))
      (submitted_shares st) (blocks_found st).

(** [Pool.submit_block] reads [job['transactions']], a key no job has:
    the [KeyError] is caught inside the function, which logs it and
    returns; the state is unchanged and the header is not used. *)
Definition submit_block (st : State) (job : Job) : State := st.

(** ** Share validation *)

(** The reasons [validate_share] gives; [ValidationError e] stands for
    ['Validation error: ' + str(e)]. *)
Inductive reject_reason : Type :=
  | InvalidJobIdFormat
  | JobNotFound
  | TimeOutOfRange
  | DuplicateShare
  | ShareAboveTarget
  | ValidationError (e : exn).

Definition reason_text (r : reject_reason) : string :=
  match r with
  | InvalidJobIdFormat => "Invalid job ID format"
  | JobNotFound => "Job not found"
  | TimeOutOfRange => "Time out of range"
  | DuplicateShare => "Duplicate share"
  | ShareAboveTarget => "Share above target"
  | ValidationError _ => "Validation error: "
  end.

(** The dictionary [validate_share] returns. *)
Inductive share_result : Type :=
  | Valid (block_found : bool) (hash : string)
  | Invalid (reason : reject_reason).

(** What a miner submits, with the session's [extranonce1]; [version]
    is [None] when the miner sent no version bits, [difficulty] is the
    tenth argument ([PNone] for [None]). *)
Record Submission : Type := mkSubmission {
  worker_name : string;
  bitcoin_address : string;
  sub_job_id : string;
  extranonce1 : string;
  extranonce2 : string;
  sub_ntime : string;
  nonce : string;
  sub_version : option string;
  difficulty : pyval
}.

(** [flip_bytes], local to [validate_share]: reverse every group of
    four octets (and the shorter last group, if any). *)
Fixpoint flip_bytes (data : bytes) : bytes :=
  match data with
  | a :: b :: c :: d :: r => d :: c :: b :: a :: flip_bytes r
  | _ => rev data
  end.

(** The first job with the given id (the [for j in self.jobs] loop). *)
Definition find_job (js : list Job) (numeric_job_id : Z) : option Job :=
  List.find (fun j => job_id j =? numeric_job_id) js.

(** [job_ntime] *)
Definition job_ntime (job : Job) : result Z :=
  match ntime job with
  | NtStr s => int16 s
  | NtInt z => Ok z
  end.

(** The f-string [share_key] *)
Definition share_key (sub : Submission) : string :=
  worker_name sub +:+ ":" +:+ sub_job_id sub +:+ ":" +:+ extranonce2 sub
    +:+ ":" +:+ sub_ntime sub +:+ ":" +:+ nonce sub.

(** Step 5: the Merkle root from the coinbase hash and the branches. *)
Fixpoint merkle_root_from (root : bytes) (branches : list string) : result bytes :=
  match branches with
  | [] => Ok root
  | branch :: r =>
      branch_bytes ← fromhex branch;
      merkle_root_from (double_sha256 (root ++ branch_bytes)) r
  end.

Definition pad4 (b : bytes) : bytes :=
  if negb (length b =? 4)%nat then ljust0 4 b else b.

(** Steps 4 to 6 of [validate_share]: [block_header_be], every field
    big-endian, the Merkle root with its words flipped. *)
Definition block_header_be (job : Job) (sub : Submission) : result bytes :=
  coinbase_bin ← fromhex (coinbase1 job +:+ extranonce1 sub +:+ extranonce2 sub +:+ coinbase2 job);
  let coinbase_hash := double_sha256 coinbase_bin in
  merkle_root ← merkle_root_from coinbase_hash (merkle_branches job);
  let merkle_root_flipped := flip_bytes merkle_root in
  let job_version_int := version job in
  version_bytes ←
    match sub_version sub with
    | Some v =>
        if negb (String.eqb v "") then
          client_version_int ← int16 v;
          to_bytes_be 4 (Z.lor job_version_int client_version_int)
        else to_bytes_be 4 job_version_int
    | None => to_bytes_be 4 job_version_int
    end;
  let version_bytes := pad4 version_bytes in
  prevhash_bytes ← fromhex (prevhash job);
  ntime_bytes ← fromhex (sub_ntime sub);
  let ntime_bytes := pad4 ntime_bytes in
  nbits_bytes ← fromhex (nbits job);
  let nbits_bytes := pad4 nbits_bytes in
  nonce_bytes ← fromhex (nonce sub);
  let nonce_bytes := pad4 nonce_bytes in
  mret (version_bytes ++ prevhash_bytes ++ merkle_root_flipped ++ ntime_bytes
          ++ nbits_bytes ++ nonce_bytes).

(** Step 7: [header_hash], the double SHA-256 of the whole header with
    its words flipped. *)
Definition header_hash (job : Job) (sub : Submission) : result bytes :=
  block_header_be ← block_header_be job sub;
  let block_header_flipped := flip_bytes block_header_be in
  mret (double_sha256 block_header_flipped).

(** [current_difficulty] *)
Definition current_difficulty (job : Job) (sub : Submission) : pyval :=
  match difficulty sub with
  | PNone => PInt (pool_difficulty job)
  | d => d
  end.

(** The body of the inner [try] of [validate_share], up to the two
    comparisons: the hash, [share_valid] and [block_found]. *)
Definition check_share (job : Job) (sub : Submission) : result (bytes * bool * bool) :=
  hh ← header_hash job sub;
  let header_hash_int := int_from_bytes_le hh in
  pool_target ← difficulty_to_target (current_difficulty job sub);
  let share_valid := header_hash_int <=? pool_target in
  network_target ← bits_to_target (nbits job);
  block_found ← int_le header_hash_int network_target;
  mret (hh, share_valid, block_found).

(** [Pool.validate_share].  [now] stands for the clock readings the
    function stores (with the key, and in the worker's statistics). *)
Definition validate_share (st : State) (now : timestamp) (sub : Submission)
  : State * share_result :=
  match int16 (sub_job_id sub) with
  | Raise _ => (st, Invalid InvalidJobIdFormat)
  | Ok numeric_job_id =>
      match find_job (jobs st) numeric_job_id with
      | None => (st, Invalid JobNotFound)
      | Some job =>
          match bind (job_ntime job) (fun jn =>
                  bind (int16 (sub_ntime sub)) (fun sn => Ok (jn, sn))) with
          | Raise e => (st, Invalid (ValidationError e))
          | Ok (job_ntime, submit_ntime) =>
              if Z.abs (job_ntime - submit_ntime) >? 600 then
                (st, Invalid TimeOutOfRange)
              else if bool_decide (is_Some (submitted_shares st !! share_key sub)) then
                (st, Invalid DuplicateShare)
              else
                let st1 :=
                  set_submitted_shares st
                    (<[share_key sub := now]> (submitted_shares st)) in
                match check_share job sub with
                | Raise e => (st1, Invalid (ValidationError e))
                | Ok (hh, share_valid, block_found) =>
                    if share_valid then
                      let st2 :=
                        record_share st1 now (worker_name sub)
                                     (bitcoin_address sub) block_found in
                      let st3 :=
                        if block_found then submit_block st2 job else st2 in
                      (st3, Valid block_found (hex hh))
                    else (st1, Invalid ShareAboveTarget)
                end
          end
      end
  end.


(** [Pool.get_current_job]: when no job is held the template is
    refreshed first; [fetched] is what the node returns then ([None]
    when the call fails or returns an error). *)
Definition get_current_job (cfg : Config) (now nsec : Z) (script_pubkey_hex : string)
    (fetched : option Template) (st : State) : State * option Job :=
  let st1 :=
    match jobs st, fetched with
    | [], Some tpl => update_block_template cfg now nsec script_pubkey_hex st tpl
    | _, _ => st
    end in
  (st1, latest_job st1).

End Pool.

(* ===================================================================== *)
(** * [core/stratum_server.py] *)
(* ===================================================================== *)

Module Stratum.
Import Py.

(** A frame written to a miner: the object passed to [json.dumps]. *)
Definition frame : Type := pyval.

(** An entry of [clients].  Keys that [handle_client] does not set are
    absent until a handler writes them. *)
Record Client : Type := mkClient {
  last_activity : Pool.timestamp;
  authorized : bool;
  c_worker_name : pyval;
  subscribed : option bool;
  c_extranonce1 : option string;
  extranonce2_size : option Z;
  c_bitcoin_address : option pyval;
  c_difficulty : option pyval;
  suggested_difficulty : option pyval;
  disconnected : bool
}.

(** The client dictionary [handle_client] creates. *)
Definition new_client (now : Pool.timestamp) : Client :=
  mkClient now false PNone None None None None None None false.

(** The server: its clients, its two settings and the pool it drives. *)
Record Server : Type := mkServer {
  clients : gmap string Client;
  default_difficulty : spec_float;
  accept_suggested_difficulty : bool;
  pool_config : Pool.Config;
  pool : Pool.State
}.

Definition set_client (srv : Server) (client_id : string) (c : Client) : Server :=
  mkServer (<[client_id := c]> (clients srv)) (default_difficulty srv)
           (accept_suggested_difficulty srv) (pool_config srv) (pool srv).

Definition set_pool (srv : Server) (p : Pool.State) : Server :=
  mkServer (clients srv) (default_difficulty srv)
           (accept_suggested_difficulty srv) (pool_config srv) p.

(** What the environment supplies during one request: the clock, the
    script of the pool address, and the node's answer should the pool
    ask for a template. *)
Record Env : Type := mkEnv {
  env_now : Pool.timestamp;
  env_now_int : Z;
  env_nsec : Z;
  env_script_pubkey : string;
  env_template : option Pool.Template
}.

(** ** Dictionary and sequence operations on JSON values *)

Fixpoint assoc (k : string) (d : list (string * pyval)) : option pyval :=
  match d with
  | [] => None
  | (k', v) :: r => if String.eqb k k' then Some v else assoc k r
  end.

(** [d.get(k, default)] *)
Definition dict_get (d : list (string * pyval)) (k : string) (default : pyval) : pyval :=
  match assoc k d with
  | Some v => v
  | None => default
  end.

Fixpoint string_chars (s : string) : list pyval :=
  match s with
  | EmptyString => []
  | String c r => PStr (String c EmptyString) :: string_chars r
  end.

(** [len(v)] *)
Definition py_len (v : pyval) : result nat :=
  match v with
  | PList l => Ok (length l)
  | PStr s => Ok (String.length s)
  | PDict d => Ok (length d)
  | _ => Raise TypeError
  end.

(** [v[i]] for a non-negative literal index [i]; a dictionary from JSON
    has string keys only, so an integer key is a [KeyError]. *)
Definition py_index (v : pyval) (i : nat) : result pyval :=
  match v with
  | PList l => match nth_error l i with Some x => Ok x | None => Raise IndexError end
  | PStr s => match nth_error (string_chars s) i with Some x => Ok x | None => Raise IndexError end
  | PDict _ => Raise KeyError
  | _ => Raise TypeError
  end.

(** [client_id[:8]] *)
Fixpoint prefix (n : nat) (s : string) : string :=
  match n, s with
  | S k, String c r => String c (prefix k r)
  | _, _ => EmptyString
  end.

(** ** Frames *)

Definition response (message_id result error : pyval) : frame :=
  PDict [("id", message_id); ("result", result); ("error", error)].

Definition error_response (message_id : pyval) (code : Z) (text : string) : frame :=
  PDict [("id", message_id);
         ("error", PList [PInt code; PStr text; PNone]);
         ("result", PNone)].

Definition set_difficulty_notification (d : pyval) : frame :=
  PDict [("id", PNone); ("method", PStr "mining.set_difficulty"); ("params", PList [d])].

(** The [job_notification] dictionary, as both [process_message]
    (authorize) and [broadcast_jobs] build it.  [format] raises on an
    [ntime] that is a string. *)
Definition job_notification (job : Pool.Job) : result frame :=
  ntime ←
    match Pool.ntime job with
    | Pool.NtInt z => Ok (format_0x 8 z)
    | Pool.NtStr _ => Raise ValueError
    end;
  let job_id := format_0x 16 (Pool.job_id job) in
  mret (PDict
    [("params",
      PList [PStr job_id;
             PStr (Pool.prevhash job);
             PStr (Pool.coinbase1 job);
             PStr (Pool.coinbase2 job);
             PList (map PStr (Pool.merkle_branches job));
             PStr (format_0x 8 (Pool.version job));
             PStr (Pool.nbits job);
             PStr ntime;
             PBool false]);
     ("id", PNone);
     ("method", PStr "mining.notify")]).

(** The [params] of a notification frame. *)
Definition frame_params (f : frame) : list pyval :=
  match f with
  | PDict d => match assoc "params" d with Some (PList l) => l | _ => [] end
  | _ => []
  end.

(** [StratumServer.validate_worker]; the flag comes with the pool state
    after [register_worker]. *)
Definition validate_worker (p : Pool.State) (now : Pool.timestamp)
    (worker_name : pyval) (client_id : string) : Pool.State * bool :=
  if truthy worker_name then
    if negb (String.eqb client_id "") then
      (Pool.register_worker p now client_id worker_name, true)
    else (p, true)
  else (p, false).

(** [v == "text"] *)
Definition is_str (text : string) (v : pyval) : bool :=
  match v with
  | PStr s => String.eqb s text
  | _ => false
  end.

Fixpoint is_prefix (p s : string) : bool :=
  match p, s with
  | EmptyString, _ => true
  | String a p', String b s' => Ascii.eqb a b && is_prefix p' s'
  | _, _ => false
  end.

Fixpoint is_substring (p s : string) : bool :=
  is_prefix p s ||
  match s with
  | EmptyString => false
  | String _ s' => is_substring p s'
  end.

(** ["text" in v] *)
Definition py_contains (text : string) (v : pyval) : result bool :=
  match v with
  | PList l => Ok (existsb (is_str text) l)
  | PStr s => Ok (is_substring text s)
  | PDict d => Ok (bool_decide (is_Some (assoc text d)))
  | _ => Raise TypeError
  end.

(** ** [StratumServer.process_message] *)

(** What one call leaves behind: the server, the frames the handler
    wrote to the miner itself, and what it returned or raised. *)
Record Outcome : Type := mkOutcome {
  out_server : Server;
  out_written : list frame;
  out_result : result (option frame)
}.

Definition returns (srv : Server) (written : list frame) (r : option frame) : Outcome :=
  mkOutcome srv written (Ok r).

Definition raises (srv : Server) (written : list frame) (e : exn) : Outcome :=
  mkOutcome srv written (Raise e).

(** [mining.subscribe] *)
Definition on_subscribe (srv : Server) (client_id : string) (client : Client)
    (message_id : pyval) : Outcome :=
  let session_id := prefix 8 client_id in
  let subscription_details :=
    PList [PList [PStr "mining.set_difficulty"; PStr session_id];
           PList [PStr "mining.notify"; PStr session_id]] in
  let extranonce1 := session_id +:+ "00" in
  let extranonce2_size := 4 in
  let client' :=
    mkClient (last_activity client) (authorized client) (c_worker_name client)
             (Some true) (Some extranonce1) (Some extranonce2_size)
             (c_bitcoin_address client) (c_difficulty client)
             (suggested_difficulty client) (disconnected client) in
  returns (set_client srv client_id client') []
          (Some (response message_id
                   (PList [subscription_details; PStr extranonce1; PInt extranonce2_size])
                   PNone)).

(** [mining.authorize] *)
Definition on_authorize (srv : Server) (env : Env) (client_id : string)
    (client : Client) (message_id params : pyval) : Outcome :=
  match (worker_name ← (if truthy params then py_index params 0 else Ok PNone);
         n ← py_len params;
         _ ← (if (1 <? n)%nat then py_index params 1 else Ok PNone);
         mret worker_name) with
  | Raise e => raises srv [] e
  | Ok worker_name =>
      let bitcoin_address := worker_name in
      let '(p1, authorized) :=
        validate_worker (pool srv) (env_now env) worker_name client_id in
      let srv1 := set_pool srv p1 in
      if authorized then
        let difficulty_to_use := PFloat (default_difficulty srv) in
        let client' :=
          mkClient (last_activity client) true worker_name
                   (subscribed client) (c_extranonce1 client) (extranonce2_size client)
                   (Some bitcoin_address) (Some difficulty_to_use)
                   (suggested_difficulty client) (disconnected client) in
        let srv2 := set_client srv1 client_id client' in
        let auth_response := response message_id (PBool true) PNone in
        let written :=
          [auth_response; set_difficulty_notification difficulty_to_use] in
        let '(p2, current_job) :=
          Pool.get_current_job (pool_config srv) (env_now_int env) (env_nsec env)
            (env_script_pubkey env) (env_template env) (pool srv2) in
        let srv3 := set_pool srv2 p2 in
        match current_job with
        | Some job =>
            match job_notification job with
            | Ok f => returns srv3 (written ++ [f]) None
            | Raise e => raises srv3 written e
            end
        | None => returns srv3 written None
        end
      else returns srv1 [] None
  end.

Definition as_str (v : pyval) : option string :=
  match v with
  | PStr s => Some s
  | _ => None
  end.

(** The arguments of [validate_share], when the submitted fields and the
    stored address are strings. *)
Definition submission_of (worker_name job_id extranonce2 ntime nonce version
    bitcoin_address : pyval) (extranonce1 : string) (difficulty : pyval)
  : option Pool.Submission :=
  w ← as_str worker_name;
  j ← as_str job_id;
  e2 ← as_str extranonce2;
  t ← as_str ntime;
  n ← as_str nonce;
  a ← as_str bitcoin_address;
  v ← match version with
      | PNone => Some None
      | PStr s => Some (Some s)
      | _ => None
      end;
  mret (Pool.mkSubmission w a j extranonce1 e2 t n v difficulty).

(** [mining.submit].  The embedding covers submissions whose fields are
    JSON strings; for any other it yields [None]. *)
Definition on_submit (srv : Server) (env : Env) (client_id : string)
    (client : Client) (message_id params : pyval) : option Outcome :=
  if negb (authorized client) then
    Some (returns srv [] (Some (error_response message_id 24 "Unauthorized worker")))
  else
    match py_len params with
    | Raise e => Some (raises srv [] e)
    | Ok n =>
        if (n <? 5)%nat then
          Some (returns srv [] (Some (error_response message_id 21 "Missing parameters")))
        else
          match (worker_name ← py_index params 0;
                 job_id ← py_index params 1;
                 extranonce2 ← py_index params 2;
                 ntime ← py_index params 3;
                 nonce ← py_index params 4;
                 version ← (if (5 <? n)%nat then py_index params 5 else Ok PNone);
                 mret (worker_name, job_id, extranonce2, ntime, nonce, version)) with
          | Raise e => Some (raises srv [] e)
          | Ok (worker_name, job_id, extranonce2, ntime, nonce, version) =>
              match c_bitcoin_address client with
              | None => Some (raises srv [] KeyError)
              | Some bitcoin_address =>
                  match c_extranonce1 client with
                  | None =>
                      Some (returns srv []
                              (Some (error_response message_id 20
                                       "Internal error during validation")))
                  | Some extranonce1 =>
                      let difficulty :=
                        match c_difficulty client with
                        | Some d => d
                        | None => PFloat (default_difficulty srv)
                        end in
                      match submission_of worker_name job_id extranonce2 ntime nonce
                              version bitcoin_address extranonce1 difficulty with
                      | None => None
                      | Some sub =>
                          let '(p1, valid_share) :=
                            Pool.validate_share (pool srv) (env_now env) sub in
                          let srv1 := set_pool srv p1 in
                          match valid_share with
                          | Pool.Valid _ _ =>
                              Some (returns srv1 []
                                      (Some (response message_id (PBool true) PNone)))
                          | Pool.Invalid reason =>
                              Some (returns srv1 []
                                      (Some (response message_id (PBool false)
                                               (PList [PInt 21;
                                                       PStr (Pool.reason_text reason);
                                                       PNone]))))
                          end
                      end
                  end
              end
          end
    end.

(** [mining.get_transactions]: no job carries a ['transactions'] key. *)
Definition on_get_transactions (srv : Server) (env : Env) (message_id : pyval) : Outcome :=
  let '(p1, _) :=
    Pool.get_current_job (pool_config srv) (env_now_int env) (env_nsec env)
      (env_script_pubkey env) (env_template env) (pool srv) in
  returns (set_pool srv p1) [] (Some (response message_id (PList []) PNone)).

(** [mining.configure] *)
Definition on_configure (srv : Server) (message_id params : pyval) : Outcome :=
  match (n ← py_len params;
         requested_features ← (if (0 <? n)%nat then py_index params 0 else Ok (PList []));
         feature_params ← (if (1 <? n)%nat then py_index params 1 else Ok (PDict []));
         wanted ← py_contains "version-rolling" requested_features;
         mret (wanted, feature_params)) : result (bool * pyval) with
  | Raise e => raises srv [] e
  | Ok (wanted, feature_params) =>
      let mask :=
        match feature_params with
        | PDict d => if wanted then assoc "version-rolling.mask" d else None
        | _ => None
        end in
      let result :=
        match mask with
        | Some m => PDict [("version-rolling", PBool true); ("version-rolling.mask", m)]
        | None => PDict [("version-rolling", PBool false);
                         ("version-rolling.mask", PStr "00000000")]
        end in
      returns srv [] (Some (response message_id result PNone))
  end.

(** [mining.suggest_difficulty] *)
Definition on_suggest_difficulty (srv : Server) (client_id : string)
    (client : Client) (message_id params : pyval) : Outcome :=
  match (n ← py_len params;
         if (0 <? n)%nat then py_index params 0 else Ok (PInt 1000)) with
  | Raise e => raises srv [] e
  | Ok suggested =>
      let difficulty_to_use :=
        if accept_suggested_difficulty srv then suggested
        else PFloat (default_difficulty srv) in
      let client' :=
        mkClient (last_activity client) (authorized client) (c_worker_name client)
                 (subscribed client) (c_extranonce1 client) (extranonce2_size client)
                 (c_bitcoin_address client) (Some difficulty_to_use)
                 (Some suggested) (disconnected client) in
      returns (set_client srv client_id client')
              [set_difficulty_notification difficulty_to_use]
              (Some (response message_id (PBool true) PNone))
  end.

(** [str(method)] inside the f-string of the last branch, for a method
    that is a string or absent. *)
Definition method_text (method : pyval) : option string :=
  match method with
  | PStr s => Some s
  | PNone => Some "None"
  | _ => None
  end.

(** [StratumServer.process_message]; [None] where the embedding does not
    cover the request. *)
Definition process_message (srv : Server) (env : Env) (client_id : string)
    (message : list (string * pyval)) : option Outcome :=
  let method := dict_get message "method" PNone in
  let params := dict_get message "params" (PList []) in
  let message_id := dict_get message "id" PNone in
  match clients srv !! client_id with
  | None => Some (returns srv [] (Some (error_response message_id 24 "Client not found")))
  | Some client =>
      if is_str "mining.subscribe" method then
        Some (on_subscribe srv client_id client message_id)
      else if is_str "mining.authorize" method then
        Some (on_authorize srv env client_id client message_id params)
      else if is_str "mining.submit" method then
        on_submit srv env client_id client message_id params
      else if is_str "mining.get_transactions" method then
        Some (on_get_transactions srv env message_id)
      else if is_str "client.get_version" method then
        Some (returns srv []
                (Some (response message_id (PStr "Bitcoin Mining Pool v0.1.0") PNone)))
      else if is_str "client.reconnect" method then
        Some (returns srv [] (Some (response message_id (PBool true) PNone)))
      else if is_str "mining.configure" method then
        Some (on_configure srv message_id params)
      else if is_str "mining.suggest_difficulty" method then
        Some (on_suggest_difficulty srv client_id client message_id params)
      else
        text ← method_text method;
        mret (returns srv []
                (Some (error_response message_id 20 ("Unknown method " +:+ text))))
  end.

(** ** [StratumServer._process_client_messages], one line *)

(** A line read from the miner: not JSON, or a JSON object. *)
Inductive incoming : Type :=
  | NotJson
  | JsonObject (message : list (string * pyval)).

Definition invalid_json_frame : frame :=
  PDict [("id", PNone); ("error", PList [PInt 20; PStr "Invalid JSON"; PNone])].

(** The body of the [while True] loop for one non-empty line: the server
    afterwards and the frames the miner receives, in order.  A message
    without ['id'] is a notification and gets nothing; a handler result
    of [None] sends nothing; an exception in the handler is answered by
    an internal-error frame. *)
Definition process_line (srv : Server) (env : Env) (client_id : string)
    (line : incoming) : option (Server * list frame) :=
  match clients srv !! client_id with
  | None => Some (srv, [])
  | Some c =>
      let c' :=
        mkClient (env_now env) (authorized c) (c_worker_name c) (subscribed c)
                 (c_extranonce1 c) (extranonce2_size c) (c_bitcoin_address c)
                 (c_difficulty c) (suggested_difficulty c) (disconnected c) in
      let srv1 := set_client srv client_id c' in
      match line with
      | NotJson => Some (srv1, [invalid_json_frame])
      | JsonObject message =>
          match assoc "id" message with
          | None => Some (srv1, [])
          | Some message_id =>
              out ← process_message srv1 env client_id message;
              match out_result out with
              | Ok None => Some (out_server out, out_written out)
              | Ok (Some r) => Some (out_server out, out_written out ++ [r])
              | Raise _ =>
                  Some (out_server out,
                        out_written out ++ [error_response message_id 20 "Internal error: "])
              end
          end
      end
  end.

(** ** [StratumServer.broadcast_jobs], one iteration *)

(** The frames one pass of the loop sends, per client, and the new
    [last_job_id].  An exception while the notification is built is
    caught by the loop: nothing is sent. *)
Definition broadcast_iteration (srv : Server) (env : Env) (last_job_id : option Z)
  : Server * option Z * list (string * frame) :=
  let '(p1, current_job) :=
    Pool.get_current_job (pool_config srv) (env_now_int env) (env_nsec env)
      (env_script_pubkey env) (env_template env) (pool srv) in
  let srv1 := set_pool srv p1 in
  match current_job with
  | None => (srv1, last_job_id, [])
  | Some job =>
      if bool_decide (Some (Pool.job_id job) = last_job_id) then (srv1, last_job_id, [])
      else
        match job_notification job with
        | Raise _ => (srv1, Some (Pool.job_id job), [])
        | Ok f =>
            (srv1, Some (Pool.job_id job),
             map (fun kc => (fst kc, f))
                 (List.filter
                    (fun kc => authorized (snd kc) && negb (disconnected (snd kc)))
                    (map_to_list (clients srv1))))
        end
  end.

End Stratum.

(* ===================================================================== *)
(** * [utils/helper.py] *)
(* ===================================================================== *)

Module Helper.
Import Py.

(** [bytes_to_hex] and [format_hex_string] *)
Definition bytes_to_hex (data : bytes) : string := hex data.
Definition format_hex_string (data : bytes) : string := hex data.

(** [hex_to_bytes] and [parse_hex_string] *)
Definition hex_to_bytes (hex_string : string) : result bytes := fromhex hex_string.
Definition parse_hex_string (hex_string : string) : result bytes := fromhex hex_string.

(** [format_job_id] *)
Definition format_job_id (job_id : Z) : string := format_0x 8 job_id.

(** [sha256_hexdigest] and [validate_sha256] *)
Definition sha256_hexdigest (data : bytes) : string := hex (Sha256.sha256 data).
Definition validate_sha256 (expected : string) (data : bytes) : bool :=
  String.eqb (sha256_hexdigest data) expected.

End Helper.

(* ===================================================================== *)
(** * [core/pool.py], the remaining functions *)
(* ===================================================================== *)

Module PoolMore.
Import Py Pool.

(** The attributes [Pool.__init__] sets. *)
Definition initial_state : State := mkState [] None 0 ∅ ∅ ∅ 0.

(** [s.zfill(width)]: zeros on the left, after a leading sign. *)
Definition zfill (width : nat) (s : string) : string :=
  if (width <=? String.length s)%nat then s
  else
    match s with
    | String c r =>
        if (code c =? 43) || (code c =? 45) then
          String c (zeros (width - String.length s) +:+ r)
        else zeros (width - String.length s) +:+ s
    | EmptyString => zeros width
    end.

(** [s.startswith('0x')] followed by [s[2:]] *)
Definition strip_0x (s : string) : string :=
  match s with
  | String c0 (String c1 r) =>
      if (code c0 =? 48) && (code c1 =? 120) then r else s
  | _ => s
  end.

(** [Pool.to_little_endian_hex] on a [str] ([inl]) or an [int] ([inr]). *)
Definition to_little_endian_hex (hex_string : string + Z) (byte_length : nat)
  : result string :=
  bytes_data ←
    match hex_string with
    | inl s => fromhex (zfill (byte_length * 2) (strip_0x s))
    | inr n => to_bytes_be byte_length n
    end;
  mret (hex (rev bytes_data)).

(** How the older [Pool.submit_share] ends: it returns a pair, or the
    call to the undefined [self.calculate_hash] inside [check_if_block]
    raises [AttributeError]. *)
Inductive legacy_outcome : Type :=
  | Returned (ok : bool) (message : string)
  | RaisedAttributeError.

(** [Pool.submit_share] *)
Definition submit_share (st : State) (now : timestamp) (miner_id : string)
    (job_id : Z) : State * legacy_outcome :=
  match miners st !! miner_id with
  | None => (st, Returned false "Unknown miner")
  | Some m =>
      match find_job (jobs st) job_id with
      | None => (st, Returned false "Job not found")
      | Some job =>
          (set_miners st
             (<[miner_id := mkMiner (m_worker_name m) (m_bitcoin_address m)
                              (m_shares m + 1) now]> (miners st)),
           RaisedAttributeError)
      end
  end.

End PoolMore.

(* ===================================================================== *)
(** * [core/stratum_server.py], the remaining functions *)
(* ===================================================================== *)

Module StratumMore.
Import Py Stratum.

(** [StratumServer.is_valid_bitcoin_address] *)
Definition is_valid_bitcoin_address (address : string) : bool :=
  is_prefix "tb1" address && (14 <=? String.length address)%nat
  && (String.length address <=? 74)%nat.

(** The message loop over a sequence of lines, each with the client it
    comes from and the environment at that moment: the server afterwards
    and what each line was answered with; [None] as soon as a line is
    outside the embedding. *)
Fixpoint run_lines (srv : Server) (steps : list (Env * string * incoming))
  : option (Server * list (list frame)) :=
  match steps with
  | [] => Some (srv, [])
  | (env, client_id, line) :: rest =>
      match process_line srv env client_id line with
      | None => None
      | Some (srv1, frames) =>
          match run_lines srv1 rest with
          | None => None
          | Some (srv2, more) => Some (srv2, frames :: more)
          end
      end
  end.

End StratumMore.

(* ===================================================================== *)
(** * Reachable pool states and what holds in them *)
(* ===================================================================== *)

Module Invariants.
Import Py Pool.

(** The states a pool goes through: it starts as [__init__] leaves it,
    and is changed by template updates, share validations and worker
    registrations. *)
Inductive reachable : State → Prop :=
  | reach_init : reachable PoolMore.initial_state
  | reach_template cfg now nsec spk st tpl :
      reachable st → reachable (update_block_template cfg now nsec spk st tpl)
  | reach_share st now sub :
      reachable st → reachable (validate_share st now sub).1
  | reach_register st now client_id worker_name :
      reachable st → reachable (register_worker st now client_id worker_name).

(** Job ids grow strictly along the list. *)
Definition ids_sorted (js : list Job) : Prop :=
  ∀ i j a b, js !! i = Some a → js !! j = Some b → (i < j)%nat → job_id a < job_id b.

(** The registry: at most twenty jobs, ids strictly increasing and
    between 1 and [current_job_id], every job as [create_stratum_job]
    builds it. *)
Definition registry_ok (st : State) : Prop :=
  (length (jobs st) <= 20)%nat
  ∧ ids_sorted (jobs st)
  ∧ (∀ a, a ∈ jobs st →
       1 <= job_id a <= current_job_id st
       ∧ clean_jobs a = true
       ∧ ntime a = NtInt (curtime (template a)))
  ∧ 0 <= current_job_id st.

(** A list of octets, and a string that [bytes.fromhex] accepts. *)
Definition octets (b : bytes) : Prop := Forall (fun x => 0 <= x < 256) b.
Definition decodes (s : string) : Prop := ∃ b, fromhex s = Ok b ∧ octets b.

(** The statistics: every worker on record has at least one accepted
    share, no more blocks than shares, and a rejected count of zero. *)
Definition stats_ok (st : State) : Prop :=
  ∀ w s, worker_stats st !! w = Some s →
    1 <= ws_shares s ∧ 0 <= ws_blocks_found s <= ws_shares s ∧ ws_rejected s = 0.

End Invariants.

(* ===================================================================== *)
(** * Reachable server states *)
(* ===================================================================== *)

Module ServerInvariants.
Import Py Stratum.

(** [handle_client] registers the connection under a new id. *)
Definition connect (srv : Server) (client_id : string) (now : Pool.timestamp) : Server :=
  set_client srv client_id (new_client now).

(** [del self.clients[client_id]], as the clean-up paths do. *)
Definition disconnect (srv : Server) (client_id : string) : Server :=
  mkServer (delete client_id (clients srv)) (default_difficulty srv)
           (accept_suggested_difficulty srv) (pool_config srv) (pool srv).

(** [StratumServer._mark_client_disconnected] *)
Definition mark_client_disconnected (srv : Server) (client_id : string) : Server :=
  match clients srv !! client_id with
  | Some c =>
      set_client srv client_id
        (mkClient (last_activity c) (authorized c) (c_worker_name c) (subscribed c)
                  (c_extranonce1 c) (extranonce2_size c) (c_bitcoin_address c)
                  (c_difficulty c) (suggested_difficulty c) true)
  | None => srv
  end.

(** The states a server goes through: it starts without clients over a
    pool, and is changed by connections, lines read from miners, passes
    of the broadcast loop, disconnections, and the pool's own template
    updates. *)
Inductive server_reachable : Server → Prop :=
  | srv_init dd acc cfg p :
      Invariants.reachable p → server_reachable (mkServer ∅ dd acc cfg p)
  | srv_connect srv client_id now :
      server_reachable srv → server_reachable (connect srv client_id now)
  | srv_line srv env client_id line srv' frames :
      server_reachable srv →
      process_line srv env client_id line = Some (srv', frames) →
      server_reachable srv'
  | srv_broadcast srv env last_job_id :
      server_reachable srv →
      server_reachable (broadcast_iteration srv env last_job_id).1.1
  | srv_disconnect srv client_id :
      server_reachable srv → server_reachable (disconnect srv client_id)
  | srv_mark srv client_id :
      server_reachable srv → server_reachable (mark_client_disconnected srv client_id)
  | srv_template srv now nsec spk tpl :
      server_reachable srv →
      server_reachable
        (set_pool srv (Pool.update_block_template (pool_config srv) now nsec spk
                         (pool srv) tpl)).

(** What authorization leaves in a client entry. *)
Definition client_ok (c : Client) : Prop :=
  authorized c = true →
  truthy (c_worker_name c) = true
  ∧ c_bitcoin_address c = Some (c_worker_name c)
  ∧ is_Some (c_difficulty c).

Definition server_ok (srv : Server) : Prop :=
  Invariants.reachable (pool srv)
  ∧ ∀ id c, clients srv !! id = Some c → client_ok c.

(** The frame that answers a share above the target. *)
Definition above_target_response (message_id : pyval) : frame :=
  response message_id (PBool false)
           (PList [PInt 21; PStr (Pool.reason_text Pool.ShareAboveTarget); PNone]).

End ServerInvariants.

(* ===================================================================== *)
(** * Reference definitions, after the specification's wording *)
(* ===================================================================== *)

Module Reference.
Import Py.

(** The least number of octets that hold [n > 0]. *)
Definition minimal_octets (n : Z) : nat := Z.to_nat (Z.log2 n / 8 + 1).

(** [ser_number] as the specification words it: [[len][LE bytes]] with
    [len] the least number of octets needed, and the single octet 0x00
    for zero. *)
Definition ser_number_spec (n : Z) : bytes :=
  if n =? 0 then [0x00]
  else Z.of_nat (minimal_octets n) :: le_octets (minimal_octets n) n.

(** The Merkle branch of the coinbase as the specification words it: the
    coinbase sits at position 0 of the leaves, each level is hashed
    pairwise with its last element doubled when the length is odd, and
    the sibling of the running position is collected.  [cb] stands for
    the coinbase leaf; with the position always 0 the sibling is the
    second element of the level. *)
Fixpoint branch_spec (fuel : nat) (level : list bytes) : list bytes :=
  match fuel with
  | O => []
  | S k =>
      match level with
      | _ :: _ :: _ =>
          let level :=
            if Nat.even (length level) then level else level ++ [List.last level []] in
          nth 1 level [] :: branch_spec k (Pool.next_level level)
      | _ => []
      end
  end.

Definition merkle_branch_spec (cb : bytes) (tx_hashes : list bytes) : list bytes :=
  branch_spec (S (length tx_hashes)) (cb :: tx_hashes).

(** A string of hexadecimal digits only. *)
Fixpoint all_hex (s : string) : bool :=
  match s with
  | EmptyString => true
  | String c r =>
      match hexval c with Some _ => all_hex r | None => false end
  end.


(** The largest target, [0x00ffff * 2^208]. *)
Definition MAX_TARGET : Z := 0x00ffff * 2 ^ 208.

(** [floor(MAX_TARGET / d)] clamped to [MAX_TARGET], for a difficulty
    given as the fraction [num / den] with [num, den > 0]. *)
Definition target_spec (num den : Z) : Z :=
  Z.min MAX_TARGET ((MAX_TARGET * den) / num).

(** The float [2^k], for [-1074 <= k <= 1023]: normal from [2^-1022]
    on, subnormal below. *)
Definition pow2_float (k : Z) : spec_float :=
  if -1022 <=? k then S754_finite false (Z.to_pos (2 ^ 52)) (k - 52)
  else S754_finite false (Z.to_pos (2 ^ (k + 1074))) (-1074).

(** [floor(MAX_TARGET / 2^k)] clamped to [MAX_TARGET]. *)
Definition target_spec_pow2 (k : Z) : Z :=
  if 0 <=? k then target_spec (2 ^ k) 1 else target_spec 1 (2 ^ (- k)).

(** A difficulty [d > 0]: a positive [int] or a positive [float]
    (which excludes NaN). *)
Definition positive_difficulty (d : pyval) : Prop :=
  match d with
  | PInt z => 0 < z
  | PFloat (S754_finite false _ _) => True
  | PFloat (S754_infinity false) => True
  | _ => False
  end.

(** A difficulty [d <= 0]: an [int] or a [float] for which the
    comparison holds. *)
Definition nonpositive_difficulty (d : pyval) : Prop :=
  match d with
  | PInt z => z <= 0
  | PFloat (S754_zero _) => True
  | PFloat (S754_finite true _ _) => True
  | PFloat (S754_infinity true) => True
  | _ => False
  end.

End Reference.

(* ===================================================================== *)
(** * Predicates used in the statements and proofs *)
(* ===================================================================== *)

Module Predicates.
Import Py Pool.


(** The guards in front of the duplicate check, read off a call: the job
    id parses, the job is held, both times parse and lie within the
    window. *)
Definition reaches_duplicate_check (st : State) (sub : Submission) : Prop :=
  ∃ n job jn sn,
    int16 (sub_job_id sub) = Ok n ∧ find_job (jobs st) n = Some job ∧
    job_ntime job = Ok jn ∧ int16 (sub_ntime sub) = Ok sn ∧
    Z.abs (jn - sn) <= 600.

(** How a call ends, with what it does to the state: either it stops at
    a guard and leaves the state alone, or it finds the key already
    present, or it inserts the key and goes on to the hash. *)
Inductive call_shape (st : State) (now : timestamp) (sub : Submission)
  : State → share_result → Prop :=
  | stops_early r :
      ¬ reaches_duplicate_check st sub →
      (r = InvalidJobIdFormat ∨ r = JobNotFound ∨ r = TimeOutOfRange
       ∨ ∃ e, r = ValidationError e) →
      call_shape st now sub st (Invalid r)
  | is_duplicate :
      reaches_duplicate_check st sub →
      is_Some (submitted_shares st !! share_key sub) →
      call_shape st now sub st (Invalid DuplicateShare)
  | goes_on st' r :
      reaches_duplicate_check st sub →
      submitted_shares st !! share_key sub = None →
      jobs st' = jobs st →
      submitted_shares st' = <[share_key sub := now]> (submitted_shares st) →
      (r = Invalid ShareAboveTarget ∨ (∃ e, r = Invalid (ValidationError e))
       ∨ ∃ bf h, r = Valid bf h) →
      call_shape st now sub st' r.

(** What [binary_round_aux] can return on a non-negative mantissa with
    the sign bit clear. *)
Inductive nonneg_float : spec_float → Prop :=
  | nn_zero : nonneg_float (S754_zero false)
  | nn_finite m e : nonneg_float (S754_finite false m e)
  | nn_infinity : nonneg_float (S754_infinity false).

(** The session of client [id] holds the [extranonce1] that
    [mining.subscribe] assigns to it. *)
Definition extranonce1_assigned (srv : Stratum.Server) (id : string) : Prop :=
  ∃ c, Stratum.clients srv !! id = Some c
       ∧ Stratum.c_extranonce1 c = Some (Stratum.prefix 8 id +:+ "00").

(** Quotient and remainder by two, for [lia]. *)
Ltac half_facts n :=
  pose proof (Nat.div_mod_eq n 2); pose proof (Nat.mod_upper_bound n 2).

End Predicates.

(* ===================================================================== *)
(** * Concrete data used in the examples *)
(* ===================================================================== *)

Module Sample.
Import Py Pool.

Definition float_one : spec_float := S754_finite false (2 ^ 52) (-52).

Definition template1 : Template :=
  {| height := 2500000;
     previousblockhash := "0000000000000000000000000000000000000000000000000000000000000001";
     tpl_version := 0x20000000;
     bits := "207fffff";
     curtime := 1700000000;
     coinbasevalue := 5000000000;
     transactions :=
       [mkTx "0101010101010101010101010101010101010101010101010101010101010101" "";
        mkTx "0202020202020202020202020202020202020202020202020202020202020202" "";
        mkTx "0303030303030303030303030303030303030303030303030303030303030303" ""] |}.

Definition config1 : Config := mkConfig "tb1q6kr0xxz37ys0ajfjf2kv85hl48zf8g7grs40lu" 1.

Definition script1 : string := "0014abababababababababababababababababababab".

(** The job [create_stratum_job] makes of [template1] at clock reading
    1700000000.123456789 (see [Vectors.job1_built]). *)
Definition job1 : Job :=
  {| job_id := 1;
     prevhash := "0000000000000000000000000000000000000000000000000000000000000001";
     coinbase1 := "01000000010000000000000000000000000000000000000000000000000000000000000000ffffffff2c03a0252600144b617a756d796f6e204d696e696e6720506f6f6c0300f153650315cd5b0708";
     coinbase2 := "0a4b617a756d796f6effffffff0100f2052a01000000160014abababababababababababababababababababab00000000";
     merkle_branches :=
       ["0202020202020202020202020202020202020202020202020202020202020202";
        "df2db416a05165238668a5d299b773f5f1bd00364b37c9d8b3d299367e4b3d64"];
     version := 0x20000000;
     nbits := "207fffff";
     ntime := NtInt 1700000000;
     clean_jobs := true;
     template := template1;
     pool_difficulty := 1 |}.

(** A pool holding [job1] and nothing else. *)
Definition state1 : State :=
  mkState [job1] (Some template1) 1 ∅ ∅ ∅ 0.

(** A share for [job1]; [d] is the difficulty passed by the server. *)
Definition share (nonce : string) (d : pyval) : Submission :=
  {| worker_name := "tb1qworker";
     bitcoin_address := "tb1qworker";
     sub_job_id := "0000000000000001";
     extranonce1 := "bf3796c200";
     extranonce2 := "00000001";
     sub_ntime := "6553f100";
     nonce := nonce;
     sub_version := Some "00001000";
     difficulty := d |}.

(** The same share with another submitted time. *)
Definition share_at (ntime : string) : Submission :=
  {| worker_name := "tb1qworker";
     bitcoin_address := "tb1qworker";
     sub_job_id := "0000000000000001";
     extranonce1 := "bf3796c200";
     extranonce2 := "00000001";
     sub_ntime := ntime;
     nonce := "00000002";
     sub_version := None;
     difficulty := PNone |}.




End Sample.

Module SampleServer.
Import Py Stratum.

Definition env1 : Env := mkEnv 1700000000 1700000000 123456789 Sample.script1 None.

(** A subscribed and authorized miner. *)
Definition miner1 : Client :=
  mkClient 1700000000 true (PStr "tb1qworker") (Some true) (Some "bf3796c200")
           (Some 4) (Some (PStr "tb1qworker")) (Some (PFloat Sample.float_one))
           None false.

(** A server with that miner, over a given pool state. *)
Definition server (p : Pool.State) : Server :=
  mkServer {[ "bf3796c2" := miner1 ]} Sample.float_one true Sample.config1 p.

(** A server with one fresh connection. *)
Definition fresh_server : Server :=
  mkServer {[ "bf3796c2" := new_client 1700000000 ]} Sample.float_one true
           Sample.config1 Sample.state1.

Definition subscribe_request : list (string * pyval) :=
  [("id", PInt 1); ("method", PStr "mining.subscribe");
   ("params", PList [PStr "cpuminer/1.0"])].

Definition authorize_empty_params : list (string * pyval) :=
  [("id", PInt 2); ("method", PStr "mining.authorize"); ("params", PList [])].

Definition authorize_empty_name : list (string * pyval) :=
  [("id", PInt 2); ("method", PStr "mining.authorize");
   ("params", PList [PStr ""; PStr "x"])].

End SampleServer.

Module SampleMore.
Import Py Pool.

(** A template at height [h], one minute per block after [template1]. *)
Definition template_at (h : Z) : Template :=
  {| height := h;
     previousblockhash := previousblockhash Sample.template1;
     tpl_version := 0x20000000;
     bits := "207fffff";
     curtime := 1700000000 + 60 * h;
     coinbasevalue := 5000000000;
     transactions := [] |}.

(** The pool after one template for each of the given heights. *)
Definition feed (st : State) (heights : list Z) : State :=
  foldl (fun st h =>
           update_block_template Sample.config1 1700000000 123456789 Sample.script1
             st (template_at h))
        st heights.

(** A pool that has seen heights 1 to 20: its registry is full. *)
Definition full_state : State := feed PoolMore.initial_state (seqZ 1 20).

(** A template whose reward does not fit [struct.pack('<Q', _)]. *)
Definition bad_template : Template :=
  {| height := 7;
     previousblockhash := previousblockhash Sample.template1;
     tpl_version := 0x20000000;
     bits := "207fffff";
     curtime := 1700000420;
     coinbasevalue := -1;
     transactions := [] |}.

(** A pool that has seen [template1] only. *)
Definition started : State :=
  update_block_template Sample.config1 1700000000 123456789 Sample.script1
    PoolMore.initial_state Sample.template1.

End SampleMore.

Module SampleServerMore.
Import Py Stratum ServerInvariants.

(** A server before any connection, over a pool that holds one job. *)
Definition empty_server : Server :=
  mkServer ∅ Sample.float_one true Sample.config1 SampleMore.started.

Definition authorize_request : list (string * pyval) :=
  [("id", PInt 2); ("method", PStr "mining.authorize");
   ("params", PList [PStr "tb1qworker"; PStr "x"])].

Definition suggest_zero : list (string * pyval) :=
  [("id", PInt 3); ("method", PStr "mining.suggest_difficulty");
   ("params", PList [PInt 0])].

Definition submit_request : list (string * pyval) :=
  [("id", PInt 4); ("method", PStr "mining.submit");
   ("params", PList [PStr "tb1qworker"; PStr "0000000000000001"; PStr "00000001";
                     PStr "6553f100"; PStr "00000002"])].

(** The server after a line, or as it was when the line is outside the
    embedding. *)
Definition after_line (srv : Server) (client_id : string) (line : incoming) : Server :=
  match process_line srv SampleServer.env1 client_id line with
  | Some (srv', _) => srv'
  | None => srv
  end.

(** One miner connects, subscribes and authorizes. *)
Definition authorized_server : Server :=
  after_line
    (after_line (connect empty_server "bf3796c2" 1700000000) "bf3796c2"
       (JsonObject SampleServer.subscribe_request))
    "bf3796c2" (JsonObject authorize_request).

(** What [process_message] leaves, or nothing changed when the message
    is outside the embedding. *)
Definition outcome_of (srv : Server) (client_id : string)
    (message : list (string * pyval)) : Outcome :=
  match process_message srv SampleServer.env1 client_id message with
  | Some out => out
  | None => returns srv [] None
  end.

End SampleServerMore.

(* ===================================================================== *)
(** * Properties *)
(* ===================================================================== *)

(** ** Test vectors for the primitives *)

Module Vectors.
Import Py.

(** SHA-256 of ["abc"] (FIPS 180-4, appendix B.1). *)
Example sha256_abc :
  hex (Sha256.sha256 [97; 98; 99])
  = "ba7816bf8f01cfea414140de5dae2223b00361a396177a9cb410ff61f20015ad".
Proof. vm_compute. reflexivity. Qed.

(** The header of the genesis block, as in [Pool.test_hash_calculation]. *)
Example genesis_block_hash :
  (h ← fromhex ("0100000000000000000000000000000000000000000000000000000000000000000000003ba3edfd7a7b12b27ac72c3e67768f617fc81bc3888a51323a9fb8aa4b1e5e4a29ab5f49ffff001d1dac2b7c");
   mret (hex (rev (Pool.double_sha256 h))))
  = Ok "000000000019d6689c085ae165831e934ff763ae46a2a6c172b3f1b60a8ce26f".
Proof. vm_compute. reflexivity. Qed.

(** [int(s, 16)] on a few shapes. *)
Example int16_shapes :
  int16 "6553f100" = Ok 1700000000 /\ int16 " -0x_1f_f  " = Ok (-511)
  /\ int16 "1__0" = Raise ValueError /\ int16 "0x" = Raise ValueError
  /\ int16 "" = Raise ValueError /\ int16 "12 34" = Raise ValueError.
Proof. vm_compute. repeat split; reflexivity. Qed.

(** [1 / 3] and [2**2000 / (2**1990 + 1)] as Python rounds them. *)
Example truediv_rounding :
  int_truediv 1 3 = Ok (S754_finite false 6004799503160661 (-54))
  /\ int_truediv (2 ^ 2000) (2 ^ 1990 + 1) = Ok (S754_finite false (2 ^ 52) (-42)).
Proof. vm_compute. split; reflexivity. Qed.

(** [create_stratum_job] on the sample template. *)
Example job1_built :
  Pool.create_stratum_job Sample.config1 1700000000 123456789 Sample.script1
    Sample.template1 1 = Ok Sample.job1.
Proof. vm_compute. reflexivity. Qed.

(** The hash of a sample share, as computed independently with
    [hashlib]. *)
Example share_hash :
  Pool.header_hash Sample.job1 (Sample.share "00000002" PNone)
  = fromhex "f0fa4480c716f82434bf5a6a3e6c188a79233e9b4f6a4234a22848cea427b223".
Proof. vm_compute. reflexivity. Qed.

End Vectors.

(** ** Hexadecimal text *)

Module CodecProps.
Import Py Reference.

Lemma hexval_range c d :
  hexval c = Some d →
  0 <= d < 16 ∧ (48 <= code c <= 57 ∨ 97 <= code c <= 102 ∨ 65 <= code c <= 70).
Proof.
  unfold hexval. set (n := code c).
  destruct (Z.leb_spec 48 n), (Z.leb_spec n 57), (Z.leb_spec 97 n), (Z.leb_spec n 102),
    (Z.leb_spec 65 n), (Z.leb_spec n 70); simpl; intros [= <-]; lia.
Qed.

Lemma hexval_not_space c d : hexval c = Some d → is_space c = false.
Proof.
  intros H. apply hexval_range in H. destruct H as [_ H].
  unfold is_space. set (n := code c) in *.
  destruct (Z.eqb_spec n 32), (Z.leb_spec 9 n), (Z.leb_spec n 13); simpl; try reflexivity; lia.
Qed.

Lemma hexval_hexdigit d : 0 <= d < 16 → hexval (hexdigit d) = Some d.
Proof.
  intros H.
  assert (Hd : d = 0 ∨ d = 1 ∨ d = 2 ∨ d = 3 ∨ d = 4 ∨ d = 5 ∨ d = 6 ∨ d = 7 ∨ d = 8
               ∨ d = 9 ∨ d = 10 ∨ d = 11 ∨ d = 12 ∨ d = 13 ∨ d = 14 ∨ d = 15) by lia.
  repeat (destruct Hd as [->|Hd]; [reflexivity|]). subst d. reflexivity.
Qed.

(** Reading back the digits [hex_digits] wrote, from accumulator 0. *)
Lemma scan_hex_digits fuel : ∀ n acc prev seen,
  0 <= n < 16 ^ Z.of_nat (S fuel) →
  scan_digits16 (hex_digits (S fuel) n acc) prev seen 0 = scan_digits16 acc false true n.
Proof.
  assert (Hstep : ∀ m a p s0, 0 <= m →
            scan_digits16 (String (hexdigit (m mod 16)) a) p s0 (m / 16)
            = scan_digits16 a false true m).
  { intros m a p s0 Hm. cbn [scan_digits16].
    pose proof (Z.mod_pos_bound m 16 ltac:(lia)) as Hmod.
    pose proof (hexval_hexdigit _ Hmod) as Hhv. rewrite Hhv.
    destruct (hexval_range _ _ Hhv) as [_ Hc].
    replace (is_underscore (hexdigit (m mod 16))) with false
      by (symmetry; unfold is_underscore; apply Z.eqb_neq; lia).
    f_equal. pose proof (Z.div_mod m 16 ltac:(lia)). lia. }
  induction fuel as [|k IH]; intros n acc prev seen Hn.
  - change (16 ^ Z.of_nat 1) with 16 in Hn. cbn [hex_digits].
    replace (n <? 16) with true by (symmetry; apply Z.ltb_lt; lia).
    rewrite <- (Hstep n acc prev seen) by lia.
    rewrite (Z.div_small n 16) by lia. reflexivity.
  - remember (S k) as fuel eqn:Hfuel.
    cbn [hex_digits].
    destruct (Z.ltb_spec n 16) as [Hlt|Hge].
    + rewrite <- (Hstep n acc prev seen) by lia.
      rewrite (Z.div_small n 16) by lia. reflexivity.
    + subst fuel. rewrite IH.
      * apply Hstep. lia.
      * rewrite (Nat2Z.inj_succ (S k)), Z.pow_succ_r in Hn by lia.
        split; [apply Z.div_pos; lia|]. apply Z.div_lt_upper_bound; lia.
Qed.

Lemma scan_zeros k : ∀ s seen,
  scan_digits16 (zeros k +:+ s) false seen 0
  = scan_digits16 s false (match k with O => seen | S _ => true end) 0.
Proof.
  induction k as [|k IH]; intros s seen; [reflexivity|].
  change (zeros (S k) +:+ s) with (String "0"%char (zeros k +:+ s)).
  cbn [scan_digits16]. change (is_underscore "0") with false.
  change (hexval "0") with (Some 0). cbv iota. change (16 * 0 + 0) with 0.
  rewrite IH. destruct k; reflexivity.
Qed.

Lemma log2_fuel n : 0 <= n → n < 16 ^ Z.of_nat (S (Z.to_nat (Z.log2 n))).
Proof.
  intros Hn. destruct (Z.eq_dec n 0) as [->|Hne]; [reflexivity|].
  pose proof (Z.log2_nonneg n). pose proof (Z.log2_spec n ltac:(lia)) as [_ Hhi].
  rewrite Nat2Z.inj_succ, Z2Nat.id by lia.
  eapply Z.lt_le_trans; [exact Hhi|].
  apply Z.pow_le_mono_l. lia.
Qed.

Lemma scan_format width n :
  0 <= n → scan_digits16 (format_0x width n) false false 0 = Some (n, true, EmptyString).
Proof.
  intros Hn. unfold format_0x.
  replace (n <? 0) with false by (symmetry; apply Z.ltb_ge; lia).
  rewrite scan_zeros. unfold hex_of_nonneg.
  rewrite scan_hex_digits by (split; [lia|apply log2_fuel; lia]).
  reflexivity.
Qed.

Lemma all_hex_hex_digits fuel : ∀ n acc,
  0 <= n → all_hex acc = true → all_hex (hex_digits fuel n acc) = true.
Proof.
  induction fuel as [|k IH]; intros n acc Hn Hacc; [assumption|].
  cbn [hex_digits].
  assert (Hacc' : all_hex (String (hexdigit (n mod 16)) acc) = true).
  { cbn [all_hex]. rewrite hexval_hexdigit by (apply Z.mod_pos_bound; lia). assumption. }
  destruct (n <? 16); [assumption|]. apply IH; [apply Z.div_pos; lia|assumption].
Qed.

Lemma hex_digits_not_empty fuel n acc :
  hex_digits (S fuel) n acc ≠ EmptyString.
Proof.
  revert n acc. induction fuel as [|k IH]; intros n acc; cbn [hex_digits].
  - destruct (n <? 16); discriminate.
  - destruct (n <? 16); [discriminate|]. apply IH.
Qed.

Lemma all_hex_zeros_app k s : all_hex s = true → all_hex (zeros k +:+ s) = true.
Proof. induction k as [|k IH]; intros H; [assumption|]. cbn. apply IH, H. Qed.

(** On a non-empty string of hexadecimal digits, [int] does no
    stripping: the digit loop reads it from the first character. *)
Lemma int16_all_hex s :
  all_hex s = true → s ≠ EmptyString →
  int16 s =
  match scan_digits16 s false false 0 with
  | Some (v, true, rest) => if all_space rest then Ok v else Raise ValueError
  | _ => Raise ValueError
  end.
Proof.
  intros Hhex Hne. destruct s as [|c0 r]; [contradiction|].
  cbn [all_hex] in Hhex. destruct (hexval c0) as [d0|] eqn:H0; [|discriminate].
  destruct (hexval_range _ _ H0) as [_ Hc0].
  unfold int16. cbn [lstrip]. rewrite (hexval_not_space _ _ H0).
  replace (code c0 =? 43) with false by (symmetry; apply Z.eqb_neq; lia).
  replace (code c0 =? 45) with false by (symmetry; apply Z.eqb_neq; lia).
  assert (Hpre : strip_prefix16 (String c0 r) = String c0 r).
  { unfold strip_prefix16. destruct r as [|c1 r']; [reflexivity|].
    cbn [all_hex] in Hhex. destruct (hexval c1) as [d1|] eqn:H1; [|discriminate].
    destruct (hexval_range _ _ H1) as [_ Hc1].
    replace ((code c1 =? 120) || (code c1 =? 88)) with false
      by (symmetry; apply orb_false_iff; split; apply Z.eqb_neq; lia).
    rewrite andb_false_r. reflexivity. }
  rewrite Hpre. cbn [starts_with_underscore].
  replace (is_underscore c0) with false
    by (symmetry; unfold is_underscore; apply Z.eqb_neq; lia).
  reflexivity.
Qed.

(** [int(format(n, '0Wx'), 16) == n] for every [n >= 0] and width. *)
Lemma int16_format width n : 0 <= n → int16 (format_0x width n) = Ok n.
Proof.
  intros Hn. rewrite int16_all_hex.
  - rewrite scan_format by assumption. reflexivity.
  - unfold format_0x. replace (n <? 0) with false by (symmetry; apply Z.ltb_ge; lia).
    apply all_hex_zeros_app. apply all_hex_hex_digits; [assumption|reflexivity].
  - unfold format_0x. replace (n <? 0) with false by (symmetry; apply Z.ltb_ge; lia).
    destruct (zeros _) as [|z zs]; [|discriminate].
    apply hex_digits_not_empty.
Qed.

End CodecProps.

(** ** The share validator *)

Module ShareProps.
Import Py Pool Predicates.


Lemma jobs_record_share st now w a bf : jobs (record_share st now w a bf) = jobs st.
Proof. unfold record_share. destruct bf; reflexivity. Qed.

Lemma submitted_record_share st now w a bf :
  submitted_shares (record_share st now w a bf) = submitted_shares st.
Proof. unfold record_share. destruct bf; reflexivity. Qed.

Lemma validate_share_shape st now sub :
  call_shape st now sub (validate_share st now sub).1 (validate_share st now sub).2.
Proof.
  unfold validate_share.
  destruct (int16 (sub_job_id sub)) as [n|e] eqn:Hid; simpl.
  2:{ apply stops_early; [|auto]. intros (n & job & jn & sn & H & _). congruence. }
  destruct (find_job (jobs st) n) as [job|] eqn:Hjob; simpl.
  2:{ apply stops_early; [|auto]. intros (n' & job & jn & sn & H & H' & _). congruence. }
  destruct (job_ntime job) as [jn|e] eqn:Hjn; simpl.
  2:{ apply stops_early; [|eauto 6].
      intros (n' & job' & jn & sn & H & H' & H'' & _). congruence. }
  destruct (int16 (sub_ntime sub)) as [sn|e] eqn:Hsn; simpl.
  2:{ apply stops_early; [|eauto 6].
      intros (n' & job' & jn' & sn & H & H' & H'' & H3 & _). congruence. }
  destruct (Z.abs (jn - sn) >? 600) eqn:Hwin; simpl.
  { apply stops_early; [|auto].
    intros (n' & job' & jn' & sn' & H & H' & H'' & H3 & H4).
    assert (n' = n) by congruence; subst n'.
    assert (job' = job) by congruence; subst job'.
    assert (jn' = jn) by congruence. assert (sn' = sn) by congruence. lia. }
  assert (Hreach : reaches_duplicate_check st sub).
  { exists n, job, jn, sn. repeat split; try assumption. lia. }
  case_bool_decide as Hdup; simpl.
  { apply is_duplicate; assumption. }
  assert (Hnone : submitted_shares st !! share_key sub = None).
  { destruct (submitted_shares st !! share_key sub) eqn:E; [|reflexivity].
    exfalso. apply Hdup. eauto. }
  destruct (check_share job sub) as [[[hh sv] bf]|e] eqn:Hchk; simpl.
  2:{ apply goes_on; try assumption; try reflexivity. eauto. }
  destruct sv; simpl.
  - apply goes_on; try assumption.
    + destruct bf; unfold submit_block; rewrite jobs_record_share; reflexivity.
    + destruct bf; unfold submit_block; rewrite submitted_record_share; reflexivity.
    + eauto 6.
  - apply goes_on; try assumption; try reflexivity. auto.
Qed.









(** *** The header that is hashed *)

Lemma round_length st kw : length st = 8%nat → length (Sha256.round st kw) = 8%nat.
Proof.
  intros H. do 9 (destruct st as [|? st]; try discriminate). reflexivity.
Qed.

Lemma fold_round_length l : ∀ st,
  length st = 8%nat → length (fold_left Sha256.round l st) = 8%nat.
Proof.
  induction l as [|kw l IH]; intros st H; simpl; [assumption|].
  apply IH, round_length, H.
Qed.

Lemma zip_add_length x : ∀ y, length x = length y → length (Sha256.zip_add x y) = length x.
Proof.
  induction x as [|a x IH]; intros [|b y] H; simpl in *; try discriminate; [reflexivity|].
  rewrite IH by lia. reflexivity.
Qed.

Lemma blocks_length fuel : ∀ st ws,
  length st = 8%nat → length (Sha256.blocks fuel st ws) = 8%nat.
Proof.
  induction fuel as [|k IH]; intros st ws H; simpl; [assumption|].
  destruct ws; [assumption|]. apply IH. unfold Sha256.compress.
  rewrite zip_add_length; [assumption|]. by rewrite fold_round_length.
Qed.

(** A digest has 32 octets. *)
Lemma sha256_length msg : length (Sha256.sha256 msg) = 32%nat.
Proof.
  unfold Sha256.sha256.
  pose proof (blocks_length (length (Sha256.words (Sha256.pad msg))) Sha256.H0
                (Sha256.words (Sha256.pad msg)) eq_refl) as H.
  destruct (Sha256.blocks _ _ _) as [|w0 st]; [discriminate|].
  do 8 (destruct st as [|? st]; try discriminate). reflexivity.
Qed.

Lemma flip_bytes_length_le n : ∀ l : bytes,
  (length l <= n)%nat → length (flip_bytes l) = length l.
Proof.
  induction n as [|n IH]; intros l Hl.
  - destruct l; [reflexivity|simpl in Hl; lia].
  - destruct l as [|a [|b [|c [|d r]]]]; try reflexivity.
    simpl in Hl. cbn [flip_bytes length]. rewrite IH by lia. reflexivity.
Qed.

Lemma flip_bytes_length (l : bytes) : length (flip_bytes l) = length l.
Proof. apply (flip_bytes_length_le (length l)). lia. Qed.

Lemma merkle_root_length branches : ∀ root r,
  length root = 32%nat → merkle_root_from root branches = Ok r → length r = 32%nat.
Proof.
  induction branches as [|b bs IH]; intros root r Hroot; simpl.
  - intros [= <-]. assumption.
  - destruct (fromhex b); [|discriminate]. simpl. apply IH. apply sha256_length.
Qed.

Lemma to_bytes_be_length n v b : to_bytes_be n v = Ok b → length b = n.
Proof.
  unfold to_bytes_be. destruct (_ && _); [|discriminate].
  intros [= <-]. rewrite length_rev. clear. revert v.
  induction n as [|n IH]; intros v; simpl; [reflexivity|]. by rewrite IH.
Qed.

Lemma pad4_length b : (length b <= 4)%nat → length (pad4 b) = 4%nat.
Proof.
  intros H. unfold pad4, ljust0.
  destruct (Nat.eqb_spec (length b) 4) as [E|E]; simpl; [assumption|].
  rewrite length_app, repeat_length. lia.
Qed.

(** With a previous-block hash of 32 octets and submitted fields of at
    most 4 octets each, the header that is flipped and hashed has 80
    octets. *)
Lemma header_is_80_octets job sub hdr p t b n :
  block_header_be job sub = Ok hdr →
  fromhex (prevhash job) = Ok p → length p = 32%nat →
  fromhex (sub_ntime sub) = Ok t → (length t <= 4)%nat →
  fromhex (nbits job) = Ok b → (length b <= 4)%nat →
  fromhex (nonce sub) = Ok n → (length n <= 4)%nat →
  length hdr = 80%nat ∧ length (flip_bytes hdr) = 80%nat.
Proof.
  intros Hhdr Hp Hpl Ht Htl Hb Hbl Hn Hnl.
  unfold block_header_be in Hhdr. rewrite Hp, Ht, Hb, Hn in Hhdr.
  destruct (fromhex (coinbase1 job +:+ _)) as [cb|]; [|discriminate].
  cbn [mbind result_bind bind] in Hhdr.
  destruct (merkle_root_from _ _) as [root|] eqn:Hroot; [|discriminate].
  apply merkle_root_length in Hroot; [|apply sha256_length].
  cbn [mbind result_bind bind] in Hhdr.
  match type of Hhdr with
  | mbind _ ?r = _ => set (vr := r) in Hhdr;
    assert (Hvr : ∀ vb, vr = Ok vb → length vb = 4%nat)
  end.
  { intros vb Hvb. unfold vr in Hvb.
    destruct (sub_version sub) as [v|]; [|exact (to_bytes_be_length _ _ _ Hvb)].
    destruct (negb (String.eqb v "")); [|exact (to_bytes_be_length _ _ _ Hvb)].
    destruct (int16 v) as [cv|]; [|discriminate].
    exact (to_bytes_be_length _ _ _ Hvb). }
  destruct vr as [vb|]; [|discriminate].
  specialize (Hvr vb eq_refl).
  cbn [mbind result_bind bind mret result_ret] in Hhdr.
  injection Hhdr as <-.
  rewrite flip_bytes_length, !length_app, flip_bytes_length, Hroot, Hpl.
  rewrite !pad4_length by lia. split; reflexivity.
Qed.

(** *** The network target *)

(** For an exponent of at least 3, the usual case, [bits_to_target] is
    the integer [mantissa * 2^(8 * (exponent - 3))], and the comparison
    with it is the comparison of integers. *)
Lemma bits_to_target_int bits_hex bits :
  int16 bits_hex = Ok bits →
  3 <= Z.land (Z.shiftr bits 24) 0xff →
  bits_to_target bits_hex
  = Ok (PInt (Z.land bits 0x00ffffff * 2 ^ (8 * (Z.land (Z.shiftr bits 24) 0xff - 3)))).
Proof.
  intros Hbits Hexp. unfold bits_to_target, mul_pow2. rewrite Hbits.
  replace (0 <=? 8 * (Z.land (Z.shiftr bits 24) 255 - 3)) with true
    by (symmetry; apply Z.leb_le; lia).
  reflexivity.
Qed.

Lemma int_le_int h t : int_le h (PInt t) = Ok true ↔ h <= t.
Proof. simpl. split; [intros [= H]; apply Z.leb_le, H|intros H; f_equal; apply Z.leb_le, H]. Qed.









End ShareProps.

(** ** The coinbase number encoding *)

Module SerNumberProps.
Import Py Pool Reference.

Lemma le_octets_length n v : length (le_octets n v) = n.
Proof. revert v. induction n as [|n IH]; intros v; simpl; [reflexivity|]. by rewrite IH. Qed.

(** Up to 65535 the code does what the specification says. *)
Lemma ser_number_small n :
  0 <= n <= 0xffff → ser_number n = Ok (ser_number_spec n).
Proof.
  intros Hn. unfold ser_number, ser_number_spec.
  destruct (Z.ltb_spec n 1) as [H0|H0].
  { assert (n = 0) by lia. subst n. reflexivity. }
  replace (n =? 0) with false by (symmetry; apply Z.eqb_neq; lia).
  unfold minimal_octets.
  destruct (Z.leb_spec n 0xff) as [H1|H1].
  - assert (Z.log2 n < 8) by (apply Z.log2_lt_pow2; lia).
    assert (0 <= Z.log2 n) by apply Z.log2_nonneg.
    replace (Z.log2 n / 8) with 0 by (symmetry; apply Z.div_small; lia).
    unfold bytes_of_ints. simpl forallb.
    replace ((0 <=? n) && (n <? 256)) with true
      by (symmetry; apply andb_true_iff; split; [apply Z.leb_le|apply Z.ltb_lt]; lia).
    simpl. rewrite Z.mod_small by lia. reflexivity.
  - destruct (Z.leb_spec n 0xffff) as [H2|H2]; [|lia].
    assert (8 <= Z.log2 n) by (apply Z.log2_le_pow2; lia).
    assert (Z.log2 n < 16) by (apply Z.log2_lt_pow2; lia).
    replace (Z.log2 n / 8) with 1
      by (apply (Z.div_unique _ _ _ (Z.log2 n - 8)); lia).
    unfold struct_pack_le.
    replace ((0 <=? n) && (n <? 2 ^ (8 * Z.of_nat 2))) with true
      by (symmetry; apply andb_true_iff; split; [apply Z.leb_le|apply Z.ltb_lt]; lia).
    reflexivity.
Qed.

(** C6: beyond 65535 the octets that follow the prefix are not as many
    as the prefix says: the prefix is 3 before four octets up to
    [2^32 - 1], and 4 before eight octets up to [2^64 - 1]; at 65536 the
    code gives [03 00 00 01 00] where the minimal form is
    [03 00 00 01]. *)
Theorem ser_number_prefix_and_payload n :
  0x10000 <= n <= 0xffffffffffffffff →
  ∃ prefix payload,
    ser_number n = Ok (prefix :: payload)
    ∧ (n <= 0xffffffff → prefix = 3 ∧ payload = le_octets 4 n)
    ∧ (0xffffffff < n → prefix = 4 ∧ payload = le_octets 8 n)
    ∧ Z.of_nat (length payload) ≠ prefix.
Proof.
  intros Hn. unfold ser_number.
  replace (n <? 1) with false by (symmetry; apply Z.ltb_ge; lia).
  replace (n <=? 255) with false by (symmetry; apply Z.leb_gt; lia).
  replace (n <=? 65535) with false by (symmetry; apply Z.leb_gt; lia).
  unfold struct_pack_le.
  destruct (Z.leb_spec n 0xffffffff) as [H|H].
  - replace ((0 <=? n) && (n <? 2 ^ (8 * Z.of_nat 4))) with true
      by (symmetry; apply andb_true_iff; split; [apply Z.leb_le|apply Z.ltb_lt]; lia).
    exists 3, (le_octets 4 n). repeat split; try lia. rewrite le_octets_length. lia.
  - replace (n <=? 18446744073709551615) with true by (symmetry; apply Z.leb_le; lia).
    replace ((0 <=? n) && (n <? 2 ^ (8 * Z.of_nat 8))) with true
      by (symmetry; apply andb_true_iff; split; [apply Z.leb_le|apply Z.ltb_lt]; lia).
    exists 4, (le_octets 8 n). repeat split; try lia. rewrite le_octets_length. lia.
Qed.

Lemma ser_number_prefix_and_payload_witness :
  ∃ prefix payload,
    ser_number 0x10000 = Ok (prefix :: payload)
    ∧ (0x10000 <= 0xffffffff → prefix = 3 ∧ payload = le_octets 4 0x10000)
    ∧ (0xffffffff < 0x10000 → prefix = 4 ∧ payload = le_octets 8 0x10000)
    ∧ Z.of_nat (length payload) ≠ prefix.
Proof. apply (ser_number_prefix_and_payload 0x10000). lia. Defined.

(** The failing input itself, and the block height of the sample. *)
Example ser_number_65536 :
  ser_number 65536 = Ok [3; 0; 0; 1; 0] ∧ ser_number_spec 65536 = [3; 0; 0; 1]
  ∧ ser_number 2500000 = Ok [3; 0xa0; 0x25; 0x26; 0]
  ∧ ser_number_spec 2500000 = [3; 0xa0; 0x25; 0x26]
  ∧ ser_number 1700000000 = Ok [3; 0x00; 0xf1; 0x53; 0x65]
  ∧ ser_number_spec 1700000000 = [4; 0x00; 0xf1; 0x53; 0x65].
Proof. vm_compute. repeat split; reflexivity. Qed.

End SerNumberProps.

(** ** The Merkle branch *)

Module MerkleProps.
Import Py Pool Reference Predicates.

Lemma next_level_length_le n : ∀ l : list bytes,
  (length l <= n)%nat → length (next_level l) = (S (length l) / 2)%nat.
Proof.
  induction n as [|n IH]; intros l Hl.
  - destruct l; [reflexivity|simpl in Hl; lia].
  - destruct l as [|a [|b r]]; [reflexivity|reflexivity|].
    simpl in Hl. cbn [next_level length]. rewrite IH by lia.
    change (S (S (S (length r)))) with (1 * 2 + S (length r))%nat.
    rewrite Nat.div_add_l by lia. lia.
Qed.

Lemma next_level_length (l : list bytes) :
  length (next_level l) = (S (length l) / 2)%nat.
Proof. apply (next_level_length_le (length l)). lia. Qed.

(** [ceil(log2 n)] of a length and of its rounded-up half. *)
Lemma log2_up_half n :
  (2 <= n)%nat → Nat.log2_up n = S (Nat.log2_up (S n / 2)).
Proof.
  intros Hn.
  assert (Hk : ∃ k, (S n / 2 = k ∧ 1 <= k ∧ (n = 2 * k ∨ n = 2 * k - 1))%nat).
  { exists (S n / 2)%nat. pose proof (Nat.div_mod_eq (S n) 2).
    pose proof (Nat.mod_upper_bound (S n) 2). lia. }
  destruct Hk as (k & -> & Hk1 & Hk).
  destruct Hk as [->| ->].
  - apply Nat.log2_up_double. lia.
  - assert (Hk2 : (2 <= k)%nat) by lia.
    apply Nat.log2_up_unique; [lia|]. simpl Nat.pred.
    pose proof (Nat.log2_up_spec k ltac:(lia)) as [Hlo Hhi].
    assert (Hpos : (0 < Nat.log2_up k)%nat) by (apply Nat.log2_up_pos; lia).
    destruct (Nat.log2_up k) as [|a] eqn:Ea; [lia|].
    simpl Nat.pred in Hlo. rewrite !Nat.pow_succ_r'. rewrite Nat.pow_succ_r' in Hhi.
    remember (2 ^ a)%nat as p. lia.
Qed.

(** The loop of [calculate_merkle_branches], started at index 0 with
    enough fuel, adds one branch per halving of the level. *)
Lemma merkle_loop_length fuel : ∀ (level : list bytes) (bs : list string),
  (length level <= fuel)%nat →
  length (merkle_loop fuel level 0 bs) = (length bs + Nat.log2_up (length level))%nat.
Proof.
  induction fuel as [|k IH]; intros level bs Hfuel.
  - destruct level; [|simpl in Hfuel; lia].
    change (length bs = (length bs + 0)%nat). lia.
  - cbn [merkle_loop].
    destruct (Nat.ltb_spec 1 (length level)) as [Hlen|Hlen].
    2:{ destruct level as [|a [|b r]]; [| |simpl in Hlen; lia];
        change (length bs = (length bs + 0)%nat); lia. }
    set (level' := if Nat.even (length level) then level
                   else level ++ [List.last level []]).
    assert (Hlen' : length level' = (2 * (S (length level) / 2))%nat).
    { unfold level'. destruct (Nat.even (length level)) eqn:Ev.
      - apply Nat.even_spec in Ev. destruct Ev as [m Hm].
        half_facts (S (length level)). lia.
      - assert (Hodd : Nat.odd (length level) = true)
          by (rewrite <- Nat.negb_even, Ev; reflexivity).
        apply Nat.odd_spec in Hodd. destruct Hodd as [m Hm].
        rewrite length_app. cbn [length].
        half_facts (S (length level)). lia. }
    assert (Hhalf : (2 <= length level')%nat)
      by (half_facts (S (length level)); lia).
    replace (Nat.even 0 && (0 + 1 <? length level')%nat) with true
      by (symmetry; apply andb_true_iff; split; [reflexivity|apply Nat.ltb_lt; lia]).
    change (0 / 2)%nat with 0%nat.
    assert (Hnext : length (next_level level') = (S (length level) / 2)%nat).
    { rewrite next_level_length, Hlen'.
      half_facts (S (2 * (S (length level) / 2))). lia. }
    rewrite IH by (half_facts (S (length level)); lia).
    rewrite length_app, Hnext. cbn [length].
    rewrite (log2_up_half (length level)) by lia. lia.
Qed.

Lemma tx_hashes_length txs : ∀ level, tx_hashes txs = Ok level → length level = length txs.
Proof.
  induction txs as [|tx r IH]; intros level; simpl.
  - intros [= <-]. reflexivity.
  - destruct (fromhex (txid tx)); [|discriminate]. simpl.
    destruct (tx_hashes r) as [rest|]; [|discriminate]. simpl.
    intros [= <-]. simpl. rewrite (IH rest); reflexivity.
Qed.

(** The reference branch, over the coinbase and the transactions, has
    the length the specification states. *)
Lemma branch_spec_length fuel : ∀ level : list bytes,
  (length level <= fuel)%nat →
  length (branch_spec fuel level) = Nat.log2_up (length level).
Proof.
  induction fuel as [|k IH]; intros level Hfuel.
  - destruct level; [reflexivity|simpl in Hfuel; lia].
  - destruct level as [|a [|b r]]; [reflexivity|reflexivity|].
    cbn [branch_spec].
    set (level := a :: b :: r) in *.
    assert (Hlen : (2 <= length level)%nat) by (unfold level; simpl; lia).
    set (level' := if Nat.even (length level) then level
                   else level ++ [List.last level []]).
    assert (Hlen' : length level' = (2 * (S (length level) / 2))%nat).
    { unfold level'. destruct (Nat.even (length level)) eqn:Ev.
      - apply Nat.even_spec in Ev. destruct Ev as [m Hm].
        half_facts (S (length level)). lia.
      - assert (Hodd : Nat.odd (length level) = true)
          by (rewrite <- Nat.negb_even, Ev; reflexivity).
        apply Nat.odd_spec in Hodd. destruct Hodd as [m Hm].
        rewrite length_app. cbn [length].
        half_facts (S (length level)). lia. }
    assert (Hnext : length (next_level level') = (S (length level) / 2)%nat).
    { rewrite next_level_length, Hlen'.
      half_facts (S (2 * (S (length level) / 2))). lia. }
    cbn [length]. rewrite IH by (half_facts (S (length level)); lia).
    rewrite Hnext, (log2_up_half (length level)) by lia. reflexivity.
Qed.

Lemma merkle_branch_spec_length (cb : bytes) (hashes : list bytes) :
  length (merkle_branch_spec cb hashes) = Nat.log2_up (length hashes + 1).
Proof.
  unfold merkle_branch_spec. rewrite branch_spec_length by (simpl; lia).
  simpl length. f_equal. lia.
Qed.

(** C3: for a template whose [N >= 1] transaction ids are hexadecimal,
    [calculate_merkle_branches] returns [ceil(log2 N)] branches: the
    level it starts from holds the transactions only, the coinbase is
    not among the leaves.  (The specification asks for
    [ceil(log2 (N + 1))], one more whenever [N] is a power of two.) *)
Theorem merkle_branch_count txs level :
  txs ≠ [] →
  tx_hashes txs = Ok level →
  ∃ branches,
    calculate_merkle_branches txs = Ok branches
    ∧ length branches = Nat.log2_up (length txs).
Proof.
  intros Hne Hlevel. unfold calculate_merkle_branches.
  destruct txs as [|tx r]; [contradiction|].
  rewrite Hlevel. cbn [mbind result_bind bind mret result_ret].
  eexists. split; [reflexivity|].
  rewrite merkle_loop_length by lia. simpl length at 1.
  rewrite (tx_hashes_length _ _ Hlevel). reflexivity.
Qed.

Lemma merkle_branch_count_witness :
  ∃ branches,
    calculate_merkle_branches
      [mkTx "0101010101010101010101010101010101010101010101010101010101010101" ""]
    = Ok branches
    ∧ length branches = Nat.log2_up 1.
Proof.
  apply (merkle_branch_count
           [mkTx "0101010101010101010101010101010101010101010101010101010101010101" ""]
           [repeat 1 32]).
  - discriminate.
  - vm_compute. reflexivity.
Defined.

(** The failing inputs: with one transaction the code returns no branch
    at all, with two it returns one; the branch of the coinbase in the
    tree over the coinbase and the transactions has one and two. *)
Example merkle_branch_one_and_two_txs :
  let t1 := mkTx "0101010101010101010101010101010101010101010101010101010101010101" "" in
  let t2 := mkTx "0202020202020202020202020202020202020202020202020202020202020202" "" in
  calculate_merkle_branches [t1] = Ok []
  ∧ length (merkle_branch_spec [] [repeat 1 32]) = 1%nat
  ∧ Nat.log2_up (1 + 1) = 1%nat
  ∧ calculate_merkle_branches [t1; t2]
    = Ok ["0202020202020202020202020202020202020202020202020202020202020202"]
  ∧ length (merkle_branch_spec [] [repeat 1 32; repeat 2 32]) = 2%nat
  ∧ Nat.log2_up (2 + 1) = 2%nat.
Proof. vm_compute. repeat split; reflexivity. Qed.

End MerkleProps.

(** ** The Stratum server *)

Module StratumProps.
Import Py Stratum Reference Predicates.

(** C10: a [mining.authorize] whose [params] is the empty list, or whose
    worker name is the empty string, gets no frame at all:
    [validate_worker] says no, the handler returns [None] having written
    nothing and changed nothing, and the message loop sends nothing. *)
Theorem authorize_without_worker_is_silent srv env client_id message :
  dict_get message "method" PNone = PStr "mining.authorize" →
  (dict_get message "params" (PList []) = PList []
   ∨ ∃ rest, dict_get message "params" (PList []) = PList (PStr "" :: rest)) →
  (∀ p now, validate_worker p now PNone client_id = (p, false)
            ∧ validate_worker p now (PStr "") client_id = (p, false))
  ∧ (∀ srv0 client, clients srv0 !! client_id = Some client →
       process_message srv0 env client_id message = Some (returns srv0 [] None))
  ∧ ∃ srv', process_line srv env client_id (JsonObject message) = Some (srv', []).
Proof.
  intros Hmethod Hparams.
  assert (Hpm : ∀ srv0 client, clients srv0 !! client_id = Some client →
       process_message srv0 env client_id message = Some (returns srv0 [] None)).
  { intros srv0 client Hc. unfold process_message. rewrite Hc, Hmethod.
    cbn [is_str]. change (String.eqb "mining.authorize" "mining.subscribe") with false.
    change (String.eqb "mining.authorize" "mining.authorize") with true. cbv iota.
    unfold on_authorize.
    destruct Hparams as [-> | [rest ->]].
    - cbn. destruct srv0; reflexivity.
    - cbn. destruct rest as [|x rest']; cbn; destruct srv0; reflexivity. }
  split; [split; reflexivity|]. split; [exact Hpm|].
  unfold process_line.
  destruct (clients srv !! client_id) as [c|] eqn:Hc; [|eauto].
  destruct (assoc "id" message) as [mid|]; [|eauto].
  erewrite Hpm.
  - cbn. eauto.
  - unfold set_client. cbn. apply lookup_insert_eq.
Qed.

Lemma authorize_without_worker_is_silent_witness :
  (∃ srv', process_line SampleServer.fresh_server SampleServer.env1 "bf3796c2"
             (JsonObject SampleServer.authorize_empty_params) = Some (srv', []))
  ∧ (∃ srv', process_line SampleServer.fresh_server SampleServer.env1 "bf3796c2"
               (JsonObject SampleServer.authorize_empty_name) = Some (srv', [])).
Proof.
  split.
  - apply (authorize_without_worker_is_silent SampleServer.fresh_server SampleServer.env1
             "bf3796c2" SampleServer.authorize_empty_params); [reflexivity|].
    left. reflexivity.
  - apply (authorize_without_worker_is_silent SampleServer.fresh_server SampleServer.env1
             "bf3796c2" SampleServer.authorize_empty_name); [reflexivity|].
    right. exists [PStr "x"]. reflexivity.
Defined.

(** *** Subscription *)

(** [2k] hexadecimal digits decode to [k] octets. *)
Lemma fromhex_all_hex k : ∀ s,
  String.length s = (2 * k)%nat → all_hex s = true →
  ∃ b, fromhex s = Ok b ∧ length b = k.
Proof.
  induction k as [|k IH]; intros s Hlen Hhex.
  - destruct s; [|discriminate]. exists []. split; reflexivity.
  - destruct s as [|c1 s]; [simpl in Hlen; lia|].
    destruct s as [|c2 r]; [simpl in Hlen; lia|].
    cbn [all_hex] in Hhex.
    destruct (hexval c1) as [hi|] eqn:H1; [|discriminate].
    destruct (hexval c2) as [lo|] eqn:H2; [|discriminate].
    destruct (IH r) as (b & Hb & Hk); [simpl in Hlen; lia|assumption|].
    exists (hi * 16 + lo :: b). cbn [fromhex].
    rewrite (CodecProps.hexval_not_space _ _ H1), H1, H2, Hb. split; [reflexivity|].
    simpl. by rewrite Hk.
Qed.

Lemma all_hex_app s1 s2 : all_hex s1 = true → all_hex s2 = true → all_hex (s1 +:+ s2) = true.
Proof.
  induction s1 as [|c r IH]; intros H1 H2; [exact H2|].
  change (String c r +:+ s2) with (String c (r +:+ s2)).
  cbn [all_hex] in *. destruct (hexval c); [auto|discriminate].
Qed.

Lemma string_length_app s1 s2 :
  String.length (s1 +:+ s2) = (String.length s1 + String.length s2)%nat.
Proof. induction s1 as [|c r IH]; simpl; [reflexivity|]. by rewrite IH. Qed.

Lemma prefix_all n : ∀ s, (String.length s <= n)%nat → prefix n s = s.
Proof.
  induction n as [|n IH]; intros s Hs.
  - destruct s; [reflexivity|simpl in Hs; lia].
  - destruct s as [|c r]; [reflexivity|]. simpl in *. rewrite IH by lia. reflexivity.
Qed.

(** C2: the reply to [mining.subscribe] carries, for a client id of
    eight hexadecimal digits (the first group of a UUID), the id followed
    by ["00"] as [extranonce1]: ten digits, five octets, which with
    [extranonce2_size = 4] makes nine and not the eight that
    [create_coinbase_tx] announces.  The value is stored in the session
    and depends on the client id alone, so a repeated subscription
    returns it again. *)
Theorem subscribe_extranonce1 srv env client_id client message :
  clients srv !! client_id = Some client →
  dict_get message "method" PNone = PStr "mining.subscribe" →
  String.length client_id = 8%nat →
  all_hex client_id = true →
  ∃ srv' details octets client',
    process_message srv env client_id message
    = Some (returns srv' []
              (Some (response (dict_get message "id" PNone)
                       (PList [details; PStr (client_id +:+ "00"); PInt 4]) PNone)))
    ∧ clients srv' !! client_id = Some client'
    ∧ c_extranonce1 client' = Some (client_id +:+ "00")
    ∧ extranonce2_size client' = Some 4
    ∧ fromhex (client_id +:+ "00") = Ok octets
    ∧ Z.of_nat (length octets) = 5
    ∧ Z.of_nat (length octets) + 4 ≠ Pool.enonce1varlen + Pool.enonce2varlen.
Proof.
  intros Hc Hmethod Hlen Hhex.
  destruct (fromhex_all_hex 5 (client_id +:+ "00")) as (octets & Hoct & Hol).
  { rewrite string_length_app, Hlen. reflexivity. }
  { apply all_hex_app; [assumption|reflexivity]. }
  unfold process_message. rewrite Hc, Hmethod.
  cbn [is_str]. change (String.eqb "mining.subscribe" "mining.subscribe") with true.
  cbv iota. unfold on_subscribe. rewrite (prefix_all 8 client_id) by lia.
  eexists _, _, octets, _. split; [reflexivity|].
  split; [apply lookup_insert_eq|].
  cbn. repeat split; try assumption; rewrite ?Hol; unfold Pool.enonce1varlen, Pool.enonce2varlen; lia.
Qed.

Lemma subscribe_extranonce1_witness :
  ∃ srv' details octets client',
    process_message SampleServer.fresh_server SampleServer.env1 "bf3796c2"
      SampleServer.subscribe_request
    = Some (returns srv' []
              (Some (response (PInt 1)
                       (PList [details; PStr "bf3796c200"; PInt 4]) PNone)))
    ∧ clients srv' !! "bf3796c2" = Some client'
    ∧ c_extranonce1 client' = Some "bf3796c200"
    ∧ extranonce2_size client' = Some 4
    ∧ fromhex "bf3796c200" = Ok octets
    ∧ Z.of_nat (length octets) = 5
    ∧ Z.of_nat (length octets) + 4 ≠ Pool.enonce1varlen + Pool.enonce2varlen.
Proof.
  apply (subscribe_extranonce1 SampleServer.fresh_server SampleServer.env1 "bf3796c2"
           (new_client 1700000000) SampleServer.subscribe_request).
  - vm_compute. reflexivity.
  - reflexivity.
  - reflexivity.
  - reflexivity.
Defined.

(** *** The assigned [extranonce1] stays *)

Lemma assigned_set_pool srv p id :
  extranonce1_assigned srv id → extranonce1_assigned (set_pool srv p) id.
Proof. intros H. exact H. Qed.

Lemma assigned_set_client srv cid c c' id :
  clients srv !! cid = Some c →
  (c_extranonce1 c' = c_extranonce1 c
   ∨ c_extranonce1 c' = Some (prefix 8 cid +:+ "00")) →
  extranonce1_assigned srv id → extranonce1_assigned (set_client srv cid c') id.
Proof.
  intros Hc Hc' (c0 & Hc0 & He). unfold extranonce1_assigned, set_client. cbn [clients].
  destruct (decide (cid = id)) as [->|Hne].
  - exists c'. rewrite lookup_insert_eq. split; [reflexivity|].
    destruct Hc' as [Hc'|Hc']; [|exact Hc']. rewrite Hc'.
    assert (c = c0) by congruence. subst c0. exact He.
  - exists c0. rewrite lookup_insert_ne by assumption. split; assumption.
Qed.

Lemma on_authorize_keeps srv env cid c message_id params id :
  clients srv !! cid = Some c →
  extranonce1_assigned srv id →
  extranonce1_assigned (out_server (on_authorize srv env cid c message_id params)) id.
Proof.
  intros Hc H. unfold on_authorize.
  destruct (mbind _ _) as [worker_name|e]; [|exact H].
  destruct (validate_worker _ _ _ _) as [p1 ok]. destruct ok; [|exact H].
  destruct (Pool.get_current_job _ _ _ _ _ _) as [p2 job].
  assert (H2 : extranonce1_assigned
                 (set_pool
                    (set_client (set_pool srv p1) cid
                       (mkClient (last_activity c) true worker_name (subscribed c)
                          (c_extranonce1 c) (extranonce2_size c) (Some worker_name)
                          (Some (PFloat (default_difficulty srv)))
                          (suggested_difficulty c) (disconnected c))) p2) id).
  { apply assigned_set_pool. eapply assigned_set_client; [exact Hc|left; reflexivity|exact H]. }
  destruct job as [job|]; [|exact H2].
  destruct (job_notification job); exact H2.
Qed.

Lemma on_submit_keeps srv env cid c message_id params out id :
  on_submit srv env cid c message_id params = Some out →
  extranonce1_assigned srv id → extranonce1_assigned (out_server out) id.
Proof.
  intros Hout H. unfold on_submit in Hout.
  destruct (negb (authorized c)); [injection Hout as <-; exact H|].
  destruct (py_len params) as [n|e]; [|injection Hout as <-; exact H].
  destruct (n <? 5)%nat; [injection Hout as <-; exact H|].
  destruct (mbind _ _) as [[[[[[w j] e2] t] nn] v]|e]; [|injection Hout as <-; exact H].
  destruct (c_bitcoin_address c) as [a|]; [|injection Hout as <-; exact H].
  destruct (c_extranonce1 c) as [e1|]; [|injection Hout as <-; exact H].
  destruct (submission_of _ _ _ _ _ _ _ _ _) as [sub|]; [|discriminate].
  destruct (Pool.validate_share _ _ _) as [p1 r].
  destruct r; injection Hout as <-; exact H.
Qed.

Lemma process_message_keeps srv env cid message out id :
  process_message srv env cid message = Some out →
  extranonce1_assigned srv id → extranonce1_assigned (out_server out) id.
Proof.
  intros Hout H. unfold process_message in Hout.
  destruct (clients srv !! cid) as [c|] eqn:Hc; [|injection Hout as <-; exact H].
  destruct (is_str "mining.subscribe" _).
  { injection Hout as <-. unfold on_subscribe. cbn [out_server returns].
    eapply assigned_set_client; [exact Hc|right; reflexivity|exact H]. }
  destruct (is_str "mining.authorize" _).
  { injection Hout as <-. apply on_authorize_keeps; assumption. }
  destruct (is_str "mining.submit" _).
  { eapply on_submit_keeps; eassumption. }
  destruct (is_str "mining.get_transactions" _).
  { injection Hout as <-. unfold on_get_transactions.
    destruct (Pool.get_current_job _ _ _ _ _ _). exact H. }
  destruct (is_str "client.get_version" _); [injection Hout as <-; exact H|].
  destruct (is_str "client.reconnect" _); [injection Hout as <-; exact H|].
  destruct (is_str "mining.configure" _).
  { injection Hout as <-. unfold on_configure.
    destruct (_ : result (bool * pyval)) as [[wanted fp]|e]; exact H. }
  destruct (is_str "mining.suggest_difficulty" _).
  { injection Hout as <-. unfold on_suggest_difficulty.
    destruct (mbind _ _) as [suggested|e]; [|exact H]. cbn [out_server returns].
    eapply assigned_set_client; [exact Hc|left; reflexivity|exact H]. }
  destruct (method_text _); [|discriminate]. injection Hout as <-. exact H.
Qed.

(** Whatever line is processed, for whichever client, a session that
    holds its assigned [extranonce1] still holds it afterwards: the
    value is stable for the session. *)
Lemma process_line_keeps_extranonce1 srv env cid line srv' frames id :
  process_line srv env cid line = Some (srv', frames) →
  extranonce1_assigned srv id → extranonce1_assigned srv' id.
Proof.
  intros Hline H. unfold process_line in Hline.
  destruct (clients srv !! cid) as [c|] eqn:Hc; [|injection Hline as <- _; exact H].
  set (srv1 := set_client srv cid _) in Hline.
  assert (H1 : extranonce1_assigned srv1 id).
  { eapply assigned_set_client; [exact Hc|left; reflexivity|exact H]. }
  destruct line as [|message]; [injection Hline as <- _; exact H1|].
  destruct (assoc "id" message); [|injection Hline as <- _; exact H1].
  destruct (process_message srv1 env cid message) as [out|] eqn:Hout; [|discriminate].
  pose proof (process_message_keeps _ _ _ _ _ id Hout H1) as H2.
  cbn [mbind option_bind] in Hline.
  destruct (out_result out) as [[r|]|e]; injection Hline as <- _; exact H2.
Qed.

(** After a subscription the session holds the assigned value, and by
    [process_line_keeps_extranonce1] keeps it. *)
Lemma subscribe_assigns srv env cid c message out :
  clients srv !! cid = Some c →
  dict_get message "method" PNone = PStr "mining.subscribe" →
  process_message srv env cid message = Some out →
  extranonce1_assigned (out_server out) cid.
Proof.
  intros Hc Hm Hout. unfold process_message in Hout. rewrite Hc, Hm in Hout.
  cbn [is_str] in Hout.
  change (String.eqb "mining.subscribe" "mining.subscribe") with true in Hout.
  cbv iota in Hout. injection Hout as <-.
  unfold on_subscribe, extranonce1_assigned. cbn [out_server returns set_client clients].
  eexists. rewrite lookup_insert_eq. split; reflexivity.
Qed.

(** *** Job notifications *)

Lemma last_skipn {A} (l : list A) k : (k < length l)%nat → last (skipn k l) = last l.
Proof.
  revert k. induction l as [|x l IH]; intros k Hk; [simpl in Hk; lia|].
  destruct k as [|k]; [reflexivity|]. simpl skipn. simpl in Hk.
  rewrite IH by lia. destruct l; [simpl in Hk; lia|reflexivity].
Qed.


Lemma create_stratum_job_clean cfg now nsec spk tpl id job :
  Pool.create_stratum_job cfg now nsec spk tpl id = Ok job →
  Pool.clean_jobs job = true ∧ Pool.job_id job = id
  ∧ Pool.ntime job = Pool.NtInt (Pool.curtime tpl).
Proof.
  unfold Pool.create_stratum_job.
  destruct (Pool.create_coinbase_tx _ _ _ _ _); [|discriminate].
  destruct (Pool.calculate_merkle_branches _); [|discriminate].
  cbn. intros [= <-]. repeat split.
Qed.





End StratumProps.

(** ** Targets *)

Module TargetProps.
Import Py Pool Reference Predicates.

(** *** Rounding never yields a NaN or a negative result *)

Lemma shr_1_nonneg mrs : 0 <= shr_m mrs → 0 <= shr_m (shr_1 mrs).
Proof.
  destruct mrs as [m r s0]. simpl. intros Hm.
  destruct m as [|p|p]; [simpl; lia| |lia].
  destruct p; simpl; lia.
Qed.

Lemma iter_shr_1_nonneg p : ∀ mrs,
  0 <= shr_m mrs → 0 <= shr_m (SpecFloat.iter_pos shr_1 p mrs).
Proof.
  induction p as [p IH|p IH|]; intros mrs Hm; simpl.
  - apply IH, IH, shr_1_nonneg, Hm.
  - apply IH, IH, Hm.
  - apply shr_1_nonneg, Hm.
Qed.

Lemma shr_fexp_nonneg m e l :
  0 <= m → 0 <= shr_m (shr_fexp prec emax m e l).1.
Proof.
  intros Hm. unfold shr_fexp, shr.
  assert (H0 : 0 <= shr_m (shr_record_of_loc m l)).
  { destruct l as [|[]]; simpl; assumption. }
  destruct (_ - e) as [|p|p]; simpl; [assumption| |assumption].
  apply iter_shr_1_nonneg, H0.
Qed.

Lemma round_nearest_even_nonneg m l : 0 <= m → 0 <= round_nearest_even m l.
Proof.
  intros Hm. unfold round_nearest_even.
  destruct l as [|[]]; try lia. destruct (Z.even m); lia.
Qed.

Lemma binary_round_aux_nonneg m e l :
  0 <= m → nonneg_float (binary_round_aux prec emax false m e l).
Proof.
  intros Hm. unfold binary_round_aux.
  pose proof (shr_fexp_nonneg m e l Hm) as H1.
  destruct (shr_fexp prec emax m e l) as [mrs' e'] eqn:E1. simpl in H1.
  pose proof (shr_fexp_nonneg
                (round_nearest_even (shr_m mrs') (loc_of_shr_record mrs')) e' loc_Exact
                (round_nearest_even_nonneg _ _ H1)) as H2.
  destruct (shr_fexp prec emax (round_nearest_even _ _) e' loc_Exact) as [mrs'' e''].
  simpl in H2.
  destruct (shr_m mrs'') as [|p|p]; [constructor| |lia].
  destruct (e'' <=? emax - prec); constructor.
Qed.

Lemma SFdiv_pos_nonneg mx ex my ey :
  nonneg_float (SFdiv prec emax (S754_finite false mx ex) (S754_finite false my ey)).
Proof.
  unfold SFdiv, SFdiv_core_binary.
  set (m' := match _ - _ - _ with Z0 => _ | Zpos _ => _ | Zneg _ => _ end).
  assert (Hm' : 0 <= m').
  { unfold m'. destruct (_ - _ - _); [lia| |lia]. apply Z.shiftl_nonneg. lia. }
  pose proof (Z_div_mod m' (Zpos my) ltac:(lia)) as Hdm.
  destruct (Z.div_eucl m' (Zpos my)) as [q r]. destruct Hdm as [Hq Hr].
  apply binary_round_aux_nonneg. nia.
Qed.

(** [int(f)] of such a float is a non-negative integer, or overflows. *)
Lemma int_of_nonneg_float f :
  nonneg_float f →
  (∃ t, int_of_float f = Ok t ∧ 0 <= t) ∨ int_of_float f = Raise OverflowError.
Proof.
  intros [|m e|]; [left; exists 0; split; [reflexivity|lia]| |right; reflexivity].
  left. unfold int_of_float. eexists. split; [reflexivity|].
  destruct (Z.leb_spec 0 e).
  - apply Z.mul_nonneg_nonneg; [lia|]. apply Z.pow_nonneg. lia.
  - apply Z.div_pos; [lia|]. apply Z.pow_pos_nonneg; lia.
Qed.

(** *** [difficulty_to_target] *)

Lemma difficulty_to_target_unfold d :
  difficulty_to_target d =
  match le_zero d with
  | Raise e => Raise e
  | Ok true => Ok (2 ^ 256 - 1)
  | Ok false =>
      match bind (truediv_int MAX_TARGET d) int_of_float with
      | Ok v => Ok (if v >? MAX_TARGET then MAX_TARGET else v)
      | Raise ZeroDivisionError => Ok MAX_TARGET
      | Raise OverflowError => Ok MAX_TARGET
      | Raise e => Raise e
      end
  end.
Proof. reflexivity. Qed.

Lemma float_of_max_target :
  float_of_int MAX_TARGET = Ok (S754_finite false (Z.to_pos (65535 * 2 ^ 37)) 171).
Proof. vm_compute. reflexivity. Qed.

(** The quotient [MAX_TARGET / d] for [d > 0] is a non-negative float,
    or the division reports an overflow. *)
Lemma quotient_nonneg d :
  positive_difficulty d →
  (∃ q, truediv_int MAX_TARGET d = Ok q ∧ nonneg_float q)
  ∨ truediv_int MAX_TARGET d = Raise OverflowError.
Proof.
  destruct d as [|b|z|f|s|l|dd]; try contradiction; intros Hd.
  - destruct z as [|p|p]; try (simpl in Hd; lia).
    unfold truediv_int, int_truediv.
    change (MAX_TARGET <? 0) with false. change (Z.pos p <? 0) with false.
    change MAX_TARGET with (Zpos (Z.to_pos MAX_TARGET)).
    cbv beta iota.
    pose proof (SFdiv_pos_nonneg (Z.to_pos (Z.abs (Zpos (Z.to_pos MAX_TARGET)))) 0
                  (Z.to_pos (Z.abs (Zpos p))) 0) as Hq.
    destruct (SFdiv _ _ _ _) as [sq|sq| |sq mq eq] eqn:Eq.
    + left. eexists. split; [reflexivity|assumption].
    + right. reflexivity.
    + inversion Hq.
    + left. eexists. split; [reflexivity|assumption].
  - unfold truediv_int. rewrite float_of_max_target.
    destruct f as [sf|sf| |sf mf ef]; try contradiction;
      destruct sf; try contradiction.
    + left. eexists. split; [reflexivity|]. simpl. constructor.
    + left. eexists. split; [reflexivity|]. apply SFdiv_pos_nonneg.
Qed.

Lemma le_zero_positive d : positive_difficulty d → le_zero d = Ok false.
Proof.
  destruct d as [|b|z|f|s|l|dd]; try contradiction; intros Hd; simpl.
  - f_equal. apply Z.leb_gt. exact Hd.
  - destruct f as [sf|sf| |sf mf ef]; try contradiction; destruct sf; try contradiction;
      reflexivity.
Qed.

Lemma le_zero_nonpositive d : nonpositive_difficulty d → le_zero d = Ok true.
Proof.
  destruct d as [|b|z|f|s|l|dd]; try contradiction; intros Hd; simpl.
  - f_equal. apply Z.leb_le. exact Hd.
  - destruct f as [sf|sf| |sf mf ef]; try contradiction; destruct sf; try contradiction;
      reflexivity.
Qed.

(** The powers of two that are floats, and the integer ones up to
    [2^300], checked one by one. *)
Lemma pow2_floats_checked :
  forallb (fun i =>
             let k := Z.of_nat i - 1074 in
             match difficulty_to_target (PFloat (pow2_float k)) with
             | Ok t => t =? target_spec_pow2 k
             | Raise _ => false
             end) (seq 0 2098) = true.
Proof. vm_compute. reflexivity. Qed.

Lemma pow2_ints_checked :
  forallb (fun i =>
             let k := Z.of_nat i in
             match difficulty_to_target (PInt (2 ^ k)) with
             | Ok t => t =? target_spec_pow2 k
             | Raise _ => false
             end) (seq 0 301) = true.
Proof. vm_compute. reflexivity. Qed.

(** C5, as the code has it.  For [d <= 0] the result is [2^256 - 1].
    For [d > 0] the function returns, without raising, [int(q)] clamped
    to [MAX_TARGET], where [q] is the binary64 quotient of [MAX_TARGET]
    by [d] as Python's [/] rounds it (an overflowing quotient gives
    [MAX_TARGET]); the result lies between 0 and [MAX_TARGET].  It is
    [floor(MAX_TARGET / d)] clamped for every [d] that is a power of two
    (every float one, and the integers up to [2^300]); in particular
    [difficulty_to_target(1.0)] is [bits_to_target("1d00ffff")], which is
    [MAX_TARGET = 0x00ffff * 2^208]. *)
Theorem difficulty_to_target_rounded_quotient :
  (∀ d, nonpositive_difficulty d → difficulty_to_target d = Ok (2 ^ 256 - 1))
  ∧ (∀ d, positive_difficulty d →
       ∃ t, difficulty_to_target d = Ok t
            ∧ 0 <= t <= MAX_TARGET
            ∧ t = match bind (truediv_int MAX_TARGET d) int_of_float with
                  | Ok v => Z.min MAX_TARGET v
                  | Raise _ => MAX_TARGET
                  end)
  ∧ (∀ k, -1074 <= k <= 1023 →
       difficulty_to_target (PFloat (pow2_float k)) = Ok (target_spec_pow2 k))
  ∧ (∀ k, 0 <= k <= 300 →
       difficulty_to_target (PInt (2 ^ k)) = Ok (target_spec_pow2 k))
  ∧ bits_to_target "1d00ffff" = Ok (PInt MAX_TARGET)
  ∧ MAX_TARGET = 0x00ffff * 2 ^ 208
  ∧ difficulty_to_target (PFloat (pow2_float 0)) = Ok MAX_TARGET.
Proof.
  split; [|split; [|split; [|split; [|split; [|split]]]]].
  - intros d Hd. rewrite difficulty_to_target_unfold, (le_zero_nonpositive d Hd).
    reflexivity.
  - intros d Hd. rewrite difficulty_to_target_unfold, (le_zero_positive d Hd).
    destruct (quotient_nonneg d Hd) as [(q & Hq & Hnn)| Hq]; rewrite Hq.
    + cbn [bind].
      destruct (int_of_nonneg_float q Hnn) as [(v & Hv & Hv0)| Hv]; rewrite Hv.
      * exists (if v >? MAX_TARGET then MAX_TARGET else v).
        split; [reflexivity|].
        assert (0 <= MAX_TARGET) by (unfold MAX_TARGET; lia).
        destruct (Z.gtb_spec v MAX_TARGET); lia.
      * exists MAX_TARGET. split; [reflexivity|]. unfold MAX_TARGET. lia.
    + cbn [bind]. exists MAX_TARGET. split; [reflexivity|]. unfold MAX_TARGET. lia.
  - intros k Hk.
    pose proof (proj1 (forallb_forall _ _) pow2_floats_checked (Z.to_nat (k + 1074))) as H.
    cbv beta zeta in H. replace (Z.of_nat (Z.to_nat (k + 1074)) - 1074) with k in H by lia.
    specialize (H ltac:(apply in_seq; lia)).
    destruct (difficulty_to_target (PFloat (pow2_float k))) as [t|]; [|discriminate].
    apply Z.eqb_eq in H. by rewrite H.
  - intros k Hk.
    pose proof (proj1 (forallb_forall _ _) pow2_ints_checked (Z.to_nat k)) as H.
    cbv beta zeta in H. replace (Z.of_nat (Z.to_nat k)) with k in H by lia.
    specialize (H ltac:(apply in_seq; lia)).
    destruct (difficulty_to_target (PInt (2 ^ k))) as [t|]; [|discriminate].
    apply Z.eqb_eq in H. by rewrite H.
  - vm_compute. reflexivity.
  - reflexivity.
  - vm_compute. reflexivity.
Qed.

Lemma difficulty_to_target_rounded_quotient_witness :
  difficulty_to_target (PInt 0) = Ok (2 ^ 256 - 1)
  ∧ (∃ t, difficulty_to_target (PInt 7) = Ok t
          ∧ 0 <= t <= MAX_TARGET
          ∧ t = match bind (truediv_int MAX_TARGET (PInt 7)) int_of_float with
                | Ok v => Z.min MAX_TARGET v
                | Raise _ => MAX_TARGET
                end)
  ∧ difficulty_to_target (PFloat (pow2_float 3)) = Ok (target_spec_pow2 3)
  ∧ difficulty_to_target (PInt (2 ^ 3)) = Ok (target_spec_pow2 3).
Proof.
  destruct difficulty_to_target_rounded_quotient as (H1 & H2 & H3 & H4 & _).
  split; [apply (H1 (PInt 0)); simpl; lia|].
  split; [apply (H2 (PInt 7)); simpl; lia|].
  split; [apply (H3 3); lia|apply (H4 3); lia].
Defined.

(** C5 as worded fails at [d = 7], as an [int] and as a [float]:
    the code returns the truncated binary64 quotient, whose low bits are
    zero, and not [floor(MAX_TARGET / 7)]. *)
Lemma difficulty_to_target_counterexample :
  difficulty_to_target (PInt 7) ≠ Ok (target_spec 7 1)
  ∧ difficulty_to_target (PFloat (S754_finite false (Z.to_pos (7 * 2 ^ 50)) (-50)))
    ≠ Ok (target_spec 7 1)
  ∧ target_spec 7 1 = MAX_TARGET / 7
  ∧ difficulty_to_target (PInt 7)
    = Ok 3851362184430186963552519718757385316532037769691036860328615870464
  ∧ MAX_TARGET / 7
    = 3851362184430187070450925192103427333715842676939166298019681870994.
Proof.
  split; [|split; [|split; [|split]]].
  - intros H. vm_compute in H. discriminate.
  - intros H. vm_compute in H. discriminate.
  - reflexivity.
  - vm_compute. reflexivity.
  - vm_compute. reflexivity.
Qed.

End TargetProps.

(** ** Hexadecimal text and octets *)

Module HexProps.
Import Py Reference.

(** The octets of a [bytes] value. *)
Lemma fromhex_octet x s :
  0 <= x < 256 →
  fromhex (hex_byte x +:+ s)
  = match fromhex s with Ok rest => Ok (x :: rest) | Raise e => Raise e end.
Proof.
  intros Hx. unfold hex_byte.
  change (String ?a (String ?b EmptyString) +:+ s) with (String a (String b s)).
  assert (Hhi : 0 <= x / 16 < 16)
    by (split; [apply Z.div_pos; lia|apply Z.div_lt_upper_bound; lia]).
  assert (Hlo : 0 <= x mod 16 < 16) by (apply Z.mod_pos_bound; lia).
  pose proof (CodecProps.hexval_hexdigit _ Hhi) as H1.
  pose proof (CodecProps.hexval_hexdigit _ Hlo) as H2.
  cbn [fromhex]. rewrite (CodecProps.hexval_not_space _ _ H1), H1, H2.
  replace (x / 16 * 16 + x mod 16) with x
    by (pose proof (Z.div_mod x 16 ltac:(lia)); lia).
  reflexivity.
Qed.

Lemma fromhex_hex_in_range b :
  Forall (fun x => 0 <= x < 256) b → fromhex (hex b) = Ok b.
Proof.
  induction 1 as [|x b Hx Hb IH]; [reflexivity|].
  cbn [hex]. rewrite fromhex_octet, IH by assumption. reflexivity.
Qed.

Lemma fromhex_range_le n : ∀ s b,
  (String.length s <= n)%nat → fromhex s = Ok b → Forall (fun x => 0 <= x < 256) b.
Proof.
  induction n as [|n IH]; intros s b Hlen.
  - destruct s; [|simpl in Hlen; lia]. intros [= <-]. constructor.
  - destruct s as [|c s']; [intros [= <-]; constructor|].
    simpl in Hlen. cbn [fromhex].
    destruct (is_space c); [apply IH; lia|].
    destruct (hexval c) as [hi|] eqn:Hhi; [|discriminate].
    destruct s' as [|c2 s'']; [discriminate|].
    destruct (hexval c2) as [lo|] eqn:Hlo; [|discriminate].
    destruct (fromhex s'') as [rest|] eqn:Hrest; [|discriminate].
    intros [= <-]. constructor.
    + destruct (CodecProps.hexval_range _ _ Hhi), (CodecProps.hexval_range _ _ Hlo). lia.
    + apply (IH s''); [simpl in Hlen; lia|assumption].
Qed.

(** What [bytes.fromhex] returns are octets. *)
Lemma fromhex_range s b : fromhex s = Ok b → Forall (fun x => 0 <= x < 256) b.
Proof. apply (fromhex_range_le (String.length s)). lia. Qed.

Lemma fromhex_app_le n : ∀ s1 b1 s2,
  (String.length s1 <= n)%nat → fromhex s1 = Ok b1 →
  fromhex (s1 +:+ s2)
  = match fromhex s2 with Ok b2 => Ok (b1 ++ b2) | Raise e => Raise e end.
Proof.
  induction n as [|n IH]; intros s1 b1 s2 Hlen.
  - destruct s1; [|simpl in Hlen; lia]. intros [= <-].
    change (EmptyString +:+ s2) with s2. destruct (fromhex s2); reflexivity.
  - destruct s1 as [|c s'].
    { intros [= <-]. change (EmptyString +:+ s2) with s2.
      destruct (fromhex s2); reflexivity. }
    simpl in Hlen. intros H1. cbn [fromhex] in H1.
    change (String c s' +:+ s2) with (String c (s' +:+ s2)).
    cbn [fromhex]. destruct (is_space c); [apply IH; [lia|exact H1]|].
    destruct (hexval c) as [hi|]; [|discriminate].
    destruct s' as [|c2 s'']; [discriminate|].
    change (String c2 s'' +:+ s2) with (String c2 (s'' +:+ s2)). cbv iota.
    destruct (hexval c2) as [lo|]; [|discriminate].
    destruct (fromhex s'') as [rest|] eqn:Hrest; [|discriminate].
    injection H1 as <-. rewrite (IH s'' rest s2); [|simpl in Hlen; lia|assumption].
    destruct (fromhex s2); reflexivity.
Qed.

(** [bytes.fromhex(a + b)] is [bytes.fromhex(a) + bytes.fromhex(b)] when
    the first part parses. *)
Lemma fromhex_app s1 b1 s2 :
  fromhex s1 = Ok b1 →
  fromhex (s1 +:+ s2)
  = match fromhex s2 with Ok b2 => Ok (b1 ++ b2) | Raise e => Raise e end.
Proof. apply (fromhex_app_le (String.length s1)). lia. Qed.

Lemma le_octets_range n : ∀ v, Forall (fun x => 0 <= x < 256) (le_octets n v).
Proof.
  induction n as [|n IH]; intros v; simpl; constructor; [|apply IH].
  apply Z.mod_pos_bound. lia.
Qed.

(** X1: [hex_to_bytes (bytes_to_hex data)] gives [data] back, for every
    [bytes] value (a list of octets). *)
Theorem hex_round_trip data :
  Forall (fun x => 0 <= x < 256) data →
  Helper.hex_to_bytes (Helper.bytes_to_hex data) = Ok data
  ∧ Helper.parse_hex_string (Helper.format_hex_string data) = Ok data.
Proof. intros H. split; apply fromhex_hex_in_range, H. Qed.

Lemma hex_round_trip_witness :
  Helper.hex_to_bytes (Helper.bytes_to_hex [0; 171; 255]) = Ok [0; 171; 255]
  ∧ Helper.parse_hex_string (Helper.format_hex_string [0; 171; 255]) = Ok [0; 171; 255].
Proof.
  apply (hex_round_trip [0; 171; 255]).
  repeat constructor; lia.
Defined.

End HexProps.

(** ** The job registry *)

Module RegistryProps.
Import Py Pool Predicates Invariants.

Lemma last_n_suffix {A} n (l : list A) : ∃ dropped, l = dropped ++ last_n n l.
Proof. exists (take (length l - n) l). unfold last_n. symmetry. apply take_drop. Qed.

Lemma distribute_job_shape st job :
  length (jobs (distribute_job st job)) = Nat.min (S (length (jobs st))) 20
  ∧ latest_job (distribute_job st job) = Some job
  ∧ ∃ dropped, jobs st ++ [job] = dropped ++ jobs (distribute_job st job).
Proof.
  unfold distribute_job, set_jobs, latest_job. cbn [jobs].
  destruct (Nat.ltb_spec 20 (length (jobs st ++ [job]))) as [Hlt|Hge].
  - assert (Hl : length (jobs st ++ [job]) = S (length (jobs st)))
      by (rewrite length_app; simpl; lia).
    split; [|split].
    + unfold last_n. rewrite length_drop, Hl. lia.
    + unfold last_n. rewrite StratumProps.last_skipn by lia. apply last_snoc.
    + apply last_n_suffix.
  - assert (Hl : length (jobs st ++ [job]) = S (length (jobs st)))
      by (rewrite length_app; simpl; lia).
    split; [|split].
    + rewrite Hl. lia.
    + apply last_snoc.
    + exists []. reflexivity.
Qed.

(** X2: [distribute_job] keeps the newest twenty jobs: afterwards the
    registry holds [min (n + 1) 20] jobs, the inserted job is the newest,
    and the jobs held are the end of the old list followed by the new
    job (only the oldest ones are dropped). *)
Theorem distribute_job_keeps_newest st job :
  length (jobs (distribute_job st job)) = Nat.min (S (length (jobs st))) 20
  ∧ latest_job (distribute_job st job) = Some job
  ∧ ∃ dropped, jobs st ++ [job] = dropped ++ jobs (distribute_job st job).
Proof. exact (distribute_job_shape st job). Qed.

Lemma ids_sorted_drop n js : ids_sorted js → ids_sorted (drop n js).
Proof.
  intros H i j a b Hi Hj Hij. rewrite lookup_drop in Hi, Hj.
  apply (H (n + i)%nat (n + j)%nat); [assumption|assumption|lia].
Qed.

Lemma ids_sorted_snoc js job :
  ids_sorted js → (∀ a, a ∈ js → job_id a < job_id job) → ids_sorted (js ++ [job]).
Proof.
  intros H Hnew i j a b Hi Hj Hij.
  apply lookup_snoc_Some in Hi, Hj.
  destruct Hi as [[Hil Hi]|[Hil ->]], Hj as [[Hjl Hj]|[Hjl ->]].
  - apply (H i j); assumption.
  - apply Hnew. apply list_elem_of_lookup. eauto.
  - lia.
  - lia.
Qed.

Lemma elem_of_last_n {A} n (l : list A) x : x ∈ last_n n l → x ∈ l.
Proof.
  unfold last_n. intros H. apply list_elem_of_lookup in H. destruct H as [i Hi].
  rewrite lookup_drop in Hi. apply list_elem_of_lookup. eauto.
Qed.

Lemma registry_ok_distribute st job :
  registry_ok st →
  job_id job = current_job_id st →
  (∀ a, a ∈ jobs st → job_id a < current_job_id st) →
  1 <= job_id job →
  clean_jobs job = true →
  ntime job = NtInt (curtime (template job)) →
  registry_ok (distribute_job st job).
Proof.
  intros (Hlen & Hsorted & Hjobs & Hcur) Hid Hlt H1 Hclean Hnt.
  destruct (distribute_job_shape st job) as (Hl & _ & _).
  assert (Hall : ∀ a, a ∈ jobs st ++ [job] →
            1 <= job_id a <= current_job_id st ∧ clean_jobs a = true
            ∧ ntime a = NtInt (curtime (template a))).
  { intros a Ha. apply elem_of_app in Ha. destruct Ha as [Ha|Ha].
    - apply Hjobs, Ha.
    - apply list_elem_of_singleton in Ha. subst a. repeat split; try assumption; lia. }
  assert (Hs : ids_sorted (jobs st ++ [job])).
  { apply ids_sorted_snoc; [assumption|]. intros a Ha. specialize (Hlt a Ha). lia. }
  split; [lia|]. unfold distribute_job, set_jobs, registry_ok in *. cbn [jobs current_job_id].
  destruct (20 <? length (jobs st ++ [job]))%nat.
  - split; [apply ids_sorted_drop, Hs|]. split; [|assumption].
    intros a Ha. apply Hall. eapply elem_of_last_n, Ha.
  - split; [exact Hs|]. split; [|assumption]. exact Hall.
Qed.

Lemma registry_ok_update cfg now nsec spk st tpl :
  registry_ok st → registry_ok (update_block_template cfg now nsec spk st tpl).
Proof.
  intros Hok. unfold update_block_template.
  destruct (match current_block st with None => true | Some cur => _ end); [|exact Hok].
  set (st1 := mkState _ _ _ _ _ _ _).
  assert (Hok1 : registry_ok st1).
  { destruct Hok as (Hlen & Hsorted & Hjobs & Hcur). unfold st1, registry_ok. cbn.
    repeat split; try assumption; try lia; destruct (Hjobs a H) as ((?&?)&?&?);
      try assumption; lia. }
  destruct (create_stratum_job _ _ _ _ _ _) as [job|] eqn:Hjob; [|exact Hok1].
  destruct (StratumProps.create_stratum_job_clean _ _ _ _ _ _ _ Hjob) as (Hclean & Hid & Hnt).
  assert (Htpl : template job = tpl).
  { unfold create_stratum_job in Hjob.
    destruct (create_coinbase_tx _ _ _ _ _); [|discriminate].
    destruct (calculate_merkle_branches _); [|discriminate].
    cbn in Hjob. injection Hjob as <-. reflexivity. }
  destruct Hok as (Hlen & Hsorted & Hjobs & Hcur).
  apply registry_ok_distribute; try assumption.
  - intros a Ha. unfold st1 in *. cbn in *. destruct (Hjobs a Ha) as ((?&?)&_). lia.
  - rewrite Hid. unfold st1. cbn. lia.
  - rewrite Htpl. exact Hnt.
Qed.

Lemma worker_stats_shape st now sub :
  worker_stats (validate_share st now sub).1 = worker_stats st
  ∨ ∃ bf, worker_stats (validate_share st now sub).1
          = worker_stats (record_share st now (worker_name sub) (bitcoin_address sub) bf)
          ∧ ∃ h, (validate_share st now sub).2 = Valid bf h.
Proof.
  unfold validate_share.
  destruct (int16 (sub_job_id sub)); [|left; reflexivity].
  destruct (find_job _ _); [|left; reflexivity].
  destruct (bind _ _) as [[jn sn]|]; [|left; reflexivity].
  destruct (_ >? 600); [left; reflexivity|].
  case_bool_decide; [left; reflexivity|].
  destruct (check_share _ _) as [[[hh sv] bf]|]; [|left; reflexivity].
  destruct sv; [|left; reflexivity].
  right. exists bf. split; [|eauto].
  unfold submit_block, record_share. destruct bf; reflexivity.
Qed.

Lemma registry_fields_share st now sub :
  jobs (validate_share st now sub).1 = jobs st
  ∧ current_job_id (validate_share st now sub).1 = current_job_id st.
Proof.
  unfold validate_share.
  destruct (int16 (sub_job_id sub)); [|auto].
  destruct (find_job _ _); [|auto].
  destruct (bind _ _) as [[jn sn]|]; [|auto].
  destruct (_ >? 600); [auto|].
  case_bool_decide; [auto|].
  destruct (check_share _ _) as [[[hh sv] bf]|]; [|auto].
  destruct sv; [|auto].
  unfold submit_block, record_share. destruct bf; auto.
Qed.

Lemma stats_ok_record st now w a bf : stats_ok st → stats_ok (record_share st now w a bf).
Proof.
  intros Hok w' s'. unfold record_share.
  assert (Hold : ∀ s0, worker_stats st !! w = Some s0 →
            1 <= ws_shares s0 ∧ 0 <= ws_blocks_found s0 <= ws_shares s0 ∧ ws_rejected s0 = 0)
    by (intros s0; apply Hok).
  destruct (worker_stats st !! w) as [s0|] eqn:Hw;
    [specialize (Hold s0 eq_refl)|clear Hold];
    destruct bf; cbn [worker_stats];
    (destruct (decide (w = w')) as [->|Hne];
     [rewrite lookup_insert_eq; intros [= <-]; cbn; lia
     |rewrite lookup_insert_ne by assumption; apply Hok]).
Qed.

Lemma reachable_ok st :
  reachable st → registry_ok st ∧ stats_ok st.
Proof.
  induction 1 as [|cfg now nsec spk st tpl _ [IHr IHs]|st now sub _ [IHr IHs]
                  |st now cid w _ [IHr IHs]].
  - split.
    + unfold registry_ok, PoolMore.initial_state. cbn.
      repeat split; try lia; try (intros; exfalso; eapply not_elem_of_nil; eassumption).
      intros i j a b Hi. rewrite lookup_nil in Hi. discriminate.
    + intros w s H. cbn in H. rewrite lookup_empty in H. discriminate.
  - split; [apply registry_ok_update, IHr|].
    unfold update_block_template.
    destruct (match current_block st with None => true | Some cur => _ end); [|exact IHs].
    destruct (create_stratum_job _ _ _ _ _ _); exact IHs.
  - destruct (registry_fields_share st now sub) as [Hj Hc]. split.
    + unfold registry_ok. rewrite Hj, Hc. exact IHr.
    + destruct (worker_stats_shape st now sub) as [Hw|(bf & Hw & _)];
        unfold stats_ok; rewrite Hw; [exact IHs|].
      apply stats_ok_record, IHs.
  - split.
    + unfold register_worker. destruct (miners st !! cid); exact IHr.
    + unfold register_worker. destruct (miners st !! cid); exact IHs.
Qed.

(** X3: in every state the pool can reach, the registry holds at most
    twenty jobs, their ids grow strictly along the list and lie between
    1 and [current_job_id], every job has [clean_jobs = true] and the
    integer [ntime] of its template; and every worker on record has at
    least one accepted share, no more blocks than shares, and a
    [rejected] count of zero (nothing ever increments it). *)
Theorem reachable_invariants st :
  reachable st → registry_ok st ∧ stats_ok st.
Proof. exact (reachable_ok st). Qed.

Lemma reachable_invariants_witness :
  registry_ok (update_block_template Sample.config1 1700000000 123456789 Sample.script1
                 PoolMore.initial_state Sample.template1)
  ∧ stats_ok (update_block_template Sample.config1 1700000000 123456789 Sample.script1
                PoolMore.initial_state Sample.template1).
Proof.
  apply (reachable_invariants
           (update_block_template Sample.config1 1700000000 123456789 Sample.script1
              PoolMore.initial_state Sample.template1)).
  apply reach_template. apply reach_init.
Defined.

(** *** Looking a job up *)

Lemma find_job_none js n : (∀ a, a ∈ js → job_id a ≠ n) → find_job js n = None.
Proof.
  induction js as [|x r IH]; intros H; [reflexivity|].
  unfold find_job. cbn [List.find].
  replace (job_id x =? n) with false
    by (symmetry; apply Z.eqb_neq, H; left).
  apply IH. intros a Ha. apply H. right. exact Ha.
Qed.

Lemma ids_sorted_tail x r : ids_sorted (x :: r) → ids_sorted r.
Proof. intros H. exact (ids_sorted_drop 1 (x :: r) H). Qed.

Lemma find_job_held js a : ids_sorted js → a ∈ js → find_job js (job_id a) = Some a.
Proof.
  induction js as [|x r IH]; intros Hs Ha; [exfalso; eapply not_elem_of_nil, Ha|].
  unfold find_job. cbn [List.find].
  apply elem_of_cons in Ha. destruct Ha as [->|Ha].
  - rewrite Z.eqb_refl. reflexivity.
  - apply list_elem_of_lookup in Ha as Hi. destruct Hi as [i Hi].
    assert (job_id x < job_id a) by (apply (Hs 0%nat (S i)); [reflexivity|exact Hi|lia]).
    replace (job_id x =? job_id a) with false by (symmetry; apply Z.eqb_neq; lia).
    apply IH; [eapply ids_sorted_tail, Hs|exact Ha].
Qed.

Lemma update_inserts cfg now nsec spk st tpl job :
  match current_block st with
  | None => True
  | Some cur => height tpl ≠ height cur
  end →
  create_stratum_job cfg now nsec spk tpl (current_job_id st + 1) = Ok job →
  jobs (update_block_template cfg now nsec spk st tpl)
  = (if (20 <? length (jobs st ++ [job]))%nat then last_n 20 (jobs st ++ [job])
     else jobs st ++ [job]).
Proof.
  intros Hfresh Hjob. unfold update_block_template.
  destruct (current_block st) as [cur|].
  - replace (height tpl =? height cur) with false
      by (symmetry; apply Z.eqb_neq; assumption).
    cbn [negb current_job_id]. rewrite Hjob. reflexivity.
  - cbn [current_job_id]. rewrite Hjob. reflexivity.
Qed.

(** X4: when the registry is full, the job inserted for a new height
    pushes the oldest job out, and from then on a share for that oldest
    job is answered 'Job not found', the state untouched. *)
Theorem evicted_job_not_found cfg now nsec spk st tpl job oldest rest now' sub :
  reachable st →
  jobs st = oldest :: rest →
  length (jobs st) = 20%nat →
  match current_block st with
  | None => True
  | Some cur => height tpl ≠ height cur
  end →
  create_stratum_job cfg now nsec spk tpl (current_job_id st + 1) = Ok job →
  int16 (sub_job_id sub) = Ok (job_id oldest) →
  let st' := update_block_template cfg now nsec spk st tpl in
  jobs st' = rest ++ [job]
  ∧ validate_share st' now' sub = (st', Invalid JobNotFound).
Proof.
  intros Hreach Hjobs Hlen Hfresh Hjob Hid st'.
  destruct (reachable_ok st Hreach) as [(_ & Hsorted & Hall & _) _].
  assert (Hst' : jobs st' = rest ++ [job]).
  { unfold st'. rewrite (update_inserts _ _ _ _ _ _ job Hfresh Hjob).
    replace (20 <? length (jobs st ++ [job]))%nat with true
      by (symmetry; apply Nat.ltb_lt; rewrite length_app; simpl; lia).
    unfold last_n. rewrite length_app, Hlen, Hjobs. reflexivity. }
  split; [exact Hst'|].
  unfold validate_share. rewrite Hid, Hst', find_job_none; [reflexivity|].
  destruct (StratumProps.create_stratum_job_clean _ _ _ _ _ _ _ Hjob) as (_ & Hjid & _).
  intros a Ha. apply elem_of_app in Ha. destruct Ha as [Ha|Ha].
  - apply list_elem_of_lookup in Ha. destruct Ha as [i Hi].
    assert (job_id oldest < job_id a); [|lia].
    apply (Hsorted 0%nat (S i)); [rewrite Hjobs; reflexivity|rewrite Hjobs; exact Hi|lia].
  - apply list_elem_of_singleton in Ha. subst a.
    assert (oldest ∈ jobs st) by (rewrite Hjobs; left).
    destruct (Hall oldest H) as ((_ & ?) & _). lia.
Qed.

(** X5: in a reachable state every held job is found by its own id, and
    by that id only: the lookup of [validate_share] cannot return another
    job. *)
Theorem held_job_found_by_id st job :
  reachable st → job ∈ jobs st →
  find_job (jobs st) (job_id job) = Some job
  ∧ ∀ n other, find_job (jobs st) n = Some other → job_id other = n ∧ other ∈ jobs st.
Proof.
  intros Hreach Hin. destruct (reachable_ok st Hreach) as [(_ & Hsorted & _) _].
  split; [apply find_job_held; assumption|].
  intros n other Hfind. unfold find_job in Hfind. apply List.find_some in Hfind.
  destruct Hfind as [Hin' Heq]. split; [apply Z.eqb_eq, Heq|].
  apply list_elem_of_In, Hin'.
Qed.

Lemma reachable_feed heights : ∀ st, reachable st → reachable (SampleMore.feed st heights).
Proof.
  induction heights as [|h r IH]; intros st H; [exact H|].
  apply IH. apply reach_template, H.
Qed.

Lemma evicted_job_not_found_witness :
  let st' :=
    update_block_template Sample.config1 1700000000 123456789 Sample.script1
      SampleMore.full_state (SampleMore.template_at 21) in
  validate_share st' 1700001300 (Sample.share_at "6553f100") = (st', Invalid JobNotFound).
Proof.
  refine (proj2 (evicted_job_not_found Sample.config1 1700000000 123456789 Sample.script1
            SampleMore.full_state (SampleMore.template_at 21)
            (default Sample.job1 (last (jobs (update_block_template Sample.config1 1700000000
               123456789 Sample.script1 SampleMore.full_state (SampleMore.template_at 21)))))
            (default Sample.job1 (head (jobs SampleMore.full_state)))
            (tail (jobs SampleMore.full_state))
            1700001300 (Sample.share_at "6553f100") _ _ _ _ _ _)).
  - apply reachable_feed, reach_init.
  - vm_compute. reflexivity.
  - vm_compute. reflexivity.
  - vm_compute. discriminate.
  - vm_compute. reflexivity.
  - vm_compute. reflexivity.
Defined.

Lemma held_job_found_by_id_witness :
  find_job (jobs SampleMore.started) 1 = Some Sample.job1
  ∧ ∀ n other, find_job (jobs SampleMore.started) n = Some other →
      job_id other = n ∧ other ∈ jobs SampleMore.started.
Proof.
  apply (held_job_found_by_id SampleMore.started Sample.job1).
  - apply reach_template, reach_init.
  - vm_compute. left.
Defined.

(** X21: a job that could not be built is not retried.  When
    [create_stratum_job] raises for a template of a new height, the
    exception is swallowed after [current_block] and [current_job_id]
    were updated: no job is added, the id is used up, and every later
    template of that same height is ignored, whatever the clock or the
    configuration then. *)
Theorem failed_job_is_not_retried cfg now nsec spk st tpl e :
  match current_block st with
  | None => True
  | Some cur => height tpl ≠ height cur
  end →
  create_stratum_job cfg now nsec spk tpl (current_job_id st + 1) = Raise e →
  let st1 := update_block_template cfg now nsec spk st tpl in
  jobs st1 = jobs st
  ∧ current_job_id st1 = current_job_id st + 1
  ∧ current_block st1 = Some tpl
  ∧ ∀ cfg' now' nsec' spk' tpl',
      height tpl' = height tpl →
      update_block_template cfg' now' nsec' spk' st1 tpl' = st1.
Proof.
  intros Hfresh Hjob st1.
  assert (Hst1 : st1 = mkState (jobs st) (Some tpl) (current_job_id st + 1) (miners st)
                         (worker_stats st) (submitted_shares st) (blocks_found st)).
  { unfold st1, update_block_template.
    destruct (current_block st) as [cur|].
    - replace (height tpl =? height cur) with false
        by (symmetry; apply Z.eqb_neq; assumption).
      cbn [negb current_job_id]. rewrite Hjob. reflexivity.
    - cbn [current_job_id]. rewrite Hjob. reflexivity. }
  rewrite Hst1. cbn [jobs current_job_id current_block].
  repeat (split; [reflexivity|]).
  intros cfg' now' nsec' spk' tpl' Hh. unfold update_block_template.
  cbn [current_block]. rewrite Hh, Z.eqb_refl. reflexivity.
Qed.

Lemma failed_job_is_not_retried_witness :
  let st1 := update_block_template Sample.config1 1700000000 123456789 Sample.script1
               SampleMore.started SampleMore.bad_template in
  jobs st1 = jobs SampleMore.started
  ∧ current_job_id st1 = current_job_id SampleMore.started + 1
  ∧ current_block st1 = Some SampleMore.bad_template
  ∧ ∀ cfg' now' nsec' spk' tpl',
      height tpl' = height SampleMore.bad_template →
      update_block_template cfg' now' nsec' spk' st1 tpl' = st1.
Proof.
  apply (failed_job_is_not_retried Sample.config1 1700000000 123456789 Sample.script1
           SampleMore.started SampleMore.bad_template StructError).
  - vm_compute. discriminate.
  - vm_compute. reflexivity.
Defined.

End RegistryProps.

(** ** [format] and [int] *)

Module FormatProps.
Import Py Pool Stratum Reference Predicates Invariants CodecProps.

Lemma strip_prefix16_all_hex s : all_hex s = true → strip_prefix16 s = s.
Proof.
  intros Hhex. unfold strip_prefix16. destruct s as [|c0 [|c1 r]]; try reflexivity.
  cbn [all_hex] in Hhex. destruct (hexval c0) eqn:H0; [|discriminate].
  destruct (hexval c1) as [d1|] eqn:H1; [|discriminate].
  destruct (hexval_range _ _ H1) as [_ Hc1].
  replace ((code c1 =? 120) || (code c1 =? 88)) with false
    by (symmetry; apply orb_false_iff; split; apply Z.eqb_neq; lia).
  rewrite andb_false_r. reflexivity.
Qed.

(** A minus sign in front of a non-empty string of digits. *)
Lemma int16_minus_all_hex s :
  all_hex s = true → s ≠ EmptyString →
  int16 (String "-"%char s) =
  match scan_digits16 s false false 0 with
  | Some (v, true, rest) => if all_space rest then Ok (- v) else Raise ValueError
  | _ => Raise ValueError
  end.
Proof.
  intros Hhex Hne.
  change (int16 (String "-"%char s)) with
    (let s3 := strip_prefix16 s in
     if starts_with_underscore s3 then Raise ValueError
     else
       match scan_digits16 s3 false false 0 with
       | Some (v, true, rest) =>
           if all_space rest then Ok (- v) else Raise ValueError
       | _ => Raise ValueError
       end).
  cbv zeta. rewrite strip_prefix16_all_hex by assumption.
  destruct s as [|c0 r]; [contradiction|].
  cbn [all_hex] in Hhex. destruct (hexval c0) as [d0|] eqn:H0; [|discriminate].
  destruct (hexval_range _ _ H0) as [_ Hc0].
  cbn [starts_with_underscore].
  replace (is_underscore c0) with false
    by (symmetry; unfold is_underscore; apply Z.eqb_neq; lia).
  reflexivity.
Qed.

Lemma format_0x_negative width n :
  n < 0 → format_0x width n = String "-"%char (format_0x (width - 1) (- n)).
Proof.
  intros Hn. unfold format_0x.
  replace (n <? 0) with true by (symmetry; apply Z.ltb_lt; lia).
  replace (- n <? 0) with false by (symmetry; apply Z.ltb_ge; lia).
  reflexivity.
Qed.

Lemma format_0x_digits width n :
  0 <= n → all_hex (format_0x width n) = true ∧ format_0x width n ≠ EmptyString.
Proof.
  intros Hn. unfold format_0x.
  replace (n <? 0) with false by (symmetry; apply Z.ltb_ge; lia). split.
  - apply all_hex_zeros_app. apply all_hex_hex_digits; [assumption|reflexivity].
  - destruct (zeros _) as [|z zs]; [|discriminate]. apply hex_digits_not_empty.
Qed.

Lemma int16_format_any width n : int16 (format_0x width n) = Ok n.
Proof.
  destruct (Z.lt_ge_cases n 0) as [Hn|Hn]; [|apply int16_format, Hn].
  rewrite format_0x_negative by assumption.
  destruct (format_0x_digits (width - 1) (- n)) as [Hhex Hne]; [lia|].
  rewrite int16_minus_all_hex by assumption.
  rewrite scan_format by lia. simpl. f_equal. lia.
Qed.

(** X6: what [format(n, '0Wx')] writes, [int(_, 16)] reads back: for
    every integer [n], negative ones included, and every width; so for
    [format_job_id] of [utils/helper.py] and for the job id and time of
    a notification. *)
Theorem format_int16_round_trip width n :
  int16 (format_0x width n) = Ok n ∧ int16 (Helper.format_job_id n) = Ok n.
Proof. split; apply int16_format_any. Qed.

Lemma job_notification_fields job z :
  ntime job = NtInt z →
  ∃ f, job_notification job = Ok f
       ∧ frame_params f !! 0%nat = Some (PStr (format_0x 16 (job_id job)))
       ∧ frame_params f !! 7%nat = Some (PStr (format_0x 8 z)).
Proof.
  intros Hnt. unfold job_notification. rewrite Hnt. simpl.
  eexists. split; [reflexivity|]. split; reflexivity.
Qed.

(** X7: a miner that sends back the job id and the time of a
    notification, as the server wrote them, passes the three guards of
    [validate_share]: for every job held in a reachable pool the
    notification can be built, and a share carrying its first and eighth
    parameters is never answered 'Invalid job ID format', 'Job not
    found' or 'Time out of range'. *)
Theorem notified_fields_pass_the_guards st job :
  reachable st → job ∈ jobs st →
  ∃ f jid nt,
    job_notification job = Ok f
    ∧ frame_params f !! 0%nat = Some (PStr jid)
    ∧ frame_params f !! 7%nat = Some (PStr nt)
    ∧ ∀ sub, sub_job_id sub = jid → sub_ntime sub = nt →
        reaches_duplicate_check st sub
        ∧ ∀ now, (validate_share st now sub).2 ≠ Invalid InvalidJobIdFormat
                 ∧ (validate_share st now sub).2 ≠ Invalid JobNotFound
                 ∧ (validate_share st now sub).2 ≠ Invalid TimeOutOfRange.
Proof.
  intros Hreach Hin.
  destruct (RegistryProps.reachable_ok st Hreach) as [(_ & Hsorted & Hall & _) _].
  destruct (Hall job Hin) as (_ & _ & Hnt).
  destruct (job_notification_fields job _ Hnt) as (f & Hf & H0 & H7).
  exists f, (format_0x 16 (job_id job)), (format_0x 8 (curtime (template job))).
  repeat (split; [assumption|]).
  intros sub Hjid Hsnt.
  assert (Hr : reaches_duplicate_check st sub).
  { exists (job_id job), job, (curtime (template job)), (curtime (template job)).
    rewrite Hjid, Hsnt, !int16_format_any. unfold job_ntime. rewrite Hnt.
    repeat split; try reflexivity.
    - apply RegistryProps.find_job_held; assumption.
    - rewrite Z.sub_diag. simpl. lia. }
  split; [exact Hr|].
  intros now. pose proof (ShareProps.validate_share_shape st now sub) as Hshape.
  remember (validate_share st now sub).1 as st1 eqn:Hst1.
  remember (validate_share st now sub).2 as res eqn:Hres. clear Hst1 Hres.
  destruct Hshape as [r Hnot _ | _ _ | st' r _ _ _ _ Hres].
  - contradiction.
  - repeat split; discriminate.
  - destruct Hres as [->|[[e ->]|(bf & h & ->)]]; repeat split; discriminate.
Qed.

Lemma notified_fields_pass_the_guards_witness :
  ∃ f jid nt,
    job_notification Sample.job1 = Ok f
    ∧ frame_params f !! 0%nat = Some (PStr jid)
    ∧ frame_params f !! 7%nat = Some (PStr nt)
    ∧ ∀ sub, sub_job_id sub = jid → sub_ntime sub = nt →
        reaches_duplicate_check SampleMore.started sub
        ∧ ∀ now, (validate_share SampleMore.started now sub).2 ≠ Invalid InvalidJobIdFormat
                 ∧ (validate_share SampleMore.started now sub).2 ≠ Invalid JobNotFound
                 ∧ (validate_share SampleMore.started now sub).2 ≠ Invalid TimeOutOfRange.
Proof.
  apply (notified_fields_pass_the_guards SampleMore.started Sample.job1).
  - apply reach_template, reach_init.
  - vm_compute. left.
Defined.

End FormatProps.

(** ** What a share does to the books *)

Module AccountingProps.
Import Py Pool Predicates Invariants.

(** X8: an accepted share is counted once: the worker's [shares] grows
    by one, its [blocks_found] and the pool's by one exactly when a block
    was found, [last_share] is the clock reading, the address on record
    is the one of the worker's first accepted share; the key was absent
    and is stored; nothing else changes. *)
Theorem accepted_share_is_counted st now sub st' bf hash :
  validate_share st now sub = (st', Valid bf hash) →
  let old :=
    default (mkWorkerStats 0 0 now 0 (bitcoin_address sub))
            (worker_stats st !! worker_name sub) in
  worker_stats st'
  = <[worker_name sub :=
        mkWorkerStats (ws_shares old + 1) (ws_rejected old) now
          (ws_blocks_found old + (if bf then 1 else 0)) (ws_bitcoin_address old)]>
      (worker_stats st)
  ∧ blocks_found st' = blocks_found st + (if bf then 1 else 0)
  ∧ submitted_shares st !! share_key sub = None
  ∧ submitted_shares st' = <[share_key sub := now]> (submitted_shares st)
  ∧ jobs st' = jobs st ∧ miners st' = miners st
  ∧ current_job_id st' = current_job_id st ∧ current_block st' = current_block st.
Proof.
  intros H old. unfold validate_share in H.
  destruct (int16 (sub_job_id sub)) as [n|]; [|discriminate].
  destruct (find_job (jobs st) n) as [job|]; [|discriminate].
  destruct (bind (job_ntime job) _) as [[jn sn]|]; [|discriminate].
  destruct (Z.abs (jn - sn) >? 600); [discriminate|].
  case_bool_decide as Hdup; [discriminate|].
  destruct (check_share job sub) as [[[hh sv] bf']|]; [|discriminate].
  destruct sv; [|discriminate].
  injection H as <- <- _.
  assert (Hnone : submitted_shares st !! share_key sub = None).
  { destruct (submitted_shares st !! share_key sub) eqn:E; [|reflexivity].
    exfalso. apply Hdup. eauto. }
  subst old. unfold record_share, submit_block.
  destruct bf'; cbn; destruct (worker_stats st !! worker_name sub) as [w|];
    cbn; rewrite ?Z.add_0_r; repeat split; try reflexivity; assumption.
Qed.

Lemma accepted_share_is_counted_witness :
  ∃ st' s,
    validate_share Sample.state1 1700000010 (Sample.share "00000002" (PInt 0))
    = (st', Valid true "f0fa4480c716f82434bf5a6a3e6c188a79233e9b4f6a4234a22848cea427b223")
    ∧ worker_stats st' !! "tb1qworker" = Some s
    ∧ ws_shares s = 1 ∧ ws_blocks_found s = 1
    ∧ blocks_found st' = 1.
Proof.
  exists (validate_share Sample.state1 1700000010 (Sample.share "00000002" (PInt 0))).1.
  exists (mkWorkerStats 1 0 1700000010 1 "tb1qworker").
  assert (H : validate_share Sample.state1 1700000010 (Sample.share "00000002" (PInt 0))
              = ((validate_share Sample.state1 1700000010
                    (Sample.share "00000002" (PInt 0))).1,
                 Valid true "f0fa4480c716f82434bf5a6a3e6c188a79233e9b4f6a4234a22848cea427b223")).
  { vm_compute. reflexivity. }
  split; [exact H|].
  destruct (accepted_share_is_counted _ _ _ _ _ _ H) as (Hw & Hb & _).
  split; [rewrite Hw; vm_compute; reflexivity|].
  split; [reflexivity|]. split; [reflexivity|exact Hb].
Defined.

(** X9: a rejected share changes no statistics: the worker's entry, the
    block counter, the miners and the jobs are as before (so [rejected]
    stays zero); the four early rejections leave the whole state as it
    was, the others store the share key and nothing else. *)
Theorem rejected_share_changes_no_statistics st now sub r :
  (validate_share st now sub).2 = Invalid r →
  let st' := (validate_share st now sub).1 in
  worker_stats st' = worker_stats st ∧ blocks_found st' = blocks_found st
  ∧ miners st' = miners st ∧ jobs st' = jobs st
  ∧ (r = InvalidJobIdFormat ∨ r = JobNotFound ∨ r = TimeOutOfRange ∨ r = DuplicateShare
     → st' = st)
  ∧ (r = ShareAboveTarget
     → st' = set_submitted_shares st (<[share_key sub := now]> (submitted_shares st))).
Proof.
  unfold validate_share.
  destruct (int16 (sub_job_id sub)) as [n|].
  2:{ cbn. intros [= <-]. repeat split; try reflexivity. discriminate. }
  destruct (find_job (jobs st) n) as [job|].
  2:{ cbn. intros [= <-]. repeat split; try reflexivity. discriminate. }
  destruct (bind (job_ntime job) _) as [[jn sn]|e].
  2:{ cbn. intros [= <-]. repeat split; try reflexivity. discriminate. }
  destruct (Z.abs (jn - sn) >? 600).
  { cbn. intros [= <-]. repeat split; try reflexivity. discriminate. }
  case_bool_decide as Hdup.
  { cbn. intros [= <-]. repeat split; try reflexivity. discriminate. }
  destruct (check_share job sub) as [[[hh sv] bf']|e].
  2:{ cbn. intros [= <-]. repeat split; try reflexivity.
      intros [H|[H|[H|H]]]; discriminate. }
  destruct sv; [discriminate|].
  cbn. intros [= <-]. repeat split; try reflexivity.
  intros [H|[H|[H|H]]]; discriminate.
Qed.

Lemma rejected_share_changes_no_statistics_witness :
  (validate_share Sample.state1 0 (Sample.share_at "6553f359")).1 = Sample.state1.
Proof.
  apply (rejected_share_changes_no_statistics Sample.state1 0 (Sample.share_at "6553f359")
           TimeOutOfRange).
  - vm_compute. reflexivity.
  - right. right. left. reflexivity.
Defined.

(** *** A difficulty of zero or less *)

Lemma sha256_range msg : Forall (fun x => 0 <= x < 256) (Sha256.sha256 msg).
Proof.
  unfold Sha256.sha256. cbv zeta.
  generalize (Sha256.blocks (length (Sha256.words (Sha256.pad msg))) Sha256.H0
                (Sha256.words (Sha256.pad msg))).
  intros st. induction st as [|w r IH]; [constructor|].
  cbn [map concat]. apply Forall_app. split; [|exact IH].
  apply Forall_rev, HexProps.le_octets_range.
Qed.

Lemma int_from_bytes_le_bound b :
  Forall (fun x => 0 <= x < 256) b →
  0 <= int_from_bytes_le b < 256 ^ Z.of_nat (length b).
Proof.
  induction 1 as [|x r Hx Hr IH]; [simpl; lia|].
  cbn [int_from_bytes_le length]. rewrite Nat2Z.inj_succ, Z.pow_succ_r by lia. lia.
Qed.

Lemma hash_below_2_256 data : int_from_bytes_le (double_sha256 data) <= 2 ^ 256 - 1.
Proof.
  unfold double_sha256.
  pose proof (int_from_bytes_le_bound _ (sha256_range (Sha256.sha256 data))) as H.
  rewrite ShareProps.sha256_length in H.
  change (256 ^ Z.of_nat 32) with (2 ^ 256) in H. lia.
Qed.

Lemma check_share_nonpositive job sub hh sv bf :
  le_zero (current_difficulty job sub) = Ok true →
  check_share job sub = Ok (hh, sv, bf) → sv = true.
Proof.
  intros Hle. unfold check_share, header_hash.
  destruct (block_header_be job sub) as [hdr|]; [|discriminate]. simpl.
  unfold difficulty_to_target. rewrite Hle. simpl.
  destruct (bits_to_target (nbits job)) as [nt|]; [|discriminate]. simpl.
  destruct (int_le _ nt) as [b|]; [|discriminate]. simpl.
  intros [= <- <- <-]. apply Z.leb_le, hash_below_2_256.
Qed.

(** 'Share above target' is given only under a difficulty for which
    [difficulty <= 0] does not hold. *)
Lemma above_target_only_if st now sub :
  (validate_share st now sub).2 = Invalid ShareAboveTarget →
  le_zero (difficulty sub) ≠ Ok true.
Proof.
  intros H Hle. revert H. unfold validate_share.
  destruct (int16 (sub_job_id sub)) as [n|]; [|discriminate].
  destruct (find_job (jobs st) n) as [job|]; [|discriminate].
  destruct (bind (job_ntime job) _) as [[jn sn]|e]; [|discriminate].
  destruct (Z.abs (jn - sn) >? 600); [discriminate|].
  case_bool_decide as Hdup; [discriminate|].
  destruct (check_share job sub) as [[[hh sv] bf']|e] eqn:Hchk; [|discriminate].
  assert (sv = true) as ->; [|discriminate].
  apply (check_share_nonpositive job sub hh sv bf'); [|exact Hchk].
  unfold current_difficulty. destruct (difficulty sub); try exact Hle. discriminate.
Qed.

(** X10: with a difficulty of zero or less ([difficulty <= 0] holds)
    every hash is at or below the pool target [2^256 - 1]: such a share
    is never answered 'Share above target', whatever its nonce. *)
Theorem nonpositive_difficulty_never_above_target st now sub :
  le_zero (difficulty sub) = Ok true →
  (validate_share st now sub).2 ≠ Invalid ShareAboveTarget.
Proof. intros Hle H. exact (above_target_only_if st now sub H Hle). Qed.

Lemma nonpositive_difficulty_never_above_target_witness :
  (validate_share Sample.state1 10 (Sample.share "00000002" (PInt 0))).2
  ≠ Invalid ShareAboveTarget.
Proof.
  apply (nonpositive_difficulty_never_above_target Sample.state1 10
           (Sample.share "00000002" (PInt 0))).
  vm_compute. reflexivity.
Defined.

End AccountingProps.

(** ** The coinbase halves *)

Module CoinbaseProps.
Import Py Pool Predicates Invariants.

Lemma struct_pack_le_inv n v b :
  struct_pack_le n v = Ok b → 0 <= v < 2 ^ (8 * Z.of_nat n) ∧ b = le_octets n v.
Proof.
  unfold struct_pack_le.
  destruct (Z.leb_spec 0 v), (Z.ltb_spec v (2 ^ (8 * Z.of_nat n))); simpl;
    try discriminate.
  intros [= <-]. split; [lia|reflexivity].
Qed.

Lemma struct_pack_le_ok n v :
  0 <= v < 2 ^ (8 * Z.of_nat n) → struct_pack_le n v = Ok (le_octets n v).
Proof.
  intros H. unfold struct_pack_le.
  replace ((0 <=? v) && (v <? 2 ^ (8 * Z.of_nat n))) with true; [reflexivity|].
  symmetry. apply andb_true_iff. split; [apply Z.leb_le|apply Z.ltb_lt]; lia.
Qed.

Lemma bytes_of_ints_inv l b :
  bytes_of_ints l = Ok b → b = l ∧ octets l.
Proof.
  unfold bytes_of_ints. destruct (forallb _ l) eqn:E; [|discriminate].
  intros [= <-]. split; [reflexivity|].
  apply Forall_forall. intros x Hx.
  rewrite forallb_forall in E. specialize (E x (proj1 (list_elem_of_In _ _) Hx)).
  cbv beta in E. apply andb_true_iff in E. destruct E as [E1 E2].
  apply Z.leb_le in E1. apply Z.ltb_lt in E2. lia.
Qed.

Lemma packed_octets k n b (tag : Z) :
  0 <= tag < 256 →
  match struct_pack_le k n with Ok b => Ok (tag :: b) | Raise e => Raise e end = Ok b →
  0 <= n < 2 ^ (8 * Z.of_nat k) ∧ b = tag :: le_octets k n ∧ octets b
  ∧ length b = S k.
Proof.
  intros Htag. destruct (struct_pack_le k n) as [p|] eqn:E; [|discriminate].
  apply struct_pack_le_inv in E. destruct E as [Hr ->]. intros [= <-].
  split; [exact Hr|]. split; [reflexivity|]. split.
  - constructor; [exact Htag|apply HexProps.le_octets_range].
  - simpl. rewrite SerNumberProps.le_octets_length. reflexivity.
Qed.

(** [ser_number] returns exactly on [0 .. 2^64 - 1], between one and
    nine octets. *)
Lemma ser_number_inv n b :
  ser_number n = Ok b →
  0 <= n < 2 ^ 64 ∧ octets b ∧ (1 <= length b <= 9)%nat.
Proof.
  unfold ser_number.
  destruct (Z.ltb_spec n 1).
  { intros H'. apply bytes_of_ints_inv in H'. destruct H' as [-> Ho].
    inversion Ho; subst. repeat split; try assumption; simpl; lia. }
  destruct (Z.leb_spec n 0xff).
  { intros H'. apply bytes_of_ints_inv in H'. destruct H' as [-> Ho].
    repeat split; try assumption; simpl; lia. }
  destruct (Z.leb_spec n 0xffff).
  { intros H'. apply packed_octets in H'; [|lia]. destruct H' as (_ & _ & Ho & Hl).
    rewrite Hl. repeat split; try assumption; lia. }
  destruct (Z.leb_spec n 0xffffffff).
  { intros H'. apply packed_octets in H'; [|lia]. destruct H' as (_ & _ & Ho & Hl).
    rewrite Hl. repeat split; try assumption; lia. }
  destruct (Z.leb_spec n 0xffffffffffffffff).
  { intros H'. apply packed_octets in H'; [|lia]. destruct H' as (_ & _ & Ho & Hl).
    rewrite Hl. repeat split; try assumption; lia. }
  intros H'. apply packed_octets in H'; [|lia]. destruct H' as (Hr & _).
  change (2 ^ (8 * Z.of_nat 8)) with 18446744073709551616 in Hr. lia.
Qed.

Lemma ser_number_total n : 0 <= n < 2 ^ 64 → ∃ b, ser_number n = Ok b.
Proof.
  intros Hn. unfold ser_number.
  destruct (Z.ltb_spec n 1).
  { assert (n = 0) as -> by lia. eexists. reflexivity. }
  destruct (Z.leb_spec n 0xff).
  { unfold bytes_of_ints. cbn [forallb].
    replace ((0 <=? n) && (n <? 256)) with true; [eexists; reflexivity|].
    symmetry. apply andb_true_iff. split; [apply Z.leb_le|apply Z.ltb_lt]; lia. }
  destruct (Z.leb_spec n 0xffff).
  { rewrite struct_pack_le_ok; [eexists; reflexivity|].
    change (2 ^ (8 * Z.of_nat 2)) with 65536. lia. }
  destruct (Z.leb_spec n 0xffffffff).
  { rewrite struct_pack_le_ok; [eexists; reflexivity|].
    change (2 ^ (8 * Z.of_nat 4)) with 4294967296. lia. }
  destruct (Z.leb_spec n 0xffffffffffffffff).
  { rewrite struct_pack_le_ok; [eexists; reflexivity|].
    change (2 ^ (8 * Z.of_nat 8)) with 18446744073709551616. lia. }
  lia.
Qed.

(** The same for [encode_varint], with the length fixed by the first
    octet. *)
Lemma encode_varint_inv n b :
  encode_varint n = Ok b →
  0 <= n < 2 ^ 64 ∧ octets b
  ∧ ((n < 0xfd ∧ b = [n])
     ∨ (0xfd <= n <= 0xffff ∧ b = 0xfd :: le_octets 2 n)
     ∨ (0xffff < n <= 0xffffffff ∧ b = 0xfe :: le_octets 4 n)
     ∨ (0xffffffff < n ∧ b = 0xff :: le_octets 8 n)).
Proof.
  unfold encode_varint.
  destruct (Z.ltb_spec n 0xfd).
  { intros H'. apply bytes_of_ints_inv in H'. destruct H' as [-> Ho].
    inversion Ho; subst. split; [lia|]. split; [assumption|]. left. split; [lia|reflexivity]. }
  destruct (Z.leb_spec n 0xffff).
  { intros H'. apply packed_octets in H'; [|lia]. destruct H' as (_ & -> & Ho & _).
    split; [lia|]. split; [assumption|]. right. left. split; [lia|reflexivity]. }
  destruct (Z.leb_spec n 0xffffffff).
  { intros H'. apply packed_octets in H'; [|lia]. destruct H' as (_ & -> & Ho & _).
    split; [lia|]. split; [assumption|]. right. right. left. split; [lia|reflexivity]. }
  intros H'. apply packed_octets in H'; [|lia]. destruct H' as (Hr & -> & Ho & _).
  change (2 ^ (8 * Z.of_nat 8)) with 18446744073709551616 in Hr.
  split; [lia|]. split; [assumption|]. right. right. right. split; [lia|reflexivity].
Qed.

Lemma encode_varint_total n : 0 <= n < 2 ^ 64 → ∃ b, encode_varint n = Ok b.
Proof.
  intros Hn. unfold encode_varint.
  destruct (Z.ltb_spec n 0xfd).
  { unfold bytes_of_ints. cbn [forallb].
    replace ((0 <=? n) && (n <? 256)) with true; [eexists; reflexivity|].
    symmetry. apply andb_true_iff. split; [apply Z.leb_le|apply Z.ltb_lt]; lia. }
  destruct (Z.leb_spec n 0xffff).
  { rewrite struct_pack_le_ok; [eexists; reflexivity|].
    change (2 ^ (8 * Z.of_nat 2)) with 65536. lia. }
  destruct (Z.leb_spec n 0xffffffff).
  { rewrite struct_pack_le_ok; [eexists; reflexivity|].
    change (2 ^ (8 * Z.of_nat 4)) with 4294967296. lia. }
  rewrite struct_pack_le_ok; [eexists; reflexivity|].
  change (2 ^ (8 * Z.of_nat 8)) with 18446744073709551616. lia.
Qed.

(** The little-endian octets determine the number they were cut from. *)
Lemma int_from_le_octets k : ∀ v,
  0 <= v < 2 ^ (8 * Z.of_nat k) → int_from_bytes_le (le_octets k v) = v.
Proof.
  induction k as [|k IH]; intros v Hv.
  - simpl in *. lia.
  - cbn [le_octets int_from_bytes_le].
    rewrite Nat2Z.inj_succ, Z.mul_succ_r, Z.pow_add_r in Hv by lia.
    change (2 ^ 8) with 256 in Hv.
    rewrite IH.
    + pose proof (Z.div_mod v 256). lia.
    + split; [apply Z.div_pos; lia|]. apply Z.div_lt_upper_bound; lia.
Qed.

(** X11: [encode_varint] returns exactly for [0 <= n < 2^64] (a
    negative number is a [ValueError], a larger one a [struct.error]),
    its result has 1, 3, 5 or 9 octets, and two numbers with the same
    encoding are equal. *)
Theorem encode_varint_defined_and_injective :
  (∀ n, (∃ b, encode_varint n = Ok b) ↔ 0 <= n < 2 ^ 64)
  ∧ (∀ n b, encode_varint n = Ok b →
       length b = if n <? 0xfd then 1%nat else if n <=? 0xffff then 3%nat
                  else if n <=? 0xffffffff then 5%nat else 9%nat)
  ∧ (∀ n m b, encode_varint n = Ok b → encode_varint m = Ok b → n = m).
Proof.
  split; [|split].
  - intros n. split; [|apply encode_varint_total].
    intros [b H]. apply encode_varint_inv in H. tauto.
  - intros n b H. apply encode_varint_inv in H.
    destruct H as (_ & _ & [[Hr ->]|[[Hr ->]|[[Hr ->]|[Hr ->]]]]).
    + replace (n <? 0xfd) with true by (symmetry; apply Z.ltb_lt; lia). reflexivity.
    + replace (n <? 0xfd) with false by (symmetry; apply Z.ltb_ge; lia).
      replace (n <=? 0xffff) with true by (symmetry; apply Z.leb_le; lia). reflexivity.
    + replace (n <? 0xfd) with false by (symmetry; apply Z.ltb_ge; lia).
      replace (n <=? 0xffff) with false by (symmetry; apply Z.leb_gt; lia).
      replace (n <=? 0xffffffff) with true by (symmetry; apply Z.leb_le; lia). reflexivity.
    + replace (n <? 0xfd) with false by (symmetry; apply Z.ltb_ge; lia).
      replace (n <=? 0xffff) with false by (symmetry; apply Z.leb_gt; lia).
      replace (n <=? 0xffffffff) with false by (symmetry; apply Z.leb_gt; lia). reflexivity.
  - intros n m b Hn Hm.
    apply encode_varint_inv in Hn. apply encode_varint_inv in Hm.
    destruct Hn as (Hn64 & _ & Hn), Hm as (Hm64 & _ & Hm).
    assert (H2 : ∀ v, 0 <= v <= 0xffff → int_from_bytes_le (le_octets 2 v) = v).
    { intros v Hv. apply int_from_le_octets.
      change (2 ^ (8 * Z.of_nat 2)) with 65536. lia. }
    assert (H4 : ∀ v, 0 <= v <= 0xffffffff → int_from_bytes_le (le_octets 4 v) = v).
    { intros v Hv. apply int_from_le_octets.
      change (2 ^ (8 * Z.of_nat 4)) with 4294967296. lia. }
    assert (H8 : ∀ v, 0 <= v < 2 ^ 64 → int_from_bytes_le (le_octets 8 v) = v).
    { intros v Hv. apply int_from_le_octets.
      change (2 ^ (8 * Z.of_nat 8)) with (2 ^ 64). lia. }
    destruct Hn as [[Hr ->]|[[Hr ->]|[[Hr ->]|[Hr ->]]]];
      destruct Hm as [[Hr' E]|[[Hr' E]|[[Hr' E]|[Hr' E]]]];
      try (injection E as E; lia); try discriminate E;
      apply (f_equal (fun l => int_from_bytes_le (tail l))) in E; cbn [tail] in E.
    + rewrite !H2 in E by lia. exact E.
    + rewrite !H4 in E by lia. exact E.
    + rewrite !H8 in E by lia. exact E.
Qed.

Lemma encode_varint_defined_and_injective_witness :
  (∃ b, encode_varint 300 = Ok b) ∧ ¬ (∃ b, encode_varint (-1) = Ok b)
  ∧ ¬ (∃ b, encode_varint (2 ^ 64) = Ok b).
Proof.
  destruct encode_varint_defined_and_injective as (Hdef & _ & _).
  split; [apply Hdef; lia|].
  split; intros H; apply Hdef in H; lia.
Defined.

(** *** [ser_number] on its whole domain *)

Lemma ser_number_shape n b :
  ser_number n = Ok b →
  (n = 0 ∧ b = [0])
  ∨ (1 <= n <= 0xff ∧ b = [1; n])
  ∨ (0xff < n <= 0xffff ∧ b = 2 :: le_octets 2 n)
  ∨ (0xffff < n <= 0xffffffff ∧ b = 3 :: le_octets 4 n)
  ∨ (0xffffffff < n < 2 ^ 64 ∧ b = 4 :: le_octets 8 n).
Proof.
  unfold ser_number.
  destruct (Z.ltb_spec n 1).
  { intros H'. apply bytes_of_ints_inv in H'. destruct H' as [-> Ho].
    inversion Ho; subst. left. split; [lia|]. f_equal. lia. }
  destruct (Z.leb_spec n 0xff).
  { intros H'. apply bytes_of_ints_inv in H'. destruct H' as [-> _].
    right. left. split; [lia|reflexivity]. }
  destruct (Z.leb_spec n 0xffff).
  { intros H'. apply packed_octets in H'; [|lia]. destruct H' as (_ & -> & _).
    right. right. left. split; [lia|reflexivity]. }
  destruct (Z.leb_spec n 0xffffffff).
  { intros H'. apply packed_octets in H'; [|lia]. destruct H' as (_ & -> & _).
    right. right. right. left. split; [lia|reflexivity]. }
  destruct (Z.leb_spec n 0xffffffffffffffff).
  { intros H'. apply packed_octets in H'; [|lia]. destruct H' as (_ & -> & _).
    right. right. right. right. split; [lia|reflexivity]. }
  intros H'. apply packed_octets in H'; [|lia]. destruct H' as (Hr & _).
  change (2 ^ (8 * Z.of_nat 8)) with 18446744073709551616 in Hr. lia.
Qed.

Lemma ser_number_payload n b :
  ser_number n = Ok b → 1 <= n →
  ∃ prefix payload,
    b = prefix :: payload ∧ int_from_bytes_le payload = n
    ∧ ((prefix = 1 ∧ length payload = 1%nat) ∨ (prefix = 2 ∧ length payload = 2%nat)
       ∨ (prefix = 3 ∧ length payload = 4%nat) ∨ (prefix = 4 ∧ length payload = 8%nat)).
Proof.
  intros H Hn. apply ser_number_shape in H.
  destruct H as [[H0 _]|[[Hr ->]|[[Hr ->]|[[Hr ->]|[Hr ->]]]]]; [lia| | | |].
  - exists 1, [n]. split; [reflexivity|]. split; [simpl; lia|]. left. split; reflexivity.
  - exists 2, (le_octets 2 n). split; [reflexivity|]. split.
    + apply int_from_le_octets. change (2 ^ (8 * Z.of_nat 2)) with 65536. lia.
    + right. left. split; [reflexivity|apply SerNumberProps.le_octets_length].
  - exists 3, (le_octets 4 n). split; [reflexivity|]. split.
    + apply int_from_le_octets. change (2 ^ (8 * Z.of_nat 4)) with 4294967296. lia.
    + right. right. left. split; [reflexivity|apply SerNumberProps.le_octets_length].
  - exists 4, (le_octets 8 n). split; [reflexivity|]. split.
    + apply int_from_le_octets. change (2 ^ (8 * Z.of_nat 8)) with (2 ^ 64). lia.
    + right. right. right. split; [reflexivity|apply SerNumberProps.le_octets_length].
Qed.

(** X24: [ser_number] returns exactly for [0 <= n < 2^64]; zero is the
    single octet 0, and for [n >= 1] the result is a prefix octet 1, 2,
    3 or 4 followed by 1, 2, 4 or 8 octets that hold [n] little-endian;
    so two numbers with the same serialization are equal. *)
Theorem ser_number_defined_and_decodable :
  (∀ n, (∃ b, ser_number n = Ok b) ↔ 0 <= n < 2 ^ 64)
  ∧ ser_number 0 = Ok [0]
  ∧ (∀ n b, ser_number n = Ok b → 1 <= n →
       ∃ prefix payload,
         b = prefix :: payload ∧ int_from_bytes_le payload = n
         ∧ ((prefix = 1 ∧ length payload = 1%nat) ∨ (prefix = 2 ∧ length payload = 2%nat)
            ∨ (prefix = 3 ∧ length payload = 4%nat) ∨ (prefix = 4 ∧ length payload = 8%nat)))
  ∧ (∀ n m b, ser_number n = Ok b → ser_number m = Ok b → n = m).
Proof.
  split; [|split; [reflexivity|split; [exact ser_number_payload|]]].
  - intros n. split; [|apply ser_number_total].
    intros [b H]. apply ser_number_inv in H. tauto.
  - intros n m b Hn Hm.
    destruct (ser_number_inv _ _ Hn) as [Hn0 _], (ser_number_inv _ _ Hm) as [Hm0 _].
    destruct (Z.eq_dec n 0) as [->|Hnz], (Z.eq_dec m 0) as [->|Hmz].
    + reflexivity.
    + exfalso. injection Hn as <-.
      destruct (ser_number_payload _ _ Hm) as (p & pl & E & _ & Hp); [lia|].
      injection E as <- _. lia.
    + exfalso. injection Hm as <-.
      destruct (ser_number_payload _ _ Hn) as (p & pl & E & _ & Hp); [lia|].
      injection E as <- _. lia.
    + destruct (ser_number_payload _ _ Hn) as (p & pl & -> & Hdn & _); [lia|].
      destruct (ser_number_payload _ _ Hm) as (p' & pl' & E & Hdm & _); [lia|].
      injection E as _ <-. lia.
Qed.

Lemma ser_number_defined_and_decodable_witness :
  (∃ b, ser_number 2500000 = Ok b) ∧ ¬ (∃ b, ser_number (-1) = Ok b)
  ∧ ¬ (∃ b, ser_number (2 ^ 64) = Ok b).
Proof.
  destruct ser_number_defined_and_decodable as (Hdef & _).
  split; [apply Hdef; lia|].
  split; intros H; apply Hdef in H; lia.
Defined.

(** *** [create_coinbase_tx] *)

(** What the function returns, spelled out: the header with its last
    octet replaced by the script length, and the second half. *)
Lemma create_coinbase_tx_layout now nsec spk height reward cb :
  create_coinbase_tx now nsec spk height reward = Ok cb →
  ∃ hb tb nb spkb lb,
    ser_number height = Ok hb ∧ ser_number now = Ok tb ∧ ser_number nsec = Ok nb
    ∧ 0 <= reward < 2 ^ 64 ∧ fromhex spk = Ok spkb
    ∧ encode_varint (Z.of_nat (length spkb)) = Ok lb
    ∧ cb = (hex (take 41 scriptsig_header
                 ++ [Z.of_nat (length (hb ++ [20] ++ flags ++ tb ++ nb ++ [8])) + 7]
                 ++ hb ++ [20] ++ flags ++ tb ++ nb ++ [8]),
            hex (pool_sig ++ [255; 255; 255; 255; 1] ++ le_octets 8 reward ++ lb
                 ++ spkb ++ [0; 0; 0; 0])).
Proof.
  unfold create_coinbase_tx.
  destruct (ser_number height) as [hb|] eqn:Hh; [|discriminate].
  destruct (ser_number now) as [tb|] eqn:Ht; [|discriminate].
  destruct (ser_number nsec) as [nb|] eqn:Hn; [|discriminate].
  cbn [mbind result_bind bind].
  destruct (ser_number_inv _ _ Hh) as (_ & _ & Hlh).
  destruct (ser_number_inv _ _ Ht) as (_ & _ & Hlt).
  destruct (ser_number_inv _ _ Hn) as (_ & _ & Hln).
  set (tail := hb ++ [Z.of_nat (length flags)] ++ flags ++ tb ++ nb
               ++ [enonce1varlen + enonce2varlen]).
  assert (Hlen : length tail = (length hb + 21 + length tb + length nb + 1)%nat).
  { unfold tail. rewrite !length_app. simpl. lia. }
  assert (Hall : length (scriptsig_header ++ tail) = (42 + length tail)%nat).
  { rewrite length_app. reflexivity. }
  rewrite Hall. unfold bytearray_set.
  change (length scriptsig_header - 1)%nat with 41%nat.
  replace (Z.of_nat (42 + length tail) - Z.of_nat 41 - 1 + enonce1varlen + enonce2varlen - 1)
    with (Z.of_nat (length tail) + 7) by (unfold enonce1varlen, enonce2varlen; lia).
  replace ((0 <=? Z.of_nat (length tail) + 7) && (Z.of_nat (length tail) + 7 <? 256))
    with true
    by (symmetry; apply andb_true_iff; split; [apply Z.leb_le|apply Z.ltb_lt]; lia).
  replace (41 <? 42 + length tail)%nat with true
    by (symmetry; apply Nat.ltb_lt; lia).
  cbn [mbind result_bind bind].
  destruct (struct_pack_le 8 reward) as [rb|] eqn:Hr;
    cbn [mbind result_bind bind]; [|discriminate].
  apply struct_pack_le_inv in Hr. destruct Hr as [Hr ->].
  change (2 ^ (8 * Z.of_nat 8)) with (2 ^ 64) in Hr.
  destruct (fromhex spk) as [spkb|] eqn:Hs;
    cbn [mbind result_bind bind]; [|discriminate].
  destruct (encode_varint (Z.of_nat (length spkb))) as [lb|] eqn:Hv;
    cbn [mbind result_bind bind mret result_ret]; [|discriminate].
  intros [= <-].
  exists hb, tb, nb, spkb, lb. repeat (split; [assumption || reflexivity|]).
  reflexivity.
Qed.

Lemma octets_app a b : octets a → octets b → octets (a ++ b).
Proof. intros Ha Hb. apply Forall_app. split; assumption. Qed.

Lemma octets_literal l :
  forallb (fun v => (0 <=? v) && (v <? 256)) l = true → octets l.
Proof.
  intros E. apply Forall_forall. intros x Hx.
  rewrite forallb_forall in E. specialize (E x (proj1 (list_elem_of_In _ _) Hx)).
  cbv beta in E. apply andb_true_iff in E. destruct E as [E1 E2].
  apply Z.leb_le in E1. apply Z.ltb_lt in E2. lia.
Qed.

(** X12: [create_coinbase_tx] returns exactly when the height, the two
    clock values and the reward lie in [0, 2^64) and the script of the
    pool address is hexadecimal (of fewer than [2^64] octets); otherwise
    it raises. *)
Theorem create_coinbase_tx_defined now nsec spk height reward :
  (∃ cb, create_coinbase_tx now nsec spk height reward = Ok cb)
  ↔ 0 <= height < 2 ^ 64 ∧ 0 <= now < 2 ^ 64 ∧ 0 <= nsec < 2 ^ 64
    ∧ 0 <= reward < 2 ^ 64
    ∧ ∃ b, fromhex spk = Ok b ∧ Z.of_nat (length b) < 2 ^ 64.
Proof.
  split.
  - intros [cb H]. apply create_coinbase_tx_layout in H.
    destruct H as (hb & tb & nb & spkb & lb & Hh & Ht & Hn & Hr & Hs & Hv & _).
    apply ser_number_inv in Hh, Ht, Hn. apply encode_varint_inv in Hv.
    repeat (split; [tauto|]). exists spkb. split; [assumption|lia].
  - intros (Hh & Ht & Hn & Hr & b & Hs & Hb).
    destruct (ser_number_total _ Hh) as [hb Hhb].
    destruct (ser_number_total _ Ht) as [tb Htb].
    destruct (ser_number_total _ Hn) as [nb Hnb].
    destruct (encode_varint_total (Z.of_nat (length b))) as [lb Hlb]; [lia|].
    destruct (ser_number_inv _ _ Hhb) as (_ & _ & Hlh).
    destruct (ser_number_inv _ _ Htb) as (_ & _ & Hlt).
    destruct (ser_number_inv _ _ Hnb) as (_ & _ & Hln).
    unfold create_coinbase_tx. rewrite Hhb, Htb, Hnb.
    cbn [mbind result_bind bind].
    set (tail := hb ++ [Z.of_nat (length flags)] ++ flags ++ tb ++ nb
                 ++ [enonce1varlen + enonce2varlen]).
    assert (Hlen : length tail = (length hb + 21 + length tb + length nb + 1)%nat).
    { unfold tail. rewrite !length_app. simpl. lia. }
    assert (Hall : length (scriptsig_header ++ tail) = (42 + length tail)%nat).
    { rewrite length_app. reflexivity. }
    rewrite Hall. unfold bytearray_set.
    change (length scriptsig_header - 1)%nat with 41%nat.
    replace ((0 <=? Z.of_nat (42 + length tail) - Z.of_nat 41 - 1 + enonce1varlen
                    + enonce2varlen - 1)
             && (Z.of_nat (42 + length tail) - Z.of_nat 41 - 1 + enonce1varlen
                 + enonce2varlen - 1 <? 256))
      with true
      by (symmetry; apply andb_true_iff; unfold enonce1varlen, enonce2varlen;
          split; [apply Z.leb_le|apply Z.ltb_lt]; lia).
    replace (41 <? 42 + length tail)%nat with true
      by (symmetry; apply Nat.ltb_lt; lia).
    rewrite struct_pack_le_ok by (change (2 ^ (8 * Z.of_nat 8)) with (2 ^ 64); lia).
    cbn [mbind result_bind bind]. rewrite Hs.
    cbn [mbind result_bind bind]. rewrite Hlb. eexists. reflexivity.
Qed.

Lemma create_coinbase_tx_defined_witness :
  ∃ cb, create_coinbase_tx 1700000000 123456789 Sample.script1 2500000 5000000000 = Ok cb.
Proof.
  apply (proj2 (create_coinbase_tx_defined 1700000000 123456789 Sample.script1
                  2500000 5000000000)).
  repeat (split; [lia|]).
  exists (default [] (match fromhex Sample.script1 with Ok b => Some b | Raise _ => None end)).
  split; [vm_compute; reflexivity|vm_compute; reflexivity].
Defined.

(** The two halves are octet strings in hexadecimal. *)
Lemma coinbase_halves now nsec spk height reward cb1 cb2 :
  create_coinbase_tx now nsec spk height reward = Ok (cb1, cb2) →
  ∃ tail b2,
    cb1 = hex (take 41 scriptsig_header ++ [Z.of_nat (length tail) + 7] ++ tail)
    ∧ cb2 = hex (pool_sig ++ [255; 255; 255; 255; 1] ++ b2)
    ∧ octets tail ∧ octets b2 ∧ (25 <= length tail <= 49)%nat
    ∧ last tail = Some 8.
Proof.
  intros H. apply create_coinbase_tx_layout in H.
  destruct H as (hb & tb & nb & spkb & lb & Hh & Ht & Hn & Hr & Hs & Hv & [= -> ->]).
  apply ser_number_inv in Hh, Ht, Hn. apply encode_varint_inv in Hv.
  destruct Hh as (_ & Hoh & Hlh), Ht as (_ & Hot & Hlt), Hn as (_ & Hon & Hln).
  destruct Hv as (_ & Hol & _).
  exists (hb ++ [20] ++ flags ++ tb ++ nb ++ [8]),
         (le_octets 8 reward ++ lb ++ spkb ++ [0; 0; 0; 0]).
  split; [reflexivity|]. split; [reflexivity|].
  split; [|split; [|split]].
  - repeat apply octets_app; try assumption; apply octets_literal; reflexivity.
  - repeat apply octets_app; try assumption.
    + apply HexProps.le_octets_range.
    + apply (HexProps.fromhex_range _ _ Hs).
    + apply octets_literal; reflexivity.
  - rewrite !length_app. simpl. lia.
  - rewrite !app_assoc. apply last_snoc.
Qed.

Lemma coinbase_decodes now nsec spk height reward cb1 cb2 :
  create_coinbase_tx now nsec spk height reward = Ok (cb1, cb2) →
  ∃ b1 b2, fromhex cb1 = Ok b1 ∧ fromhex cb2 = Ok b2.
Proof.
  intros H. apply coinbase_halves in H.
  destruct H as (tail & b2 & -> & -> & Hot & Ho2 & Hlen & Hlast).
  eexists _, _. split.
  - apply HexProps.fromhex_hex_in_range.
    repeat apply octets_app; try assumption.
    + apply octets_literal. reflexivity.
    + apply octets_literal. cbn [forallb]. rewrite andb_true_r.
      apply andb_true_iff; split; [apply Z.leb_le|apply Z.ltb_lt]; lia.
  - apply HexProps.fromhex_hex_in_range.
    repeat apply octets_app; try assumption; apply octets_literal; reflexivity.
Qed.

(** X13: the script-length octet of the coinbase ([coinbase1], octet
    41) is the number of octets that follow it in [coinbase1] plus
    seven, whatever the extranonces and the pool signature measure; the
    octets before it are the fixed header, the last octet of
    [coinbase1] is 8, and [coinbase2] starts with the nine octets of the
    pool signature followed by the sequence and the output count. *)
Theorem coinbase_script_length_octet now nsec spk height reward cb1 cb2 :
  create_coinbase_tx now nsec spk height reward = Ok (cb1, cb2) →
  ∃ b1 b2,
    fromhex cb1 = Ok b1 ∧ fromhex cb2 = Ok b2
    ∧ b1 !! 41%nat = Some (Z.of_nat (length b1) - 42 + 7)
    ∧ take 41 b1 = take 41 scriptsig_header
    ∧ last b1 = Some 8
    ∧ (67 <= length b1 <= 91)%nat
    ∧ take 14 b2 = pool_sig ++ [255; 255; 255; 255; 1].
Proof.
  intros H. apply coinbase_halves in H.
  destruct H as (tail & b2 & -> & -> & Hot & Ho2 & Hlen & Hlast).
  eexists _, _.
  split.
  { apply HexProps.fromhex_hex_in_range.
    repeat apply octets_app; try assumption.
    - apply octets_literal. reflexivity.
    - apply octets_literal. cbn [forallb]. rewrite andb_true_r.
      apply andb_true_iff; split; [apply Z.leb_le|apply Z.ltb_lt]; lia. }
  split.
  { apply HexProps.fromhex_hex_in_range.
    repeat apply octets_app; try assumption; apply octets_literal; reflexivity. }
  split; [|split; [|split; [|split]]].
  - change (take 41 scriptsig_header ++ [Z.of_nat (length tail) + 7] ++ tail)
      with (take 41 scriptsig_header ++ (Z.of_nat (length tail) + 7) :: tail).
    replace (Z.of_nat (length (take 41 scriptsig_header
                               ++ (Z.of_nat (length tail) + 7) :: tail)) - 42 + 7)
      with (Z.of_nat (length tail) + 7).
    + apply list_lookup_middle. reflexivity.
    + rewrite length_app. cbn [length].
      change (length (take 41 scriptsig_header)) with 41%nat. lia.
  - rewrite take_app_length' by reflexivity. reflexivity.
  - destruct tail as [|t0 tl] using rev_ind; [discriminate|].
    rewrite last_snoc in Hlast. injection Hlast as ->.
    rewrite !app_assoc. apply last_snoc.
  - rewrite !length_app.
    change (length (take 41 scriptsig_header)) with 41%nat.
    change (length [Z.of_nat (length tail) + 7]) with 1%nat. lia.
  - reflexivity.
Qed.

Lemma coinbase_script_length_octet_witness :
  ∃ b1 b2,
    fromhex (coinbase1 Sample.job1) = Ok b1 ∧ fromhex (coinbase2 Sample.job1) = Ok b2
    ∧ b1 !! 41%nat = Some (Z.of_nat (length b1) - 42 + 7)
    ∧ take 41 b1 = take 41 scriptsig_header
    ∧ last b1 = Some 8
    ∧ (67 <= length b1 <= 91)%nat
    ∧ take 14 b2 = pool_sig ++ [255; 255; 255; 255; 1].
Proof.
  apply (coinbase_script_length_octet 1700000000 123456789 Sample.script1
           2500000 5000000000).
  vm_compute. reflexivity.
Defined.

End CoinbaseProps.

(** ** Jobs as [create_stratum_job] builds them *)

Module JobProps.
Import Py Pool Predicates Invariants.

Lemma octets_nth (level : list bytes) : ∀ i,
  Forall octets level → octets (nth i level []).
Proof.
  induction level as [|x r IH]; intros i H.
  - destruct i; constructor.
  - inversion H; subst. destruct i; simpl; [assumption|apply IH; assumption].
Qed.

Lemma octets_last (level : list bytes) :
  Forall octets level → octets (List.last level []).
Proof.
  induction level as [|x r IH]; intros H; [constructor|].
  inversion H; subst. destruct r; [assumption|]. apply IH. assumption.
Qed.

Lemma decodes_hex b : octets b → decodes (hex b).
Proof. intros H. exists b. split; [apply HexProps.fromhex_hex_in_range, H|exact H]. Qed.

Lemma double_sha256_octets data : octets (double_sha256 data).
Proof. apply AccountingProps.sha256_range. Qed.

Lemma next_level_octets_le n : ∀ level : list bytes,
  (length level <= n)%nat → Forall octets (next_level level).
Proof.
  induction n as [|n IH]; intros level Hl.
  - destruct level; [constructor|simpl in Hl; lia].
  - destruct level as [|h1 [|h2 r]]; [constructor| |].
    + repeat constructor. apply double_sha256_octets.
    + cbn [next_level]. constructor; [apply double_sha256_octets|].
      apply IH. simpl in Hl. lia.
Qed.

Lemma next_level_octets (level : list bytes) : Forall octets (next_level level).
Proof. apply (next_level_octets_le (length level)). lia. Qed.

Lemma merkle_loop_decodes fuel : ∀ (level : list bytes) index bs,
  Forall octets level → Forall decodes bs →
  Forall decodes (merkle_loop fuel level index bs).
Proof.
  induction fuel as [|k IH]; intros level index bs Hl Hb; [exact Hb|].
  cbn [merkle_loop]. destruct (1 <? length level)%nat; [|exact Hb].
  cbv zeta.
  set (level' := if Nat.even (length level) then level
                 else level ++ [List.last level []]).
  assert (Hl' : Forall octets level').
  { unfold level'. destruct (Nat.even (length level)); [exact Hl|].
    apply Forall_app. split; [exact Hl|]. repeat constructor. apply octets_last, Hl. }
  apply IH; [apply next_level_octets|].
  assert (Hadd : ∀ i, Forall decodes (bs ++ [hex (rev (nth i level' []))])).
  { intros i. apply Forall_app. split; [exact Hb|]. repeat constructor.
    apply decodes_hex. apply Forall_rev, octets_nth, Hl'. }
  destruct (Nat.even index && (index + 1 <? length level')%nat); [apply Hadd|].
  destruct (Nat.odd index); [apply Hadd|exact Hb].
Qed.

Lemma tx_hashes_octets txs : ∀ level, tx_hashes txs = Ok level → Forall octets level.
Proof.
  induction txs as [|tx r IH]; intros level; simpl.
  - intros [= <-]. constructor.
  - destruct (fromhex (txid tx)) as [b|] eqn:Hb; [|discriminate]. simpl.
    destruct (tx_hashes r) as [rest|]; [|discriminate]. simpl.
    intros [= <-]. constructor; [|apply IH; reflexivity].
    apply Forall_rev. apply (HexProps.fromhex_range _ _ Hb).
Qed.

Lemma calculate_merkle_branches_decode txs bs :
  calculate_merkle_branches txs = Ok bs → Forall decodes bs.
Proof.
  unfold calculate_merkle_branches. destruct txs as [|tx r].
  - intros [= <-]. constructor.
  - destruct (tx_hashes (tx :: r)) as [level|] eqn:Hl; [|discriminate].
    cbn [mbind result_bind bind mret result_ret]. intros [= <-].
    apply merkle_loop_decodes; [apply (tx_hashes_octets _ _ Hl)|constructor].
Qed.

Lemma merkle_root_from_total branches : Forall decodes branches →
  ∀ root, length root = 32%nat →
  ∃ r, merkle_root_from root branches = Ok r ∧ length r = 32%nat.
Proof.
  induction 1 as [|s r (b & Hs & _) Hr IH]; intros root Hroot.
  - exists root. split; [reflexivity|exact Hroot].
  - cbn [merkle_root_from]. rewrite Hs. cbn [mbind result_bind bind].
    apply IH. unfold double_sha256. apply ShareProps.sha256_length.
Qed.

(** X14: a job built by [create_stratum_job] can always be hashed: its
    two coinbase halves are hexadecimal, so that with any hexadecimal
    extranonces the coinbase of [validate_share] decodes to the four
    parts in a row, and every Merkle branch of the job decodes, so that
    the Merkle root is computed and has 32 octets. *)
Theorem built_job_is_hashable cfg now nsec spk tpl id job :
  create_stratum_job cfg now nsec spk tpl id = Ok job →
  ∃ b1 b2,
    fromhex (coinbase1 job) = Ok b1 ∧ fromhex (coinbase2 job) = Ok b2
    ∧ ∀ sub e1 e2,
        fromhex (extranonce1 sub) = Ok e1 → fromhex (extranonce2 sub) = Ok e2 →
        fromhex (coinbase1 job +:+ extranonce1 sub +:+ extranonce2 sub +:+ coinbase2 job)
        = Ok (b1 ++ e1 ++ e2 ++ b2)
        ∧ ∃ root,
            merkle_root_from (double_sha256 (b1 ++ e1 ++ e2 ++ b2)) (merkle_branches job)
            = Ok root
            ∧ length root = 32%nat.
Proof.
  unfold create_stratum_job.
  destruct (create_coinbase_tx now nsec spk (height tpl) (coinbasevalue tpl))
    as [[cb1 cb2]|] eqn:Hcb; [|discriminate].
  cbn [mbind result_bind bind].
  destruct (calculate_merkle_branches (transactions tpl)) as [bs|] eqn:Hbs; [|discriminate].
  cbn [mbind result_bind bind mret result_ret fst snd]. intros [= <-].
  cbn [coinbase1 coinbase2 merkle_branches].
  destruct (CoinbaseProps.coinbase_decodes _ _ _ _ _ _ _ Hcb) as (b1 & b2 & H1 & H2).
  exists b1, b2. split; [exact H1|]. split; [exact H2|].
  intros sub e1 e2 He1 He2. split.
  - rewrite (HexProps.fromhex_app _ _ _ H1), (HexProps.fromhex_app _ _ _ He1),
      (HexProps.fromhex_app _ _ _ He2), H2. reflexivity.
  - apply merkle_root_from_total.
    + apply (calculate_merkle_branches_decode _ _ Hbs).
    + unfold double_sha256. apply ShareProps.sha256_length.
Qed.

Lemma built_job_is_hashable_witness :
  ∃ b1 b2,
    fromhex (coinbase1 Sample.job1) = Ok b1 ∧ fromhex (coinbase2 Sample.job1) = Ok b2
    ∧ ∀ sub e1 e2,
        fromhex (extranonce1 sub) = Ok e1 → fromhex (extranonce2 sub) = Ok e2 →
        fromhex (coinbase1 Sample.job1 +:+ extranonce1 sub +:+ extranonce2 sub
                 +:+ coinbase2 Sample.job1)
        = Ok (b1 ++ e1 ++ e2 ++ b2)
        ∧ ∃ root,
            merkle_root_from (double_sha256 (b1 ++ e1 ++ e2 ++ b2))
              (merkle_branches Sample.job1)
            = Ok root
            ∧ length root = 32%nat.
Proof.
  apply (built_job_is_hashable Sample.config1 1700000000 123456789 Sample.script1
           Sample.template1 1).
  vm_compute. reflexivity.
Defined.

(** *** The header of a well-formed share *)

Lemma built_job_parts cfg now nsec spk tpl id job :
  create_stratum_job cfg now nsec spk tpl id = Ok job →
  prevhash job = previousblockhash tpl ∧ nbits job = bits tpl
  ∧ version job = tpl_version tpl
  ∧ (∃ b1 b2, fromhex (coinbase1 job) = Ok b1 ∧ fromhex (coinbase2 job) = Ok b2)
  ∧ Forall decodes (merkle_branches job).
Proof.
  unfold create_stratum_job.
  destruct (create_coinbase_tx now nsec spk (height tpl) (coinbasevalue tpl))
    as [[cb1 cb2]|] eqn:Hcb; [|discriminate].
  cbn [mbind result_bind bind].
  destruct (calculate_merkle_branches (transactions tpl)) as [bs|] eqn:Hbs; [|discriminate].
  cbn [mbind result_bind bind mret result_ret fst snd]. intros [= <-].
  cbn [prevhash nbits version coinbase1 coinbase2 merkle_branches].
  repeat (split; [reflexivity|]).
  split; [exact (CoinbaseProps.coinbase_decodes _ _ _ _ _ _ _ Hcb)|].
  exact (calculate_merkle_branches_decode _ _ Hbs).
Qed.

Lemma to_bytes_be_ok n v :
  0 <= v < 2 ^ (8 * Z.of_nat n) → to_bytes_be n v = Ok (rev (le_octets n v)).
Proof.
  intros H. unfold to_bytes_be.
  replace ((0 <=? v) && (v <? 2 ^ (8 * Z.of_nat n))) with true; [reflexivity|].
  symmetry. apply andb_true_iff. split; [apply Z.leb_le|apply Z.ltb_lt]; lia.
Qed.

Lemma lor_below_2_32 a b :
  0 <= a < 2 ^ 32 → 0 <= b < 2 ^ 32 → 0 <= Z.lor a b < 2 ^ 32.
Proof.
  intros Ha Hb.
  assert (Hnn : 0 <= Z.lor a b) by (apply Z.lor_nonneg; lia).
  split; [exact Hnn|].
  destruct (Z.eq_dec (Z.lor a b) 0) as [->|Hne]; [lia|].
  apply Z.log2_lt_pow2; [lia|]. rewrite Z.log2_lor by lia.
  apply Z.max_lub_lt.
  - destruct (Z.eq_dec a 0) as [->|]; [simpl; lia|]. apply Z.log2_lt_pow2; lia.
  - destruct (Z.eq_dec b 0) as [->|]; [simpl; lia|]. apply Z.log2_lt_pow2; lia.
Qed.

(** X22: a well-formed share is always hashed.  For a job built by
    [create_stratum_job] from a template with a 32-bit version, a
    previous-block hash of 64 hexadecimal digits and [bits] of 8, and a
    share with hexadecimal extranonces, a time and a nonce of 8
    hexadecimal digits each and version bits that are absent, empty or a
    32-bit hexadecimal number: the header is built, it has 80 octets,
    and its hash has 32; no exception can occur on the way. *)
Theorem well_formed_share_is_hashed cfg now nsec spk tpl id job sub e1 e2 :
  create_stratum_job cfg now nsec spk tpl id = Ok job →
  0 <= tpl_version tpl < 2 ^ 32 →
  String.length (previousblockhash tpl) = 64%nat →
  Reference.all_hex (previousblockhash tpl) = true →
  String.length (bits tpl) = 8%nat → Reference.all_hex (bits tpl) = true →
  fromhex (extranonce1 sub) = Ok e1 → fromhex (extranonce2 sub) = Ok e2 →
  String.length (sub_ntime sub) = 8%nat → Reference.all_hex (sub_ntime sub) = true →
  String.length (nonce sub) = 8%nat → Reference.all_hex (nonce sub) = true →
  match sub_version sub with
  | Some v => v = EmptyString ∨ ∃ cv, int16 v = Ok cv ∧ 0 <= cv < 2 ^ 32
  | None => True
  end →
  ∃ hdr h,
    block_header_be job sub = Ok hdr ∧ length hdr = 80%nat
    ∧ header_hash job sub = Ok h ∧ length h = 32%nat.
Proof.
  intros Hjob Hver Hpl Hph Hbl Hbh He1 He2 Htl Hth Hnl Hnh Hsv.
  destruct (built_job_parts _ _ _ _ _ _ _ Hjob)
    as (Hprev & Hnbits & Hversion & (b1 & b2 & H1 & H2) & Hbranches).
  destruct (StratumProps.fromhex_all_hex 32 _ Hpl Hph) as (p & Hp & Hplen).
  destruct (StratumProps.fromhex_all_hex 4 _ Hbl Hbh) as (b & Hb & Hblen).
  destruct (StratumProps.fromhex_all_hex 4 _ Htl Hth) as (t & Ht & Htlen).
  destruct (StratumProps.fromhex_all_hex 4 _ Hnl Hnh) as (n & Hn & Hnlen).
  rewrite <- Hprev in Hp. rewrite <- Hnbits in Hb. rewrite <- Hversion in Hver.
  assert (Hcb : fromhex (coinbase1 job +:+ extranonce1 sub +:+ extranonce2 sub
                         +:+ coinbase2 job) = Ok (b1 ++ e1 ++ e2 ++ b2)).
  { rewrite (HexProps.fromhex_app _ _ _ H1), (HexProps.fromhex_app _ _ _ He1),
      (HexProps.fromhex_app _ _ _ He2), H2. reflexivity. }
  destruct (merkle_root_from_total _ Hbranches (double_sha256 (b1 ++ e1 ++ e2 ++ b2)))
    as (root & Hroot & _); [apply ShareProps.sha256_length|].
  assert (Hhdr : ∃ hdr, block_header_be job sub = Ok hdr).
  { unfold block_header_be. rewrite Hcb. cbn [mbind result_bind bind].
    rewrite Hroot. cbn [mbind result_bind bind].
    assert (Hjv : to_bytes_be 4 (version job) = Ok (rev (le_octets 4 (version job)))).
    { apply to_bytes_be_ok. change (2 ^ (8 * Z.of_nat 4)) with (2 ^ 32). exact Hver. }
    destruct (sub_version sub) as [v|].
    - destruct (String.eqb v "") eqn:Hv; cbn [negb].
      + rewrite Hjv. cbn [mbind result_bind bind]. rewrite Hp, Ht, Hb, Hn.
        eexists. reflexivity.
      + destruct Hsv as [->|(cv & Hcv & Hrange)]; [discriminate Hv|].
        rewrite Hcv. cbn [mbind result_bind bind].
        rewrite to_bytes_be_ok
          by (change (2 ^ (8 * Z.of_nat 4)) with (2 ^ 32);
              apply lor_below_2_32; assumption).
        cbn [mbind result_bind bind]. rewrite Hp, Ht, Hb, Hn. eexists. reflexivity.
    - rewrite Hjv. cbn [mbind result_bind bind]. rewrite Hp, Ht, Hb, Hn.
      eexists. reflexivity. }
  destruct Hhdr as [hdr Hhdr].
  exists hdr, (double_sha256 (flip_bytes hdr)).
  split; [exact Hhdr|]. split.
  - apply (ShareProps.header_is_80_octets job sub hdr p t b n); try assumption; lia.
  - split; [unfold header_hash; rewrite Hhdr; reflexivity|].
    unfold double_sha256. apply ShareProps.sha256_length.
Qed.

Lemma well_formed_share_is_hashed_witness :
  ∃ hdr h,
    block_header_be Sample.job1 (Sample.share "00000002" PNone) = Ok hdr
    ∧ length hdr = 80%nat
    ∧ header_hash Sample.job1 (Sample.share "00000002" PNone) = Ok h
    ∧ length h = 32%nat.
Proof.
  apply (well_formed_share_is_hashed Sample.config1 1700000000 123456789 Sample.script1
           Sample.template1 1 Sample.job1 (Sample.share "00000002" PNone)
           [0xbf; 0x37; 0x96; 0xc2; 0x00] [0; 0; 0; 1]).
  - vm_compute. reflexivity.
  - vm_compute. split; [discriminate|reflexivity].
  - reflexivity.
  - reflexivity.
  - reflexivity.
  - reflexivity.
  - vm_compute. reflexivity.
  - vm_compute. reflexivity.
  - reflexivity.
  - reflexivity.
  - reflexivity.
  - reflexivity.
  - right. exists 4096. split; [vm_compute; reflexivity|lia].
Defined.

End JobProps.

(** ** The server over its lifetime *)

Module ServerProps.
Import Py Stratum Predicates Invariants ServerInvariants.

Lemma ok_set_client srv id c' : server_ok srv → client_ok c' → server_ok (set_client srv id c').
Proof.
  intros [Hp Hc] Hc'. split; [exact Hp|].
  intros id0 c0. unfold set_client. cbn [clients].
  destruct (decide (id = id0)) as [->|Hne].
  - rewrite lookup_insert_eq. intros [= <-]. exact Hc'.
  - rewrite lookup_insert_ne by assumption. apply Hc.
Qed.

Lemma ok_set_pool srv p : server_ok srv → reachable p → server_ok (set_pool srv p).
Proof. intros [_ Hc] Hp. split; [exact Hp|exact Hc]. Qed.

Lemma reachable_get_current_job cfg now nsec spk fetched st :
  reachable st → reachable (Pool.get_current_job cfg now nsec spk fetched st).1.
Proof.
  intros H. unfold Pool.get_current_job. cbn [fst].
  destruct (Pool.jobs st); [|exact H].
  destruct fetched; [apply reach_template, H|exact H].
Qed.

Lemma validate_worker_ok p now w id :
  reachable p →
  reachable (validate_worker p now w id).1
  ∧ ((validate_worker p now w id).2 = true → truthy w = true).
Proof.
  intros H. unfold validate_worker. destruct (truthy w).
  - destruct (negb (String.eqb id "")); cbn [fst snd];
      (split; [|reflexivity]); [apply reach_register, H|exact H].
  - cbn [fst snd]. split; [exact H|discriminate].
Qed.

Lemma on_authorize_ok srv env cid c message_id params :
  server_ok srv → client_ok c →
  server_ok (out_server (on_authorize srv env cid c message_id params)).
Proof.
  intros Hok Hc. unfold on_authorize.
  destruct (mbind _ _) as [worker_name|e]; [|exact Hok].
  pose proof (validate_worker_ok (pool srv) (env_now env) worker_name cid (proj1 Hok))
    as [Hp1 Htruthy].
  destruct (validate_worker _ _ _ _) as [p1 ok]. cbn [fst snd] in Hp1, Htruthy.
  destruct ok; [|apply ok_set_pool; assumption].
  pose proof (reachable_get_current_job (pool_config srv) (env_now_int env) (env_nsec env)
                (env_script_pubkey env) (env_template env) p1 Hp1) as Hp2.
  cbn [pool set_client set_pool].
  destruct (Pool.get_current_job _ _ _ _ _ _) as [p2 job]. cbn [fst] in Hp2.
  assert (H2 : server_ok
                 (set_pool
                    (set_client (set_pool srv p1) cid
                       (mkClient (last_activity c) true worker_name (subscribed c)
                          (c_extranonce1 c) (extranonce2_size c) (Some worker_name)
                          (Some (PFloat (default_difficulty srv)))
                          (suggested_difficulty c) (disconnected c))) p2)).
  { apply ok_set_pool; [|exact Hp2]. apply ok_set_client.
    - apply ok_set_pool; assumption.
    - intros _. cbn. split; [apply Htruthy; reflexivity|]. split; [reflexivity|eauto]. }
  destruct job as [job|]; [|exact H2].
  destruct (job_notification job); exact H2.
Qed.

Lemma on_submit_ok srv env cid c message_id params out :
  on_submit srv env cid c message_id params = Some out →
  server_ok srv → server_ok (out_server out).
Proof.
  intros Hout H. unfold on_submit in Hout.
  destruct (negb (authorized c)); [injection Hout as <-; exact H|].
  destruct (py_len params) as [n|e]; [|injection Hout as <-; exact H].
  destruct (n <? 5)%nat; [injection Hout as <-; exact H|].
  destruct (mbind _ _) as [[[[[[w j] e2] t] nn] v]|e]; [|injection Hout as <-; exact H].
  destruct (c_bitcoin_address c) as [a|]; [|injection Hout as <-; exact H].
  destruct (c_extranonce1 c) as [e1|]; [|injection Hout as <-; exact H].
  destruct (submission_of _ _ _ _ _ _ _ _ _) as [sub|]; [|discriminate].
  pose proof (reach_share (pool srv) (env_now env) sub (proj1 H)) as Hp.
  destruct (Pool.validate_share _ _ _) as [p1 r]. cbn [fst] in Hp.
  destruct r; injection Hout as <-; apply ok_set_pool; assumption.
Qed.

Lemma process_message_ok srv env cid message out :
  process_message srv env cid message = Some out →
  server_ok srv → server_ok (out_server out).
Proof.
  intros Hout H. unfold process_message in Hout.
  destruct (clients srv !! cid) as [c|] eqn:Hc; [|injection Hout as <-; exact H].
  pose proof (proj2 H _ _ Hc) as Hcok.
  destruct (is_str "mining.subscribe" _).
  { injection Hout as <-. unfold on_subscribe. cbn [out_server returns].
    apply ok_set_client; [exact H|]. exact Hcok. }
  destruct (is_str "mining.authorize" _).
  { injection Hout as <-. apply on_authorize_ok; assumption. }
  destruct (is_str "mining.submit" _).
  { eapply on_submit_ok; eassumption. }
  destruct (is_str "mining.get_transactions" _).
  { injection Hout as <-. unfold on_get_transactions.
    pose proof (reachable_get_current_job (pool_config srv) (env_now_int env) (env_nsec env)
                  (env_script_pubkey env) (env_template env) (pool srv) (proj1 H)) as Hp.
    destruct (Pool.get_current_job _ _ _ _ _ _). cbn [fst] in Hp.
    apply ok_set_pool; assumption. }
  destruct (is_str "client.get_version" _); [injection Hout as <-; exact H|].
  destruct (is_str "client.reconnect" _); [injection Hout as <-; exact H|].
  destruct (is_str "mining.configure" _).
  { injection Hout as <-. unfold on_configure.
    destruct (_ : result (bool * pyval)) as [[wanted fp]|e]; exact H. }
  destruct (is_str "mining.suggest_difficulty" _).
  { injection Hout as <-. unfold on_suggest_difficulty.
    destruct (mbind _ _) as [suggested|e]; [|exact H]. cbn [out_server returns].
    apply ok_set_client; [exact H|].
    intros Ha. destruct (Hcok Ha) as (H1 & H2 & _). cbn. repeat split; eauto. }
  destruct (method_text _); [|discriminate]. injection Hout as <-. exact H.
Qed.

Lemma process_line_ok srv env cid line srv' frames :
  process_line srv env cid line = Some (srv', frames) →
  server_ok srv → server_ok srv'.
Proof.
  intros Hline H. unfold process_line in Hline.
  destruct (clients srv !! cid) as [c|] eqn:Hc; [|injection Hline as <- _; exact H].
  set (srv1 := set_client srv cid _) in Hline.
  assert (H1 : server_ok srv1).
  { apply ok_set_client; [exact H|]. exact (proj2 H _ _ Hc). }
  destruct line as [|message]; [injection Hline as <- _; exact H1|].
  destruct (assoc "id" message); [|injection Hline as <- _; exact H1].
  destruct (process_message srv1 env cid message) as [out|] eqn:Hout; [|discriminate].
  pose proof (process_message_ok _ _ _ _ _ Hout H1) as H2.
  cbn [mbind option_bind] in Hline.
  destruct (out_result out) as [[r|]|e]; injection Hline as <- _; exact H2.
Qed.

Lemma broadcast_iteration_ok srv env last_job_id :
  server_ok srv → server_ok (broadcast_iteration srv env last_job_id).1.1.
Proof.
  intros H. unfold broadcast_iteration.
  pose proof (reachable_get_current_job (pool_config srv) (env_now_int env) (env_nsec env)
                (env_script_pubkey env) (env_template env) (pool srv) (proj1 H)) as Hp.
  destruct (Pool.get_current_job _ _ _ _ _ _) as [p1 job]. cbn [fst] in Hp.
  assert (H1 : server_ok (set_pool srv p1)) by (apply ok_set_pool; assumption).
  destruct job as [job|]; [|exact H1].
  case_bool_decide; [exact H1|].
  destruct (job_notification job); exact H1.
Qed.

Lemma server_reachable_ok srv : server_reachable srv → server_ok srv.
Proof.
  induction 1 as [dd acc cfg p Hp | srv id now _ IH | srv env id line srv' frames _ IH Hline
                 | srv env last _ IH | srv id _ IH | srv id _ IH | srv now nsec spk tpl _ IH].
  - split; [exact Hp|]. intros id c. cbn [clients]. rewrite lookup_empty. discriminate.
  - apply ok_set_client; [exact IH|]. intros Ha. discriminate Ha.
  - eapply process_line_ok; eassumption.
  - apply broadcast_iteration_ok, IH.
  - split; [exact (proj1 IH)|]. intros id0 c. unfold disconnect. cbn [clients].
    intros Hl. apply lookup_delete_Some in Hl. destruct Hl as [_ Hl].
    exact (proj2 IH _ _ Hl).
  - unfold mark_client_disconnected. destruct (clients srv !! id) as [c|] eqn:Hc; [|exact IH].
    apply ok_set_client; [exact IH|]. exact (proj2 IH _ _ Hc).
  - apply ok_set_pool; [exact IH|]. apply reach_template, (proj1 IH).
Qed.


Lemma reachable_after_line srv id line :
  server_reachable srv → server_reachable (SampleServerMore.after_line srv id line).
Proof.
  intros H. unfold SampleServerMore.after_line.
  destruct (process_line srv SampleServer.env1 id line) as [[srv' frames]|] eqn:E; [|exact H].
  eapply srv_line; eassumption.
Qed.

Lemma authorized_server_reachable : server_reachable SampleServerMore.authorized_server.
Proof.
  unfold SampleServerMore.authorized_server.
  do 2 apply reachable_after_line. apply srv_connect, srv_init.
  apply reach_template, reach_init.
Qed.


(** *** Submissions *)

Lemma reason_text_above r :
  Pool.reason_text r = Pool.reason_text Pool.ShareAboveTarget → r = Pool.ShareAboveTarget.
Proof. destruct r; cbn; intros H; try discriminate H. reflexivity. Qed.



Lemma submission_of_difficulty w j e2 t n v a e1 d sub :
  submission_of w j e2 t n v a e1 d = Some sub → Pool.difficulty sub = d.
Proof.
  unfold submission_of.
  destruct (as_str w); [|discriminate]. destruct (as_str j); [|discriminate].
  destruct (as_str e2); [|discriminate]. destruct (as_str t); [|discriminate].
  destruct (as_str n); [|discriminate]. destruct (as_str a); [|discriminate].
  cbn [mbind option_bind].
  destruct v; try discriminate; cbn; intros [= <-]; reflexivity.
Qed.

(** With the difficulty [d] in the session, [mining.submit] does not
    answer 'Share above target' when [d <= 0] holds. *)
Lemma on_submit_nonpositive srv env id c message_id params d out :
  c_difficulty c = Some d → le_zero d = Ok true →
  on_submit srv env id c message_id params = Some out →
  out_result out ≠ Ok (Some (above_target_response message_id)).
Proof.
  intros Hd Hle Hout. unfold on_submit in Hout. unfold above_target_response.
  destruct (negb (authorized c)); [injection Hout as <-; discriminate|].
  destruct (py_len params) as [n|e]; [|injection Hout as <-; discriminate].
  destruct (n <? 5)%nat; [injection Hout as <-; discriminate|].
  destruct (mbind _ _) as [[[[[[w j] e2] t] nn] v]|e]; [|injection Hout as <-; discriminate].
  destruct (c_bitcoin_address c) as [a|]; [|injection Hout as <-; discriminate].
  destruct (c_extranonce1 c) as [e1|]; [|injection Hout as <-; discriminate].
  rewrite Hd in Hout.
  destruct (submission_of _ _ _ _ _ _ _ _ _) as [sub|] eqn:Hsub; [|discriminate].
  apply submission_of_difficulty in Hsub.
  pose proof (AccountingProps.above_target_only_if (pool srv) (env_now env) sub) as Hnot.
  destruct (Pool.validate_share _ _ _) as [p1 r]. cbn [snd] in Hnot.
  destruct r as [bf h|reason]; injection Hout as <-; [discriminate|].
  cbn [out_result returns]. intros [= Hreason].
  apply reason_text_above in Hreason. subst reason.
  apply Hnot; [reflexivity|]. rewrite Hsub. exact Hle.
Qed.

(** X17: a miner picks its own target.  When the server accepts
    suggested difficulties, [mining.suggest_difficulty] stores the
    suggested value as the session difficulty and announces it; if that
    value is zero or negative, a [mining.submit] that follows is never
    answered 'Share above target'. *)
Theorem suggested_nonpositive_difficulty_accepts_any_hash
    srv env1 env2 id m1 m2 d rest out1 out2 :
  accept_suggested_difficulty srv = true →
  is_Some (clients srv !! id) →
  dict_get m1 "method" PNone = PStr "mining.suggest_difficulty" →
  dict_get m1 "params" (PList []) = PList (d :: rest) →
  le_zero d = Ok true →
  process_message srv env1 id m1 = Some out1 →
  dict_get m2 "method" PNone = PStr "mining.submit" →
  process_message (out_server out1) env2 id m2 = Some out2 →
  (∃ c, clients (out_server out1) !! id = Some c ∧ c_difficulty c = Some d)
  ∧ out_written out1 = [set_difficulty_notification d]
  ∧ out_result out2 ≠ Ok (Some (above_target_response (dict_get m2 "id" PNone))).
Proof.
  intros Hacc [c Hc] Hm1 Hp1 Hle Hout1 Hm2 Hout2.
  unfold process_message in Hout1. rewrite Hc, Hm1, Hp1 in Hout1.
  cbn in Hout1. unfold on_suggest_difficulty in Hout1. rewrite Hacc in Hout1.
  cbn in Hout1. injection Hout1 as <-.
  cbn [out_server out_written returns] in *.
  assert (Hc1 : ∃ c1, clients (set_client srv id
      (mkClient (last_activity c) (authorized c) (c_worker_name c) (subscribed c)
         (c_extranonce1 c) (extranonce2_size c) (c_bitcoin_address c) (Some d)
         (Some d) (disconnected c))) !! id = Some c1 ∧ c_difficulty c1 = Some d).
  { eexists. unfold set_client. cbn [clients]. rewrite lookup_insert_eq.
    split; reflexivity. }
  split; [exact Hc1|]. split; [reflexivity|].
  destruct Hc1 as (c1 & Hc1 & Hd1).
  unfold process_message in Hout2. rewrite Hc1, Hm2 in Hout2. cbn in Hout2.
  eapply on_submit_nonpositive; eassumption.
Qed.

Lemma suggested_nonpositive_difficulty_accepts_any_hash_witness :
  out_result
    (SampleServerMore.outcome_of
       (out_server (SampleServerMore.outcome_of SampleServerMore.authorized_server
                      "bf3796c2" SampleServerMore.suggest_zero))
       "bf3796c2" SampleServerMore.submit_request)
  ≠ Ok (Some (above_target_response (PInt 4))).
Proof.
  refine (proj2 (proj2 (suggested_nonpositive_difficulty_accepts_any_hash
            SampleServerMore.authorized_server SampleServer.env1 SampleServer.env1
            "bf3796c2" SampleServerMore.suggest_zero SampleServerMore.submit_request
            (PInt 0) []
            (SampleServerMore.outcome_of SampleServerMore.authorized_server
               "bf3796c2" SampleServerMore.suggest_zero)
            (SampleServerMore.outcome_of
               (out_server (SampleServerMore.outcome_of SampleServerMore.authorized_server
                              "bf3796c2" SampleServerMore.suggest_zero))
               "bf3796c2" SampleServerMore.submit_request)
            _ _ _ _ _ _ _ _))).
  - reflexivity.
  - vm_compute. eauto.
  - reflexivity.
  - reflexivity.
  - reflexivity.
  - vm_compute. reflexivity.
  - reflexivity.
  - vm_compute. reflexivity.
Defined.

(** *** The session's [extranonce1] *)

(** X18: once a session holds the [extranonce1] that
    [mining.subscribe] assigns, it holds it after any sequence of lines,
    from this miner or from others; every line of the sequence gets its
    list of frames. *)
Theorem extranonce1_is_stable steps : ∀ srv srv' out id,
  StratumMore.run_lines srv steps = Some (srv', out) →
  extranonce1_assigned srv id →
  extranonce1_assigned srv' id ∧ length out = length steps.
Proof.
  induction steps as [|[[env cid] line] rest IH]; intros srv srv' out id Hrun H.
  - injection Hrun as <- <-. split; [exact H|reflexivity].
  - cbn [StratumMore.run_lines] in Hrun.
    destruct (process_line srv env cid line) as [[srv1 frames]|] eqn:Hline; [|discriminate].
    destruct (StratumMore.run_lines srv1 rest) as [[srv2 more]|] eqn:Hrest; [|discriminate].
    injection Hrun as <- <-.
    destruct (IH srv1 srv2 more id Hrest) as [H2 Hlen].
    + eapply StratumProps.process_line_keeps_extranonce1; eassumption.
    + split; [exact H2|]. simpl. rewrite Hlen. reflexivity.
Qed.

Lemma extranonce1_is_stable_witness :
  ∃ srv' out,
    StratumMore.run_lines (SampleServer.server Sample.state1)
      [(SampleServer.env1, "bf3796c2", JsonObject SampleServer.subscribe_request);
       (SampleServer.env1, "bf3796c2", NotJson);
       (SampleServer.env1, "bf3796c2", JsonObject SampleServerMore.suggest_zero)]
    = Some (srv', out)
    ∧ extranonce1_assigned srv' "bf3796c2" ∧ length out = 3%nat.
Proof.
  set (steps := [(SampleServer.env1, "bf3796c2", JsonObject SampleServer.subscribe_request);
                 (SampleServer.env1, "bf3796c2", NotJson);
                 (SampleServer.env1, "bf3796c2", JsonObject SampleServerMore.suggest_zero)]).
  set (r := default (SampleServer.server Sample.state1, [])
              (StratumMore.run_lines (SampleServer.server Sample.state1) steps)).
  assert (Hrun : StratumMore.run_lines (SampleServer.server Sample.state1) steps
                 = Some (r.1, r.2)).
  { vm_compute. reflexivity. }
  exists r.1, r.2. split; [exact Hrun|].
  apply (extranonce1_is_stable steps (SampleServer.server Sample.state1) r.1 r.2 "bf3796c2"
           Hrun).
  eexists. split; [vm_compute; reflexivity|reflexivity].
Defined.

(** *** Authorization *)

Lemma last_elem_of {A} (l : list A) x : last l = Some x → x ∈ l.
Proof.
  intros H. apply last_Some in H. destruct H as [l' ->].
  apply elem_of_app. right. left.
Qed.

Lemma validate_worker_named p now w id :
  w ≠ EmptyString → (validate_worker p now (PStr w) id).2 = true.
Proof.
  intros Hw. unfold validate_worker. cbn [truthy].
  replace (String.eqb w "") with false by (symmetry; apply String.eqb_neq, Hw).
  cbn [negb]. destruct (negb (String.eqb id "")); reflexivity.
Qed.

(** X19: [mining.authorize] with a non-empty worker name, on a
    reachable server: the handler returns nothing and has written the
    positive answer first, then [mining.set_difficulty] with the
    server's default difficulty, then [mining.notify] for the newest job
    if the pool holds one; the session is marked authorized under that
    name, the name is stored as payout address, the session difficulty
    is reset to the default (whatever had been suggested before), and
    [extranonce1] is untouched. *)
Theorem authorize_sets_the_session srv env id c message w rest :
  server_reachable srv →
  clients srv !! id = Some c →
  dict_get message "method" PNone = PStr "mining.authorize" →
  dict_get message "params" (PList []) = PList (PStr w :: rest) →
  w ≠ EmptyString →
  ∃ out c' more,
    process_message srv env id message = Some out
    ∧ out_result out = Ok None
    ∧ out_written out
      = response (dict_get message "id" PNone) (PBool true) PNone
        :: set_difficulty_notification (PFloat (default_difficulty srv)) :: more
    ∧ match Pool.latest_job (pool (out_server out)) with
      | Some job => ∃ f, job_notification job = Ok f ∧ more = [f]
      | None => more = []
      end
    ∧ clients (out_server out) !! id = Some c'
    ∧ authorized c' = true ∧ c_worker_name c' = PStr w
    ∧ c_bitcoin_address c' = Some (PStr w)
    ∧ c_difficulty c' = Some (PFloat (default_difficulty srv))
    ∧ c_extranonce1 c' = c_extranonce1 c.
Proof.
  intros Hr Hc Hm Hp Hw. destruct (server_reachable_ok srv Hr) as [Hpool _].
  unfold process_message. rewrite Hc, Hm, Hp.
  change (is_str "mining.subscribe" (PStr "mining.authorize")) with false.
  change (is_str "mining.authorize" (PStr "mining.authorize")) with true.
  cbv iota. unfold on_authorize.
  assert (Hbind :
    (worker_name ← (if truthy (PList (PStr w :: rest))
                    then py_index (PList (PStr w :: rest)) 0 else Ok PNone);
     n ← py_len (PList (PStr w :: rest));
     _ ← (if (1 <? n)%nat then py_index (PList (PStr w :: rest)) 1 else Ok PNone);
     mret worker_name) = Ok (PStr w)).
  { destruct rest; reflexivity. }
  rewrite Hbind.
  pose proof (validate_worker_ok (pool srv) (env_now env) (PStr w) id Hpool) as [Hp1 _].
  pose proof (validate_worker_named (pool srv) (env_now env) w id Hw) as Hok.
  destruct (validate_worker _ _ _ _) as [p1 ok]. cbn [fst snd] in Hp1, Hok. subst ok.
  cbn [pool set_client set_pool].
  pose proof (reachable_get_current_job (pool_config srv) (env_now_int env) (env_nsec env)
                (env_script_pubkey env) (env_template env) p1 Hp1) as Hp2.
  assert (Hlatest :
    (Pool.get_current_job (pool_config srv) (env_now_int env) (env_nsec env)
       (env_script_pubkey env) (env_template env) p1).2
    = Pool.latest_job
        (Pool.get_current_job (pool_config srv) (env_now_int env) (env_nsec env)
           (env_script_pubkey env) (env_template env) p1).1) by reflexivity.
  destruct (Pool.get_current_job _ _ _ _ _ _) as [p2 job]. cbn [fst snd] in Hp2, Hlatest.
  subst job.
  destruct (Pool.latest_job p2) as [job|] eqn:Hjob.
  - destruct (RegistryProps.reachable_ok p2 Hp2) as [(_ & _ & Hall & _) _].
    destruct (Hall job (last_elem_of _ _ Hjob)) as (_ & _ & Hnt).
    destruct (FormatProps.job_notification_fields job _ Hnt) as (f & Hf & _).
    rewrite Hf. eexists _, _, [f]. split; [reflexivity|].
    cbn [out_result out_written out_server returns set_pool set_client pool clients app].
    split; [reflexivity|]. split; [reflexivity|]. rewrite Hjob.
    split; [exists f; split; [exact Hf|reflexivity]|].
    rewrite lookup_insert_eq. repeat split; reflexivity.
  - eexists _, _, []. split; [reflexivity|].
    cbn [out_result out_written out_server returns set_pool set_client pool clients app].
    split; [reflexivity|]. split; [reflexivity|]. rewrite Hjob.
    split; [reflexivity|].
    rewrite lookup_insert_eq. repeat split; reflexivity.
Qed.

Lemma authorize_sets_the_session_witness :
  ∃ out c' more,
    process_message SampleServerMore.authorized_server SampleServer.env1 "bf3796c2"
      SampleServerMore.authorize_request = Some out
    ∧ out_result out = Ok None
    ∧ out_written out
      = response (PInt 2) (PBool true) PNone
        :: set_difficulty_notification (PFloat Sample.float_one) :: more
    ∧ match Pool.latest_job (pool (out_server out)) with
      | Some job => ∃ f, job_notification job = Ok f ∧ more = [f]
      | None => more = []
      end
    ∧ clients (out_server out) !! "bf3796c2" = Some c'
    ∧ authorized c' = true ∧ c_worker_name c' = PStr "tb1qworker"
    ∧ c_bitcoin_address c' = Some (PStr "tb1qworker")
    ∧ c_difficulty c' = Some (PFloat Sample.float_one)
    ∧ c_extranonce1 c' = Some "bf3796c200".
Proof.
  assert (Hc : clients SampleServerMore.authorized_server !! "bf3796c2"
               = Some (default (new_client 0)
                         (clients SampleServerMore.authorized_server !! "bf3796c2"))).
  { vm_compute. reflexivity. }
  assert (Hw : "tb1qworker" ≠ EmptyString) by discriminate.
  exact (authorize_sets_the_session SampleServerMore.authorized_server SampleServer.env1
           "bf3796c2" _ SampleServerMore.authorize_request "tb1qworker" [PStr "x"]
           authorized_server_reachable Hc eq_refl eq_refl Hw).
Defined.

(** *** Requests without an answer *)

(** X20: [mining.authorize] is the only request that can go
    unanswered: when a line carrying an ['id'] from a connected client
    gets no frame at all, its method is [mining.authorize]. *)
Theorem only_authorize_goes_unanswered srv env id c message message_id srv' :
  clients srv !! id = Some c →
  assoc "id" message = Some message_id →
  process_line srv env id (JsonObject message) = Some (srv', []) →
  dict_get message "method" PNone = PStr "mining.authorize".
Proof.
  intros Hc Hid Hline. unfold process_line in Hline. rewrite Hc, Hid in Hline.
  set (srv1 := set_client srv id _) in Hline.
  destruct (process_message srv1 env id message) as [out|] eqn:Hout; [|discriminate].
  cbn [mbind option_bind] in Hline.
  assert (Hnil : out_written out = [] ∧ out_result out = Ok None).
  { destruct (out_result out) as [[r|]|e]; injection Hline as _ Hf.
    - destruct (out_written out); discriminate.
    - split; [exact Hf|reflexivity].
    - destruct (out_written out); discriminate. }
  destruct Hnil as [_ Hres]. clear Hline.
  unfold process_message in Hout.
  destruct (clients srv1 !! id) as [c1|]; [|injection Hout as <-; discriminate].
  destruct (dict_get message "method" PNone) as [|b|z|f|m|l|d] eqn:Hm;
    try (cbn in Hout; first [discriminate Hout|injection Hout as <-; discriminate]).
  cbn [is_str] in Hout.
  destruct (String.eqb m "mining.subscribe"); [injection Hout as <-; discriminate|].
  destruct (String.eqb m "mining.authorize") eqn:Ha.
  { apply String.eqb_eq in Ha. subst m. reflexivity. }
  exfalso.
  destruct (String.eqb m "mining.submit").
  { unfold on_submit in Hout.
    destruct (negb (authorized c1)); [injection Hout as <-; discriminate|].
    destruct (py_len _) as [n|e]; [|injection Hout as <-; discriminate].
    destruct (n <? 5)%nat; [injection Hout as <-; discriminate|].
    destruct (mbind _ _) as [[[[[[w j] e2] t] nn] v]|e]; [|injection Hout as <-; discriminate].
    destruct (c_bitcoin_address c1) as [a|]; [|injection Hout as <-; discriminate].
    destruct (c_extranonce1 c1) as [e1|]; [|injection Hout as <-; discriminate].
    destruct (submission_of _ _ _ _ _ _ _ _ _) as [sub|]; [|discriminate].
    destruct (Pool.validate_share _ _ _) as [p1 r].
    destruct r; injection Hout as <-; discriminate. }
  destruct (String.eqb m "mining.get_transactions").
  { injection Hout as <-. unfold on_get_transactions in Hres.
    destruct (Pool.get_current_job _ _ _ _ _ _). discriminate. }
  destruct (String.eqb m "client.get_version"); [injection Hout as <-; discriminate|].
  destruct (String.eqb m "client.reconnect"); [injection Hout as <-; discriminate|].
  destruct (String.eqb m "mining.configure").
  { injection Hout as <-. unfold on_configure in Hres.
    destruct (_ : result (bool * pyval)) as [[wanted fp]|e]; discriminate. }
  destruct (String.eqb m "mining.suggest_difficulty").
  { injection Hout as <-. unfold on_suggest_difficulty in Hres.
    destruct (mbind _ _) as [suggested|e]; discriminate. }
  cbn in Hout. injection Hout as <-. discriminate.
Qed.

Lemma only_authorize_goes_unanswered_witness :
  dict_get SampleServer.authorize_empty_params "method" PNone = PStr "mining.authorize".
Proof.
  apply (only_authorize_goes_unanswered SampleServer.fresh_server SampleServer.env1
           "bf3796c2" (new_client 1700000000) SampleServer.authorize_empty_params (PInt 2)
           (default SampleServer.fresh_server
              (fst <$> process_line SampleServer.fresh_server SampleServer.env1 "bf3796c2"
                         (JsonObject SampleServer.authorize_empty_params)))).
  - vm_compute. reflexivity.
  - reflexivity.
  - vm_compute. reflexivity.
Defined.

End ServerProps.

(** ** [to_little_endian_hex] *)

Module LegacyProps.
Import Py Pool Invariants.

Lemma hex_length b : String.length (hex b) = (2 * length b)%nat.
Proof.
  induction b as [|x r IH]; [reflexivity|].
  change (String.length (hex (x :: r))) with (S (S (String.length (hex r)))).
  rewrite IH. cbn [length]. lia.
Qed.

Lemma code_hexdigit d : 0 <= d < 16 → code (hexdigit d) ≠ 120.
Proof.
  intros Hd. pose proof (CodecProps.hexval_hexdigit d Hd) as H.
  apply CodecProps.hexval_range in H. lia.
Qed.

Lemma strip_0x_hex b : PoolMore.strip_0x (hex b) = hex b.
Proof.
  destruct b as [|x r]; [reflexivity|].
  change (hex (x :: r))
    with (String (hexdigit (x / 16)) (String (hexdigit (x mod 16)) (hex r))).
  unfold PoolMore.strip_0x.
  replace (code (hexdigit (x mod 16)) =? 120) with false.
  - rewrite andb_false_r. reflexivity.
  - symmetry. apply Z.eqb_neq, code_hexdigit. apply Z.mod_pos_bound. lia.
Qed.

Lemma zfill_long width s :
  (width <= String.length s)%nat → PoolMore.zfill width s = s.
Proof.
  intros H. unfold PoolMore.zfill.
  replace (width <=? String.length s)%nat with true
    by (symmetry; apply Nat.leb_le, H).
  reflexivity.
Qed.

Lemma to_little_endian_hex_str b :
  octets b →
  PoolMore.to_little_endian_hex (inl (hex b)) (length b) = Ok (hex (rev b)).
Proof.
  intros Hb. unfold PoolMore.to_little_endian_hex.
  rewrite strip_0x_hex, zfill_long by (rewrite hex_length; lia).
  rewrite (HexProps.fromhex_hex_in_range b Hb). reflexivity.
Qed.

(** X23: [to_little_endian_hex] reverses the octets: on the hexadecimal
    form of [n] octets with [byte_length = n] it returns the form of
    the reversed octets, so applying it twice gives the string back; on
    an integer that fits [byte_length] octets it returns the
    little-endian octets of the number. *)
Theorem to_little_endian_hex_reverses :
  (∀ b, octets b →
     PoolMore.to_little_endian_hex (inl (hex b)) (length b) = Ok (hex (rev b))
     ∧ PoolMore.to_little_endian_hex (inl (hex (rev b))) (length b) = Ok (hex b))
  ∧ (∀ n k, 0 <= n < 2 ^ (8 * Z.of_nat k) →
       PoolMore.to_little_endian_hex (inr n) k = Ok (hex (le_octets k n))).
Proof.
  split.
  - intros b Hb. split; [apply to_little_endian_hex_str, Hb|].
    rewrite <- (length_rev b). rewrite to_little_endian_hex_str by (apply Forall_rev, Hb).
    rewrite rev_involutive. reflexivity.
  - intros n k Hn. unfold PoolMore.to_little_endian_hex.
    rewrite JobProps.to_bytes_be_ok by assumption.
    cbn [mbind result_bind bind mret result_ret]. rewrite rev_involutive. reflexivity.
Qed.

Lemma to_little_endian_hex_reverses_witness :
  PoolMore.to_little_endian_hex (inl "207fffff") 4 = Ok "ffff7f20"
  ∧ PoolMore.to_little_endian_hex (inr 0x20000000) 4 = Ok "00000020".
Proof.
  destruct to_little_endian_hex_reverses as [Hs Hi]. split.
  - apply (Hs [0x20; 0x7f; 0xff; 0xff]).
    repeat constructor; lia.
  - apply (Hi 0x20000000 4%nat). vm_compute. split; [discriminate|reflexivity].
Defined.

End LegacyProps.
